(** * CPC V2 (pl_bolts/models/self_supervised/cpc/cpc_module.py)

    A shallow embedding of the [CPCV2] lightning module: the tensor layout
    operations behind [__recover_z_shape], the [forward] pass, the
    construction-time shape probe, the training and validation steps with
    the autograd bookkeeping they rely on, and [load_pretrained]. *)

From Stdlib Require Import QArith ArithRing.
From stdpp Require Import gmap strings list fin_maps.

Set Warnings "-register-all".

Local Open Scope string_scope.
Local Open Scope nat_scope.

(** ** Python exceptions and fallible results *)

Inductive exn :=
| IndexError | ValueError | ZeroDivisionError | RuntimeError
| AttributeError | TypeError | KeyError | UnboundLocalError.

Inductive result (X : Type) :=
| Ok (x : X)
| Raise (e : exn).
Arguments Ok {X} x.
Arguments Raise {X} e.

(** Sequencing of fallible and of stateful computations *)
Class Monad (F : Type → Type) := {
  ret : ∀ {X}, X → F X;
  bind : ∀ {X Y}, F X → (X → F Y) → F Y
}.

Notation "x <- m ;; k" := (bind m (fun x => k))
  (at level 20, m at level 99, k at level 200, only parsing).
Notation "' p <- m ;; k" := (bind m (fun x => let 'p := x in k))
  (at level 20, p pattern, m at level 99, k at level 200, only parsing).

#[global] Instance result_monad : Monad result := {|
  ret _ x := Ok x;
  bind _ _ m f := match m with Ok x => f x | Raise e => Raise e end
|}.

(** ** Tensors

    A tensor is its size together with its elements in logical
    (row-major) order, the order no view, squeeze or selection changes.
    How the elements lie in memory is told by the strides, which are kept
    apart ([strided], below) for the tensors that reach the module from
    outside: on them depends whether [view] succeeds. *)

Module Layout.
Section Elem.
Context {A : Type}.

Record tensor := Tensor { shape : list nat; data : list A }.

Definition numel (sh : list nat) : nat := foldr Nat.mul 1 sh.

Definition wf (t : tensor) : Prop := length (data t) = numel (shape t).

(** [t.size(i)] *)
Definition size (t : tensor) (i : nat) : result nat :=
  match shape t !! i with
  | Some n => Ok n
  | None => Raise IndexError
  end.

(** [t.squeeze(-1)]: the last dimension is dropped when it is 1; any
    other tensor (a 0-dim one included) is returned as it is. *)
Fixpoint squeeze_last_shape (sh : list nat) : list nat :=
  match sh with
  | [] => []
  | d :: r =>
      match r with
      | [] => if d =? 1 then [] else [d]
      | _ :: _ => d :: squeeze_last_shape r
      end
  end.

Definition squeeze_last (t : tensor) : tensor :=
  Tensor (squeeze_last_shape (shape t)) (data t).

(** [t.view(d0, d1, ...)] on a contiguous tensor, [None] standing for
    [-1].  As torch's [infer_size]: the product of the given sizes must
    equal the number of elements, or, with one [-1], be positive and
    divide it.  ([reshape] does the same on any tensor.) *)
Definition known_prod (spec : list (option nat)) : nat :=
  foldr (fun o acc => match o with Some d => d * acc | None => acc end) 1 spec.

Definition count_infer (spec : list (option nat)) : nat :=
  foldr (fun o acc => match o with Some _ => acc | None => S acc end) 0 spec.

Definition infer_size (spec : list (option nat)) (n : nat) : result (list nat) :=
  let newsize := known_prod spec in
  match count_infer spec with
  | 0 => if n =? newsize
         then Ok (map (default 0) spec)
         else Raise RuntimeError
  | 1 => if (0 <? newsize) && (n mod newsize =? 0)
         then Ok (map (default (n / newsize)) spec)
         else Raise RuntimeError
  | _ => Raise RuntimeError
  end.

Definition view (t : tensor) (spec : list (option nat)) : result tensor :=
  sh <- infer_size spec (numel (shape t)) ;;
  Ok (Tensor sh (data t)).

(** Elements picked by position: entry [k] of the result is entry
    [src k] of [l]. *)
Definition gather (src : nat → nat) (n : nat) (l : list A) : list A :=
  match l with
  | [] => []
  | d :: _ => (fun k => nth (src k) l d) <$> seq 0 n
  end.

(** [t.permute(0, 2, 1).contiguous()] on a tensor of size
    [(d0, d1, d2)]: entry [(a, c, p)] of the result, at position [k],
    is entry [(a, p, c)] of [t]. *)
Definition permute021_src (d1 d2 k : nat) : nat :=
  (k / (d2 * d1)) * (d1 * d2) + (k mod d1) * d2 + (k / d1) mod d2.

Definition permute021 (t : tensor) : result tensor :=
  match shape t with
  | [d0; d1; d2] =>
      Ok (Tensor [d0; d2; d1]
            (gather (permute021_src d1 d2) (d0 * (d2 * d1)) (data t)))
  | _ => Raise RuntimeError
  end.

(** [t[i]] on the first dimension *)
Definition getitem (t : tensor) (i : nat) : result tensor :=
  match shape t with
  | [] => Raise IndexError
  | d :: r =>
      if i <? d
      then Ok (Tensor r (take (numel r) (drop (i * numel r) (data t))))
      else Raise IndexError
  end.

(** Row-major position of a multi-index, and the element found there. *)
Fixpoint offset (sh idx : list nat) : option nat :=
  match sh, idx with
  | [], [] => Some 0
  | d :: sh', i :: idx' =>
      if i <? d then o ← offset sh' idx'; Some (i * numel sh' + o) else None
  | _, _ => None
  end.

Definition get (t : tensor) (idx : list nat) : option A :=
  o ← offset (shape t) idx; data t !! o.

(** [int(math.sqrt(n))]: the integer square root (the double-precision
    square root is exact enough for every [n] below 2^52). *)
Definition int_sqrt (n : nat) : nat := Nat.sqrt n.

(** ** Memory layout

    A torch tensor is a view on a storage: beside its size it has one
    stride per dimension.  A [strided] tensor is its content together
    with its strides. *)

Record strided := Strided { content : tensor; strides : list nat }.

(** The strides of a contiguous tensor: the last one is 1 and
    [stride[i] = stride[i+1] * max(size[i+1], 1)]. *)
Fixpoint contiguous_strides (sh : list nat) : list nat :=
  match sh with
  | [] => []
  | _ :: r => foldr (fun d acc => Nat.max d 1 * acc) 1 r :: contiguous_strides r
  end.

(** A tensor given by size and elements alone is the contiguous one. *)
Definition contiguous (t : tensor) : strided :=
  Strided t (contiguous_strides (shape t)).

(** Whether a tensor of size [oldshape] and strides [oldstride] can be
    seen in the size [newshape] without a copy: torch's [computeStride],
    which [view] requires to succeed.  Both loops run over the
    dimensions last to first.  The inner one takes view dimensions while
    the chunk of tensor dimensions is not filled or the view dimension
    is 1. *)
Fixpoint take_view (tensor_numel view_numel : nat) (vs : list nat)
  : nat * list nat :=
  match vs with
  | v :: vs' =>
      if (view_numel <? tensor_numel) || (v =? 1)
      then take_view tensor_numel (view_numel * v) vs'
      else (view_numel, vs)
  | [] => (view_numel, [])
  end.

(** The outer loop: a chunk of tensor dimensions ends at the first
    dimension, or where the next dimension is not 1 and its stride is not
    that of the chunk continued; there the view dimensions taken must
    hold exactly the elements of the chunk. *)
Fixpoint view_chunks (old : list (nat * nat))
    (chunk_base_stride tensor_numel view_numel : nat) (vs : list nat) : bool :=
  match old with
  | [] => match vs with [] => true | _ :: _ => false end
  | (d, _) :: rest =>
      let tensor_numel := tensor_numel * d in
      let chunk_end :=
        match rest with
        | [] => true
        | (d', s') :: _ =>
            negb (d' =? 1) && negb (s' =? tensor_numel * chunk_base_stride)
        end in
      if chunk_end then
        let '(view_numel, vs) := take_view tensor_numel view_numel vs in
        if view_numel =? tensor_numel
        then match rest with
             | [] => view_chunks rest chunk_base_stride tensor_numel view_numel vs
             | (_, s') :: _ => view_chunks rest s' 1 1 vs
             end
        else false
      else view_chunks rest chunk_base_stride tensor_numel view_numel vs
  end.

Definition can_view (oldshape oldstride newshape : list nat) : bool :=
  match oldshape with
  | [] => true
  | _ :: _ =>
      if numel oldshape =? 0 then true
      else view_chunks (reverse (zip oldshape oldstride))
             (default 0 (last oldstride)) 1 1 (reverse newshape)
  end.

(** Dimensions and strides, last first, as those of a contiguous tensor
    have them: each stride is the number of elements counted so far. *)
Fixpoint canonical (tn : nat) (old : list (nat * nat)) : Prop :=
  match old with
  | [] => True
  | (d, s) :: rest => s = tn ∧ canonical (tn * d) rest
  end.

(** A view that only splits dimensions: the view dimensions [vs] fall
    into one group for each tensor dimension of [ds], with as many
    elements. *)
Fixpoint grouped (ds vs : list nat) : Prop :=
  match ds with
  | [] => vs = []
  | d :: ds' => ∃ g rest, vs = (g ++ rest)%list ∧ numel g = d ∧ grouped ds' rest
  end.

Fixpoint drop_ones (vs : list nat) : list nat :=
  match vs with
  | v :: vs' => if v =? 1 then drop_ones vs' else vs
  | [] => []
  end.

(** [t.view(d0, d1, ...)] on any tensor: the size is inferred as above,
    and the strides must allow it. *)
Definition view_strided (t : strided) (spec : list (option nat))
  : result tensor :=
  sh <- infer_size spec (numel (shape (content t))) ;;
  if can_view (shape (content t)) (strides t) sh
  then Ok (Tensor sh (data (content t)))
  else Raise RuntimeError.

(** [t.squeeze(-1)]: a dropped dimension takes its stride with it. *)
Definition squeeze_last_strided (t : strided) : strided :=
  Strided (squeeze_last (content t))
    (take (length (squeeze_last_shape (shape (content t)))) (strides t)).

(** [t[i]]: the first dimension goes, with its stride. *)
Definition getitem_strided (t : strided) (i : nat) : result strided :=
  x <- getitem (content t) i ;;
  Ok (Strided x (drop 1 (strides t))).

(** [CPCV2.__recover_z_shape].  The tensor viewed last is contiguous,
    made so by [.contiguous()]. *)
Definition __recover_z_shape (Z : strided) (b : nat) : result tensor :=
  let Z := squeeze_last_strided Z in
  n0 <- size (content Z) 0 ;;
  if b =? 0 then Raise ZeroDivisionError else
  let nb_feats := int_sqrt (n0 / b) in
  c <- size (content Z) 1 ;;
  Z <- view_strided Z [Some b; None; Some c] ;;
  Z <- permute021 Z ;;
  view Z [Some b; None; Some nb_feats; Some nb_feats].

End Elem.
Arguments tensor A : clear implicits.
Arguments strided A : clear implicits.
End Layout.
Import Layout.

(** Where a tensor with strides is expected, a tensor given by size and
    elements stands for the contiguous one. *)
Coercion contiguous : tensor >-> strided.
Arguments cons {A}%_type & _ _.


(** ** Values, broadcasting addition and scalars

    Tensor elements are taken in [Q]. *)

Abbreviation value := (tensor Q).

Definition Qsum (qs : list Q) : Q := foldr Qplus 0%Q qs.

Definition scalar (q : Q) : value := Tensor [] [q].

(** [t.item()]: the single element of a one-element tensor *)
Definition item (t : value) : result Q :=
  match data t with
  | [q] => Ok q
  | _ => Raise ValueError
  end.

Definition zeros (sh : list nat) : value := Tensor sh (replicate (numel sh) 0%Q).

(** Broadcast of two sizes, both given last dimension first. *)
Fixpoint broadcast_shapes (ra rb : list nat) : result (list nat) :=
  match ra, rb with
  | [], r => Ok r
  | r, [] => Ok r
  | x :: ra', y :: rb' =>
      rest <- broadcast_shapes ra' rb' ;;
      if x =? y then Ok (x :: rest)
      else if x =? 1 then Ok (y :: rest)
      else if y =? 1 then Ok (x :: rest)
      else Raise RuntimeError
  end.

(** Position in an operand of size [rs] of entry [k] of the broadcast
    result of size [ro] (sizes last dimension first). *)
Fixpoint broadcast_src (ro rs : list nat) (k : nat) : nat :=
  match ro, rs with
  | d :: ro', s :: rs' =>
      (if s =? 1 then 0 else k mod d) + s * broadcast_src ro' rs' (k / d)
  | _, _ => 0
  end.

(** The gradient [g] of a broadcast result of size [ro], summed back to
    an operand of size [rs] (sizes last dimension first). *)
Definition sum_to (rs ro : list nat) (g : list Q) : list Q :=
  (fun k =>
     Qsum ((fun j => nth j g 0%Q)
             <$> filter (fun j => broadcast_src ro rs j = k) (seq 0 (numel ro))))
  <$> seq 0 (numel rs).

(** [a + b] on tensors, [add] being the sum of two elements *)
Definition broadcast_add (add : Q → Q → Q) (a b : value) : result value :=
  ro <- broadcast_shapes (reverse (shape a)) (reverse (shape b)) ;;
  Ok (Tensor (reverse ro)
        ((fun k =>
            add (nth (broadcast_src ro (reverse (shape a)) k) (data a) 0%Q)
                (nth (broadcast_src ro (reverse (shape b)) k) (data b) 0%Q))
           <$> seq 0 (numel ro))).

(** ** Autograd bookkeeping

    A tensor produced while gradients are enabled from an input that
    requires them remembers the function that made it, the values saved
    for the backward pass and the nodes of its inputs; any other tensor
    has no [grad_fn].  A parameter is a leaf, named by the sub-module
    owning it and its position there. *)

Inductive owner := OwnEncoder | OwnInfoNCE | OwnProbe.

#[global] Instance owner_eq_dec : EqDecision owner.
Proof. solve_decision. Defined.

#[global] Instance owner_countable : Countable owner.
Proof.
  refine (inj_countable'
            (fun o => match o with OwnEncoder => 0 | OwnInfoNCE => 1 | OwnProbe => 2 end)
            (fun n => match n with 0 => OwnEncoder | 1 => OwnInfoNCE | _ => OwnProbe end) _).
  intros []; reflexivity.
Defined.

Definition param : Type := owner * nat.

Inductive fn_name :=
| FnAdd | FnGetItem | FnRecoverZ | FnReshape
| FnEncoder (output : nat) | FnInfoNCE | FnEvaluator | FnCrossEntropy.

Inductive node :=
| NoGrad
| Leaf (p : param)
| Fn (f : fn_name) (saved : list value) (inputs : list node).

Record ttensor := TT { tval : value; tnode : node }.

Definition requires_grad (n : node) : bool :=
  match n with NoGrad => false | _ => true end.

Definition parameters (o : owner) (n : nat) : list node :=
  map (fun i => Leaf (o, i)) (seq 0 n).

(** The result of a differentiable function: recorded on the graph only
    in grad mode and when some input requires a gradient. *)
Definition apply_fn (grad_mode : bool) (f : fn_name) (saved : list value)
    (inputs : list node) (v : value) : ttensor :=
  TT v (if grad_mode && existsb requires_grad inputs
        then Fn f saved inputs else NoGrad).

(** [t.detach()] *)
Definition detach (t : ttensor) : ttensor := TT (tval t) NoGrad.

(** Gradient accumulation into [p.grad] ([None] before the first one) *)
Definition accumulate (p : param) (g : value) (grads : gmap param value)
  : gmap param value :=
  match grads !! p with
  | None => <[p := g]> grads
  | Some g0 =>
      <[p := Tensor (shape g0) (zip_with Qplus (data g0) (data g))]> grads
  end.

(** ** Python objects found in a batch *)

Inductive pyobj :=
| PyTensor (t : strided Q)
| PyTuple (items : list pyobj).

(** [o[i]] *)
Definition py_getitem (o : pyobj) (i : nat) : result pyobj :=
  match o with
  | PyTuple items =>
      match items !! i with Some x => Ok x | None => Raise IndexError end
  | PyTensor t => x <- getitem_strided t i ;; Ok (PyTensor x)
  end.

(** [a, b = o] *)
Definition py_unpack2 (o : pyobj) : result (pyobj * pyobj) :=
  match o with
  | PyTuple [a; b] => Ok (a, b)
  | PyTuple _ => Raise ValueError
  | PyTensor t =>
      match shape (content t) with
      | [] => Raise TypeError
      | 2 :: _ =>
          a <- getitem_strided t 0 ;; b <- getitem_strided t 1 ;;
          Ok (PyTensor a, PyTensor b)
      | _ => Raise ValueError
      end
  end.

(** ** Set membership, as [set.__contains__] does it

    An unhashable key raises [TypeError]; when that key is itself a set,
    the lookup is retried with the equal frozenset. *)

Inductive pykey :=
| KStr (s : string)
| KModule (repr : string)
| KSet (elems : gset string)
| KFrozenSet (elems : gset string).

Definition set_contains_key (so : gset string) (key : pykey) : result bool :=
  match key with
  | KStr s => Ok (bool_decide (s ∈ so))
  | KModule _ => Ok false
  | KFrozenSet _ => Ok false
  | KSet _ => Raise TypeError
  end.

Definition set_contains (so : gset string) (key : pykey) : result bool :=
  match set_contains_key so key with
  | Raise TypeError =>
      match key with
      | KSet elems => set_contains_key so (KFrozenSet elems)
      | _ => Raise TypeError
      end
  | r => r
  end.

(** ** State threaded through the module's methods

    The ambient grad mode ([torch.is_grad_enabled()]) and the
    chronological record of what the module asked of its collaborators:
    encoder calls, checkpoint loads and warnings. *)

Inductive event :=
| EvEncoder (input : value) (grad_mode : bool)
| EvLoadPretrained (name : string)
| EvWarn (msg : string).

Record state := State { grad_enabled : bool; events : list event }.

(** The encoder calls among recorded events, oldest first *)
Definition encoder_calls (evs : list event) : list (value * bool) :=
  omap (fun e => match e with EvEncoder x g => Some (x, g) | _ => None end) evs.

Definition M (X : Type) : Type := state → result X * state.

#[global] Instance M_monad : Monad M := {|
  ret _ x := fun s => (Ok x, s);
  bind _ _ m f := fun s =>
    match m s with
    | (Ok x, s') => f x s'
    | (Raise e, s') => (Raise e, s')
    end
|}.

Definition raise {X} (e : exn) : M X := fun s => (Raise e, s).
Definition lift {X} (r : result X) : M X := fun s => (r, s).
Definition emit (e : event) : M unit :=
  fun s => (Ok tt, State (grad_enabled s) (events s ++ [e])).
Definition is_grad_enabled : M bool := fun s => (Ok (grad_enabled s), s).

(** The value a run produced, or the exception it raised *)
Definition value_of (r : result ttensor * state) : result value :=
  match r.1 with
  | Ok z => Ok (tval z)
  | Raise e => Raise e
  end.

(** [with torch.no_grad(): body]: grad mode is switched off for the body
    and put back on exit, also when the body raises. *)
Definition no_grad {X} (body : M X) : M X :=
  fun s =>
    let '(r, s') := body (State false (events s)) in
    (r, State (grad_enabled s) (events s')).

(** ** Collaborators

    An encoder is a module whose call returns a tensor or a sequence of
    tensors, in whatever memory layout it chooses; what it returns is
    taken to depend on the content of its input.  [enc_nparams] counts
    the parameters its call records on the graph: those that require a
    gradient and take part in the computation.  Frozen or unused
    parameters never enter a graph and are not counted. *)

Inductive enc_out :=
| OutTensor (t : strided Q)
| OutList (ts : list (strided Q)).

Record encoder := Encoder {
  enc_fwd : value → result enc_out;
  enc_nparams : nat;
  enc_repr : string
}.

(** The [encoder] argument: a name or a module instance *)
Inductive encoder_arg :=
| EncName (name : string)
| EncModule (e : encoder).

Record datamodule := DataModule { dm_name : string; num_classes : nat }.

(** [CPCTask(num_input_channels, target_dim, embed_scale)] *)
Record cpc_task := CPCTask {
  num_input_channels : nat;
  target_dim : nat;
  embed_scale : Q
}.

(** [SSLEvaluator(n_input, n_classes, p, n_hidden)] *)
Record ssl_evaluator := SSLEvaluator {
  n_input : nat;
  n_classes : nat;
  p_dropout : Q;
  n_hidden : nat
}.

(** What the module imports from the rest of the library and from torch:
    only their interface is used here. *)
Class Collaborators := {
  cpc_task_forward : cpc_task → value → result value;
  cpc_task_nparams : cpc_task → nat;
  evaluator_forward : ssl_evaluator → value → result value;
  evaluator_nparams : ssl_evaluator → nat;
  cross_entropy : value → value → result value;
  accuracy : value → value → result value;
  (** the sum of two elements, as torch computes it in the tensors'
      floating-point format *)
  float_add : Q → Q → Q;
  CPCResNet101 : value → result encoder;
  torchvision_ssl_encoder : string → bool → result encoder;
  CIFAR10DataModule : string → nat → datamodule;
  (** gradient of a function's output with respect to its [i]-th input,
      applied to the incoming gradient *)
  vjp : fn_name → list value → nat → value → value
}.

(** ** The module *)

Record hparams := HParams {
  hp_encoder : encoder_arg;
  hp_patch_size : nat;
  hp_patch_overlap : nat;
  hp_online_ft : bool;
  hp_num_workers : nat;
  hp_data_dir : string;
  hp_amdim_task : bool;
  hp_pretrained : option string;
  (** [hparams.dataset] exists only when given among the keyword
      arguments or set from [pretrained] *)
  hp_dataset : option string
}.

Record CPCV2 := Model {
  hparams_ : hparams;
  online_evaluator : bool;
  datamodule_ : datamodule;
  encoder_ : encoder;
  info_nce : cpc_task;
  non_linear_evaluator : option ssl_evaluator
}.

(** A tracked encoder output, each tensor with its strides *)
Inductive enc_tracked :=
| ETensor (t : ttensor) (st : list nat)
| EList (ts : list (ttensor * list nat)).

Section Methods.
Context `{Collaborators}.

(** [self.hparams.encoder != 'cpc_encoder'] *)
Definition not_cpc_encoder (hp : hparams) : bool :=
  match hp_encoder hp with
  | EncName name => negb (String.eqb name "cpc_encoder")
  | EncModule _ => true
  end.

(** [self.hparams.dataset == 'stl10'] *)
Definition dataset_is_stl10 (hp : hparams) : M bool :=
  match hp_dataset hp with
  | None => raise AttributeError
  | Some d => ret (String.eqb d "stl10")
  end.

(** [self.encoder(x)] on an input that carries no gradient *)
Definition call_encoder (enc : encoder) (x : value) : M enc_tracked :=
  g <- is_grad_enabled ;;
  _ <- emit (EvEncoder x g) ;;
  out <- lift (enc_fwd enc x) ;;
  let inputs := NoGrad :: parameters OwnEncoder (enc_nparams enc) in
  match out with
  | OutTensor v =>
      ret (ETensor (apply_fn g (FnEncoder 0) [x] inputs (content v)) (strides v))
  | OutList vs =>
      ret (EList (imap (fun i v => (apply_fn g (FnEncoder i) [x] inputs (content v),
                                    strides v)) vs))
  end.

(** [Z = Z[0]] *)
Definition first_output (Z : enc_tracked) : M enc_tracked :=
  match Z with
  | EList ts =>
      match ts !! 0 with
      | Some (t, st) => ret (ETensor t st)
      | None => raise IndexError
      end
  | ETensor t st =>
      g <- is_grad_enabled ;;
      v <- lift (getitem_strided (Strided (tval t) st) 0) ;;
      ret (ETensor (apply_fn g FnGetItem [tval t] [tnode t] (content v))
             (strides v))
  end.

(** [self.__recover_z_shape(Z, b)] on what the encoder returned: a list
    has no [squeeze]. *)
Definition recover_tracked (Z : enc_tracked) (b : nat) : M ttensor :=
  match Z with
  | EList _ => raise AttributeError
  | ETensor t st =>
      g <- is_grad_enabled ;;
      v <- lift (__recover_z_shape (Strided (tval t) st) b) ;;
      ret (apply_fn g FnRecoverZ [tval t] [tnode t] v)
  end.

(** [CPCV2.forward] *)
Definition forward (hp : hparams) (enc : encoder) (img_1 : pyobj) : M ttensor :=
  match img_1 with
  | PyTuple _ => raise AttributeError
  | PyTensor x =>
      match shape (content x) with
      | [b; p; c; w; h] =>
          x <- lift (view_strided x [None; Some c; Some w; Some h]) ;;
          Z <- call_encoder enc x ;;
          Z <- (if not_cpc_encoder hp then first_output Z else ret Z) ;;
          recover_tracked Z b
      | _ => raise ValueError
      end
  end.

(** [CPCV2.__compute_final_nb_c] *)
Definition __compute_final_nb_c (hp : hparams) (enc : encoder)
    (patch_size : nat) : M (nat * nat) :=
  let dummy_batch := zeros [2 * 49; 3; patch_size; patch_size] in
  dummy_batch <- call_encoder enc dummy_batch ;;
  dummy_batch <- (if not_cpc_encoder hp then first_output dummy_batch
                 else ret dummy_batch) ;;
  dummy_batch <- recover_tracked dummy_batch 2 ;;
  match shape (tval dummy_batch) with
  | [b; c; h; w] => ret (c, h)
  | _ => raise ValueError
  end.

(** [CPCV2.init_encoder], for an [encoder] argument that is a name;
    a module instance is kept as it is. *)
Definition init_encoder (hp : hparams) : result encoder :=
  let dummy_batch := zeros [2; 3; hp_patch_size hp; hp_patch_size hp] in
  match hp_encoder hp with
  | EncName encoder_name =>
      if String.eqb encoder_name "cpc_encoder"
      then CPCResNet101 dummy_batch
      else torchvision_ssl_encoder encoder_name (hp_amdim_task hp)
  | EncModule e => Ok e
  end.

Definition key_of_encoder (encoder : encoder_arg) : pykey :=
  match encoder with
  | EncName name => KStr name
  | EncModule e => KModule (enc_repr e)
  end.

Definition str_of_key (k : pykey) : string :=
  match k with
  | KStr s => s
  | KModule repr => repr
  | KSet _ | KFrozenSet _ => "{...}"
  end.

(** [CPCV2.load_pretrained] *)
Definition load_pretrained (encoder : pykey) : M unit :=
  let available_weights : gset string := {["resnet18"]} in
  found <- lift (set_contains available_weights encoder) ;;
  if found then emit (EvLoadPretrained (String.append "CPCV2-" (str_of_key encoder)))
  else
    inside <- lift (set_contains available_weights (KSet available_weights)) ;;
    if negb inside
    then emit (EvWarn (String.append (str_of_key encoder) " not yet available"))
    else ret tt.

(** Truth value of the [pretrained] argument *)
Definition truthy (o : option string) : bool :=
  match o with
  | Some s => negb (String.eqb s "")
  | None => false
  end.

(** The hyper-parameters [__init__] saves: its arguments, with
    [dataset] overwritten by a truthy [pretrained]. *)
Definition init_hparams (encoder : encoder_arg)
    (patch_size patch_overlap : nat) (online_ft : bool)
    (num_workers : nat) (data_dir : string) (amdim_task : bool)
    (pretrained : option string) (kwargs_dataset : option string) : hparams :=
  HParams encoder patch_size patch_overlap online_ft num_workers
    data_dir amdim_task pretrained
    (if truthy pretrained then pretrained else kwargs_dataset).

(** [CPCV2.__init__] *)
Definition __init__ (datamodule : option datamodule) (encoder : encoder_arg)
    (patch_size patch_overlap : nat) (online_ft : bool)
    (num_workers : nat) (data_dir : string) (amdim_task : bool)
    (pretrained : option string) (kwargs_dataset : option string) : M CPCV2 :=
  let hp := init_hparams encoder patch_size patch_overlap online_ft
              num_workers data_dir amdim_task pretrained kwargs_dataset in
  let online_evaluator := if truthy pretrained then true else hp_online_ft hp in
  let datamodule :=
    match datamodule with
    | None => CIFAR10DataModule (hp_data_dir hp) (hp_num_workers hp)
    | Some dm => dm
    end in
  enc <- lift (init_encoder hp) ;;
  '(c, h) <- __compute_final_nb_c hp enc (hp_patch_size hp) ;;
  let info_nce := CPCTask c 64 (1 # 10) in
  let non_linear_evaluator :=
    if online_evaluator
    then Some (SSLEvaluator (c * h * h) (num_classes datamodule) (2 # 10) 1024)
    else None in
  _ <- (if truthy pretrained then load_pretrained (key_of_encoder encoder)
       else ret tt) ;;
  ret (Model hp online_evaluator datamodule enc info_nce non_linear_evaluator).

(** [self.info_nce(Z)] *)
Definition call_info_nce (task : cpc_task) (Z : ttensor) : M ttensor :=
  g <- is_grad_enabled ;;
  v <- lift (cpc_task_forward task (tval Z)) ;;
  ret (apply_fn g FnInfoNCE [tval Z]
          (tnode Z :: parameters OwnInfoNCE (cpc_task_nparams task)) v).

(** [self.non_linear_evaluator(z_in)] *)
Definition call_evaluator (self : CPCV2) (z_in : ttensor) : M ttensor :=
  match non_linear_evaluator self with
  | None => raise AttributeError
  | Some ev =>
      g <- is_grad_enabled ;;
      v <- lift (evaluator_forward ev (tval z_in)) ;;
      ret (apply_fn g FnEvaluator [tval z_in]
              (tnode z_in :: parameters OwnProbe (evaluator_nparams ev)) v)
  end.

(** A target taken from the batch: a tensor without gradient *)
Definition as_target (y : pyobj) : M value :=
  match y with
  | PyTensor t => ret (content t)
  | PyTuple _ => raise TypeError
  end.

(** [F.cross_entropy(mlp_preds, y)] *)
Definition call_cross_entropy (mlp_preds : ttensor) (y : pyobj) : M ttensor :=
  y <- as_target y ;;
  g <- is_grad_enabled ;;
  v <- lift (cross_entropy (tval mlp_preds) y) ;;
  ret (apply_fn g FnCrossEntropy [tval mlp_preds; y] [tnode mlp_preds; NoGrad] v).

(** [z.reshape(Z.size(0), -1)] *)
Definition flatten_rows (z_in Z : ttensor) : M ttensor :=
  n <- lift (size (tval Z) 0) ;;
  g <- is_grad_enabled ;;
  v <- lift (view (tval z_in) [Some n; None]) ;;
  ret (apply_fn g FnReshape [tval z_in] [tnode z_in] v).

(** [a + b] on tensors of floating-point numbers *)
Definition tensor_add (a b : value) : result value :=
  broadcast_add float_add a b.

(** [nce_loss + mlp_loss] *)
Definition add_losses (a b : ttensor) : M ttensor :=
  g <- is_grad_enabled ;;
  v <- lift (tensor_add (tval a) (tval b)) ;;
  ret (apply_fn g FnAdd [tval a; tval b] [tnode a; tnode b] v).

(** The batch split at the head of both steps: under ['stl10'] the
    labeled and unlabeled halves, otherwise the batch itself. *)
Definition split_batch (stl10 : bool) (batch : pyobj)
  : M (option pyobj * pyobj) :=
  if stl10 then
    labeled_batch <- lift (py_getitem batch 1) ;;
    unlabeled_batch <- lift (py_getitem batch 0) ;;
    ret (Some labeled_batch, unlabeled_batch)
  else ret (None, batch).

Definition get_labeled (labeled_batch : option pyobj) : M pyobj :=
  match labeled_batch with
  | Some b => ret b
  | None => raise UnboundLocalError
  end.

Record step_result := StepResult {
  loss : ttensor;
  log : gmap string ttensor
}.

(** [CPCV2.training_step] *)
Definition training_step (self : CPCV2) (batch : pyobj) : M step_result :=
  let hp := hparams_ self in
  stl10 <- dataset_is_stl10 hp ;;
  '(labeled_batch, batch) <- split_batch stl10 batch ;;
  '(img_1, y) <- lift (py_unpack2 batch) ;;
  Z <- forward hp (encoder_ self) img_1 ;;
  nce_loss <- call_info_nce (info_nce self) Z ;;
  let loss := nce_loss in
  let log : gmap string ttensor := {["train_nce_loss" := nce_loss]} in
  if online_evaluator self then
    stl10 <- dataset_is_stl10 hp ;;
    '(img_1, y) <- (if stl10
                   then lb <- get_labeled labeled_batch ;; lift (py_unpack2 lb)
                   else ret (img_1, y)) ;;
    Z <- no_grad (forward hp (encoder_ self) img_1) ;;
    let z_in := detach Z in
    z_in <- flatten_rows z_in Z ;;
    mlp_preds <- call_evaluator self z_in ;;
    mlp_loss <- call_cross_entropy mlp_preds y ;;
    loss <- add_losses nce_loss mlp_loss ;;
    ret (StepResult loss (<["train_mlp_loss" := mlp_loss]> log))
  else ret (StepResult loss log).

(** [metrics.accuracy(mlp_preds, y)] *)
Definition call_accuracy (mlp_preds : ttensor) (y : pyobj) : M ttensor :=
  y <- as_target y ;;
  v <- lift (accuracy (tval mlp_preds) y) ;;
  ret (TT v NoGrad).

(** [CPCV2.validation_step] *)
Definition validation_step (self : CPCV2) (batch : pyobj)
  : M (gmap string ttensor) :=
  let hp := hparams_ self in
  stl10 <- dataset_is_stl10 hp ;;
  '(labeled_batch, batch) <- split_batch stl10 batch ;;
  '(img_1, y) <- lift (py_unpack2 batch) ;;
  Z <- forward hp (encoder_ self) img_1 ;;
  nce_loss <- call_info_nce (info_nce self) Z ;;
  let result : gmap string ttensor := {["val_nce" := nce_loss]} in
  if online_evaluator self then
    stl10 <- dataset_is_stl10 hp ;;
    '(y, Z) <- (if stl10
               then lb <- get_labeled labeled_batch ;;
                    '(img_1, y) <- lift (py_unpack2 lb) ;;
                    Z <- forward hp (encoder_ self) img_1 ;;
                    ret (y, Z)
               else ret (y, Z)) ;;
    z_in <- flatten_rows Z Z ;;
    mlp_preds <- call_evaluator self z_in ;;
    mlp_loss <- call_cross_entropy mlp_preds y ;;
    acc <- call_accuracy mlp_preds y ;;
    ret (<["mlp_loss" := mlp_loss]> (<["mlp_acc" := acc]> result))
  else ret result.

(** ** Routing by the dataset flag, in the spec's words

    For comparison with the two steps above.  The flag alone tells the
    two streams of a batch apart: under ['stl10'] the unlabeled pair is
    [batch[0]] and the labeled pair [batch[1]], and under every other
    flag the batch is the one pair of both streams. *)
Definition spec_streams (dataset : string) (batch : pyobj) : result (pyobj * pyobj) :=
  if String.eqb dataset "stl10"
  then labeled <- py_getitem batch 1 ;;
       unlabeled <- py_getitem batch 0 ;;
       Ok (unlabeled, labeled)
  else Ok (batch, batch).

(** The contrastive loss on the images of the unlabeled pair, then, with
    the probe, the probe loss on images and labels of the labeled pair,
    encoded without gradients. *)
Definition spec_training_step (self : CPCV2) (unlabeled labeled : pyobj)
  : M step_result :=
  let hp := hparams_ self in
  '(img_u, _) <- lift (py_unpack2 unlabeled) ;;
  Z <- forward hp (encoder_ self) img_u ;;
  nce_loss <- call_info_nce (info_nce self) Z ;;
  if online_evaluator self then
    '(img_l, y) <- lift (py_unpack2 labeled) ;;
    Z <- no_grad (forward hp (encoder_ self) img_l) ;;
    z_in <- flatten_rows (detach Z) Z ;;
    mlp_preds <- call_evaluator self z_in ;;
    mlp_loss <- call_cross_entropy mlp_preds y ;;
    loss <- add_losses nce_loss mlp_loss ;;
    ret (StepResult loss
           (<["train_mlp_loss" := mlp_loss]> {["train_nce_loss" := nce_loss]}))
  else ret (StepResult nce_loss {["train_nce_loss" := nce_loss]}).

(** The same in validation, where the labeled images are encoded only
    when they are a stream of their own. *)
Definition spec_validation_step (self : CPCV2) (unlabeled labeled : pyobj)
    (own_stream : bool) : M (gmap string ttensor) :=
  let hp := hparams_ self in
  '(img_u, _) <- lift (py_unpack2 unlabeled) ;;
  Z <- forward hp (encoder_ self) img_u ;;
  nce_loss <- call_info_nce (info_nce self) Z ;;
  if online_evaluator self then
    '(img_l, y) <- lift (py_unpack2 labeled) ;;
    Z <- (if own_stream then forward hp (encoder_ self) img_l else ret Z) ;;
    z_in <- flatten_rows Z Z ;;
    mlp_preds <- call_evaluator self z_in ;;
    mlp_loss <- call_cross_entropy mlp_preds y ;;
    acc <- call_accuracy mlp_preds y ;;
    ret (<["mlp_loss" := mlp_loss]>
           (<["mlp_acc" := acc]> ({["val_nce" := nce_loss]} : gmap string ttensor)))
  else ret ({["val_nce" := nce_loss]} : gmap string ttensor).

End Methods.

(** ** Epoch-level aggregation *)

(** The value logged by a step under [key] *)
Definition step_value (key : string) (output : gmap string ttensor) (q : Q) : Prop :=
  ∃ t, output !! key = Some t ∧ item (tval t) = Ok q.

Definition arithmetic_mean (qs : list Q) : Q :=
  (Qsum qs / inject_Z (Z.of_nat (length qs)))%Q.

(** The per-step values found under [key]; a step without that key is a
    [KeyError]. *)
Fixpoint collect (key : string) (outputs : list (gmap string ttensor))
  : result (list Q) :=
  match outputs with
  | [] => Ok []
  | x :: r =>
      match x !! key with
      | None => Raise KeyError
      | Some t => q <- item (tval t) ;; qs <- collect key r ;; Ok (q :: qs)
      end
  end.

(** Modelled from the spec: [pl_bolts.metrics.mean], the mean-reduction
    helper, which is not part of this file.  It reports the arithmetic
    mean of the per-step values found under [key]; nothing is defined for
    an empty epoch, taken here as an error. *)
Definition metrics_mean (outputs : list (gmap string ttensor)) (key : string)
  : result value :=
  qs <- collect key outputs ;;
  match qs with
  | [] => Raise RuntimeError
  | _ => Ok (scalar (arithmetic_mean qs))
  end.

Record epoch_result := EpochResult {
  val_loss : value;
  epoch_log : gmap string value;
  progress_bar : gmap string value
}.

(** [CPCV2.validation_epoch_end] *)
Definition validation_epoch_end (self : CPCV2)
    (outputs : list (gmap string ttensor)) : result epoch_result :=
  val_nce <- metrics_mean outputs "val_nce" ;;
  let log : gmap string value := {["val_nce_loss" := val_nce]} in
  log <- (if online_evaluator self then
            mlp_acc <- metrics_mean outputs "mlp_acc" ;;
            mlp_loss <- metrics_mean outputs "mlp_loss" ;;
            Ok (<["val_mlp_loss" := mlp_loss]> (<["val_mlp_acc" := mlp_acc]> log))
          else Ok log) ;;
  Ok (EpochResult val_nce log log).

(** ** The backward pass

    [t.backward(g)]: the incoming gradient is pushed through the recorded
    functions down to the leaves, where it is accumulated.  The gradient
    of a sum goes unchanged to both summands; every other function has
    the local gradient its collaborator provides. *)

Section Backward.
Context `{Collaborators}.

Definition local_grad (f : fn_name) (saved : list value) (i : nat)
    (g : value) : value :=
  match f with
  | FnAdd =>
      match saved !! i with
      | Some operand =>
          Tensor (shape operand)
            (sum_to (reverse (shape operand)) (reverse (shape g)) (data g))
      | None => g
      end
  | _ => vjp f saved i g
  end.

Fixpoint backward (n : node) (g : value) (grads : gmap param value)
  : gmap param value :=
  match n with
  | NoGrad => grads
  | Leaf p => accumulate p g grads
  | Fn f saved inputs =>
      (fix each (l : list node) (i : nat) (grads : gmap param value) :=
         match l with
         | [] => grads
         | x :: r => each r (S i) (backward x (local_grad f saved i g) grads)
         end) inputs 0 grads
  end.

(** The gradients left on the parameters by [loss.backward()], which
    starts from a gradient of ones; the trainer calls it on scalar
    losses. *)
Definition ones_like (t : value) : value :=
  Tensor (shape t) (replicate (numel (shape t)) 1%Q).

Definition gradients (loss : ttensor) : gmap param value :=
  backward (tnode loss) (ones_like (tval loss)) ∅.

(** Whether every leaf below a node belongs to the sub-module [o] *)
Fixpoint leaves_owned (o : owner) (n : node) : bool :=
  match n with
  | NoGrad => true
  | Leaf p => bool_decide (p.1 = o)
  | Fn _ _ inputs => forallb (leaves_owned o) inputs
  end.

End Backward.

(** Whether the parameter [p] is a leaf below a node *)
Fixpoint has_leaf (p : param) (n : node) : bool :=
  match n with
  | NoGrad => false
  | Leaf q => bool_decide (q = p)
  | Fn _ _ inputs => existsb (has_leaf p) inputs
  end.


(** ** Sample collaborators

    A small concrete setting on which the methods can be run: encoders
    that return the first pixel of each patch as a one-channel feature
    vector, as a tensor or as a one-element list; losses that sum their
    input. *)

Module Sample.

(** the first pixel of every patch *)
Definition pixels (x : value) : value :=
  match shape x with
  | n :: r => Tensor [n; 1; 1; 1] (gather (fun k => k * numel r) n (data x))
  | [] => Tensor [1; 1; 1; 1] (data x)
  end.

Definition tensor_encoder : encoder :=
  Encoder (fun x => Ok (OutTensor (pixels x))) 1 "TensorEncoder()".

Definition list_encoder : encoder :=
  Encoder (fun x => Ok (OutList [pixels x])) 1 "ListEncoder()".

(** an encoder given as a module that returns a single tensor, of two
    channels: the first pixel of every patch, twice *)
Definition two_channel_encoder : encoder :=
  Encoder (fun x =>
             Ok (OutTensor
                   (Tensor [default 0 (head (shape x)); 2; 1; 1]
                      (flat_map (fun q => [q; q]) (data (pixels x))))))
    1 "TwoChannelEncoder()".

(** an encoder whose call raises *)
Definition broken_encoder : encoder :=
  Encoder (fun _ => Raise RuntimeError) 0 "BrokenEncoder()".

Definition collaborators : Collaborators := {|
  cpc_task_forward _ z := Ok (scalar (Qsum (data z)));
  cpc_task_nparams _ := 1;
  evaluator_forward _ z := Ok z;
  evaluator_nparams _ := 2;
  cross_entropy preds _ := Ok (scalar (Qsum (data preds)));
  accuracy _ _ := Ok (scalar 1);
  float_add := Qplus;
  CPCResNet101 _ := Ok tensor_encoder;
  torchvision_ssl_encoder _ _ := Ok list_encoder;
  CIFAR10DataModule _ _ := DataModule "cifar10" 10;
  vjp _ _ _ g := g
|}.

Definition hp (encoder : encoder_arg) (dataset : option string) : hparams :=
  HParams encoder 1 0 true 0 "" false None dataset.

(** a model on the CPC encoder, with or without the online probe *)
Definition model (online : bool) (dataset : option string) : CPCV2 :=
  Model (hp (EncName "cpc_encoder") dataset) online (DataModule "cifar10" 10)
    tensor_encoder (CPCTask 1 64 (1 # 10))
    (if online then Some (SSLEvaluator 4 10 (2 # 10) 1024) else None).

(** one image of 2 x 2 single-pixel patches, and a label *)
Definition img (a b c d : Z) : pyobj :=
  PyTensor (Tensor [1; 4; 1; 1; 1]
              [inject_Z a; inject_Z b; inject_Z c; inject_Z d]).
Definition label : pyobj := PyTensor (Tensor [1] [0%Q]).

Definition st0 : state := State true [].

(** what a validation step with the probe leaves behind *)
Definition val_step (nce acc mlp : Q) : gmap string ttensor :=
  <["mlp_loss" := TT (scalar mlp) NoGrad]>
    (<["mlp_acc" := TT (scalar acc) NoGrad]>
       {["val_nce" := TT (scalar nce) NoGrad]}).

Definition val_outputs : list (gmap string ttensor) :=
  [val_step 2 1 4; val_step 4 0 6]%Q.

End Sample.
(** * Properties *)

(** ** Arithmetic of row-major positions *)

Lemma div_mul_add (m q r : nat) : r < m → (q * m + r) / m = q.
Proof.
  intros Hr. symmetry. apply (Nat.div_unique _ _ _ r); lia.
Qed.

Lemma mod_mul_add (m q r : nat) : r < m → (q * m + r) mod m = r.
Proof.
  intros Hr. symmetry. apply (Nat.mod_unique _ _ q); lia.
Qed.

Section LayoutFacts.
Context {A : Type}.
Implicit Types (t : tensor A) (l : list A).

Lemma gather_length (src : nat → nat) n l :
  l ≠ [] → length (gather src n l) = n.
Proof.
  destruct l as [|d l]; [done|]. intros _. unfold gather.
  by rewrite length_fmap, length_seq.
Qed.

Lemma gather_lookup (src : nat → nat) n l k :
  k < n → src k < length l → gather src n l !! k = l !! src k.
Proof.
  intros Hk Hs. destruct l as [|d l]; [simpl in Hs; lia|].
  unfold gather. rewrite list_lookup_fmap, lookup_seq_lt by done.
  destruct (lookup_lt_is_Some_2 (d :: l) (src k) Hs) as [x Hx].
  rewrite Hx, Nat.add_0_l. cbn [fmap option_fmap option_map].
  by rewrite nth_lookup, Hx.
Qed.

Lemma infer_size_3 (a q c n : nat) :
  0 < a → 0 < c → n = a * q * c →
  infer_size [Some a; None; Some c] n = Ok [a; q; c].
Proof.
  intros Ha Hc ->.
  assert (Hpos : 0 < a * (c * 1)) by nia.
  change (infer_size [Some a; None; Some c] (a * q * c))
    with (if (0 <? a * (c * 1)) && ((a * q * c) mod (a * (c * 1)) =? 0)
          then Ok [a; (a * q * c) / (a * (c * 1)); c]
          else Raise RuntimeError).
  replace (a * q * c) with (q * (a * (c * 1))) by lia.
  rewrite Nat.Div0.mod_mul, Nat.div_mul by lia.
  destruct (Nat.ltb_spec 0 (a * (c * 1))); [done | lia].
Qed.

Lemma infer_size_4 (a x y n : nat) :
  infer_size [Some a; None; Some x; Some y] n
  = if (0 <? a * (x * (y * 1))) && (n mod (a * (x * (y * 1))) =? 0)
    then Ok [a; n / (a * (x * (y * 1))); x; y]
    else Raise RuntimeError.
Proof. reflexivity. Qed.

Lemma offset_cons (d i : nat) (sh idx : list nat) :
  i < d →
  offset (d :: sh) (i :: idx)
  = (o ← offset sh idx; Some (i * numel sh + o)).
Proof.
  intros Hi. change (offset (d :: sh) (i :: idx))
    with (if i <? d then o ← offset sh idx; Some (i * numel sh + o) else None).
  destruct (Nat.ltb_spec i d); [done | lia].
Qed.

Lemma offset_4 (d0 d1 d2 d3 i0 i1 i2 i3 : nat) :
  i0 < d0 → i1 < d1 → i2 < d2 → i3 < d3 →
  offset [d0; d1; d2; d3] [i0; i1; i2; i3]
  = Some (((i0 * d1 + i1) * d2 + i2) * d3 + i3).
Proof.
  intros H0 H1 H2 H3. rewrite !offset_cons by done.
  cbn. f_equal. ring.
Qed.

Lemma permute021_src_spec (P Cz b c p : nat) :
  c < Cz → p < P →
  permute021_src P Cz ((b * Cz + c) * P + p) = (b * P + p) * Cz + c.
Proof.
  intros Hc Hp. unfold permute021_src.
  rewrite (mod_mul_add P (b * Cz + c) p Hp).
  rewrite (div_mul_add P (b * Cz + c) p Hp).
  rewrite (mod_mul_add Cz b c Hc).
  replace ((b * Cz + c) * P + p) with (b * (Cz * P) + (c * P + p)) by ring.
  rewrite div_mul_add by nia. ring.
Qed.

Lemma split_position (n d k : nat) :
  k < n * d → ∃ q r, k = q * d + r ∧ r < d ∧ q < n.
Proof.
  intros Hk. assert (d ≠ 0) by nia.
  exists (k / d), (k mod d). split; [|split].
  - rewrite (Nat.div_mod_eq k d) at 1. lia.
  - by apply Nat.mod_upper_bound.
  - apply Nat.Div0.div_lt_upper_bound. lia.
Qed.

Lemma position_4 (d0 d1 d2 d3 k : nat) :
  k < d0 * d1 * d2 * d3 →
  ∃ i0 i1 i2 i3, i0 < d0 ∧ i1 < d1 ∧ i2 < d2 ∧ i3 < d3
    ∧ k = ((i0 * d1 + i1) * d2 + i2) * d3 + i3.
Proof.
  intros Hk.
  destruct (split_position _ _ _ Hk) as (q3 & i3 & -> & H3 & Hq3).
  destruct (split_position _ _ _ Hq3) as (q2 & i2 & -> & H2 & Hq2).
  destruct (split_position _ _ _ Hq2) as (i0 & i1 & -> & H1 & H0).
  by exists i0, i1, i2, i3.
Qed.

(** Two well-formed tensors of one 4-dimensional size with the same
    entries are the same tensor. *)
Lemma tensor_ext_4 (d0 d1 d2 d3 : nat) t u :
  shape t = [d0; d1; d2; d3] → shape u = [d0; d1; d2; d3] → wf t → wf u →
  (∀ i0 i1 i2 i3, i0 < d0 → i1 < d1 → i2 < d2 → i3 < d3 →
     get t [i0; i1; i2; i3] = get u [i0; i1; i2; i3]) →
  t = u.
Proof.
  destruct t as [sht dt], u as [shu du]. cbn [shape].
  intros -> -> Ht Hu Hget. f_equal.
  unfold wf in Ht, Hu. cbn [shape data numel foldr] in Ht, Hu.
  apply list_eq. intros k.
  destruct (decide (k < d0 * d1 * d2 * d3)) as [Hk|Hk].
  - destruct (position_4 _ _ _ _ _ Hk) as (i0 & i1 & i2 & i3 & ? & ? & ? & ? & ->).
    specialize (Hget i0 i1 i2 i3). unfold get in Hget. cbn [shape data] in Hget.
    rewrite offset_4 in Hget by done. by apply Hget.
  - rewrite !lookup_ge_None_2; [done | nia | nia].
Qed.

(** ** Views and strides *)

Lemma take_view_all (tn vn : nat) (vs : list nat) :
  1 ≤ tn → vn * numel vs = tn → take_view tn vn vs = (tn, []).
Proof.
  intros Htn. revert vn. induction vs as [|v vs IH]; intros vn Hp.
  - cbn in *. f_equal. lia.
  - cbn [numel foldr] in Hp. fold (numel vs) in Hp. cbn [take_view].
    destruct (Nat.ltb_spec vn tn) as [Hlt|Hge]; cbn [orb].
    + apply IH. lia.
    + destruct (Nat.eqb_spec v 1) as [->|Hv].
      * apply IH. lia.
      * exfalso. assert (v * numel vs = 1) by nia.
        apply Nat.eq_mul_1 in H as [? _]. done.
Qed.

Lemma view_chunks_canonical (old : list (nat * nat)) (tn : nat) (vs : list nat) :
  old ≠ [] → canonical tn old →
  1 ≤ tn * numel old.*1 →
  numel vs = tn * numel old.*1 →
  view_chunks old 1 tn 1 vs = true.
Proof.
  revert tn. induction old as [|[d s] rest IH]; intros tn Hne Hc Hpos Hvs; [done|].
  cbn [fmap list_fmap fst numel foldr] in Hpos, Hvs. fold (numel rest.*1) in Hpos, Hvs.
  destruct Hc as [-> Hc]. cbn [view_chunks].
  destruct rest as [|[d' s'] rest].
  - cbn [fmap list_fmap numel foldr] in Hpos, Hvs.
    rewrite (take_view_all (tn * d) 1 vs) by lia.
    by rewrite Nat.eqb_refl.
  - destruct Hc as [Hs' Hc'].
    rewrite Hs', Nat.mul_1_r, Nat.eqb_refl, andb_false_r.
    apply IH; [done | by split | lia | lia].
Qed.

Lemma contiguous_strides_length (sh : list nat) :
  length (contiguous_strides sh) = length sh.
Proof. induction sh; cbn; congruence. Qed.

Lemma canonical_app (tn : nat) (l1 l2 : list (nat * nat)) :
  canonical tn (l1 ++ l2)%list ↔ canonical tn l1 ∧ canonical (tn * numel l1.*1) l2.
Proof.
  revert tn. induction l1 as [|[d s] l1 IH]; intros tn.
  - cbn. rewrite Nat.mul_1_r. tauto.
  - cbn [app canonical fmap list_fmap fst numel foldr]. fold (numel l1.*1).
    rewrite IH, Nat.mul_assoc. tauto.
Qed.

Lemma numel_app (l1 l2 : list nat) : numel (l1 ++ l2)%list = numel l1 * numel l2.
Proof.
  unfold numel. induction l1 as [|d l1 IH]; cbn [app foldr]; [lia|].
  rewrite IH. lia.
Qed.

Lemma numel_reverse (l : list nat) : numel (reverse l) = numel l.
Proof.
  induction l as [|d l IH]; [done|].
  rewrite reverse_cons, numel_app, IH. unfold numel. cbn [foldr]. lia.
Qed.

Lemma numel_pos (sh : list nat) :
  numel sh ≠ 0 → foldr (fun d acc => Nat.max d 1 * acc) 1 sh = numel sh.
Proof.
  unfold numel. induction sh as [|d sh IH]; [done|]. cbn [foldr].
  intros Hn. rewrite IH by (intros E; rewrite E in Hn; lia).
  destruct d; [lia|]. by rewrite Nat.max_l by lia.
Qed.

Lemma canonical_contiguous (sh : list nat) :
  numel sh ≠ 0 →
  canonical 1 (reverse (zip sh (contiguous_strides sh)))
  ∧ (reverse (zip sh (contiguous_strides sh))).*1 = reverse sh.
Proof.
  induction sh as [|d sh IH]; [done|]. cbn [numel foldr]. fold (numel sh).
  intros Hn. assert (Hsh : numel sh ≠ 0) by (intros E; rewrite E in Hn; lia).
  destruct (IH Hsh) as [IH1 IH2].
  cbn [contiguous_strides zip zip_with]. rewrite reverse_cons. split.
  - apply canonical_app. split; [done|]. cbn [canonical]. split; [|done].
    fold (zip sh (contiguous_strides sh)).
    rewrite IH2, numel_reverse, (numel_pos _ Hsh). lia.
  - rewrite fmap_app. fold (zip sh (contiguous_strides sh)).
    by rewrite IH2, reverse_cons.
Qed.

Lemma can_view_contiguous (sh new : list nat) :
  numel new = numel sh → can_view sh (contiguous_strides sh) new = true.
Proof.
  intros Hn. unfold can_view. destruct sh as [|d sh]; [done|].
  destruct (Nat.eqb_spec (numel (d :: sh)) 0) as [|Hpos]; [done|].
  destruct (canonical_contiguous (d :: sh) Hpos) as [Hc Hfst].
  assert (Hlast : default 0 (last (contiguous_strides (d :: sh))) = 1).
  { clear. revert d. induction sh as [|e sh IH]; intros d; [done|].
    cbn [contiguous_strides] in *. rewrite last_cons.
    specialize (IH e). destruct (last _); [exact IH|done]. }
  rewrite Hlast. apply view_chunks_canonical.
  - cbn [contiguous_strides zip zip_with]. rewrite reverse_cons.
    intros E. apply app_eq_nil in E as [_ E]. discriminate.
  - exact Hc.
  - rewrite Hfst, numel_reverse. lia.
  - rewrite Hfst, !numel_reverse. lia.
Qed.

Lemma known_prod_numel (spec : list (option nat)) (q : nat) :
  numel (map (default q) spec) = known_prod spec * q ^ count_infer spec.
Proof.
  unfold numel, known_prod, count_infer.
  induction spec as [|[d|] spec IH]; cbn [map foldr default].
  - reflexivity.
  - rewrite IH. unfold id. lia.
  - rewrite IH. cbn [Nat.pow]. lia.
Qed.

Lemma infer_size_numel (spec : list (option nat)) (n : nat) (sh : list nat) :
  infer_size spec n = Ok sh → numel sh = n.
Proof.
  unfold infer_size.
  destruct (count_infer spec) as [|[|k]] eqn:Hc; [| |discriminate].
  - destruct (Nat.eqb_spec n (known_prod spec)) as [->|]; [|discriminate].
    intros [= <-]. rewrite known_prod_numel, Hc. cbn. lia.
  - destruct (Nat.ltb_spec 0 (known_prod spec)); [|discriminate]. cbn [andb].
    destruct (Nat.eqb_spec (n mod known_prod spec) 0) as [Hm|]; [|discriminate].
    intros [= <-]. rewrite known_prod_numel, Hc. cbn [Nat.pow].
    rewrite Nat.mul_1_r. symmetry. rewrite (Nat.div_mod_eq n (known_prod spec)) at 1.
    lia.
Qed.

Lemma view_strided_contiguous (t : tensor A) (spec : list (option nat)) :
  view_strided (contiguous t) spec = view t spec.
Proof.
  unfold view_strided, view. cbn [contiguous content strides].
  destruct (infer_size spec (numel (shape t))) as [sh|e] eqn:Hs; [|done].
  cbn [bind result_monad].
  by rewrite can_view_contiguous by (by apply infer_size_numel in Hs).
Qed.

Lemma squeeze_last_shape_take (sh : list nat) :
  squeeze_last_shape sh = take (length (squeeze_last_shape sh)) sh.
Proof.
  induction sh as [|d sh IH]; [done|]. cbn [squeeze_last_shape].
  destruct sh as [|e sh].
  - by destruct (d =? 1).
  - cbn [length take]. f_equal. exact IH.
Qed.

Lemma stride_of_squeeze (r : list nat) :
  foldr (fun d acc => Nat.max d 1 * acc) 1 (squeeze_last_shape r)
  = foldr (fun d acc => Nat.max d 1 * acc) 1 r.
Proof.
  induction r as [|e r IH]; [done|]. cbn [squeeze_last_shape].
  destruct r as [|f r].
  - destruct (Nat.eqb_spec e 1) as [->|]; [reflexivity | done].
  - cbn [foldr] in *. by rewrite IH.
Qed.

Lemma contiguous_strides_squeeze (sh : list nat) :
  take (length (squeeze_last_shape sh)) (contiguous_strides sh)
  = contiguous_strides (squeeze_last_shape sh).
Proof.
  induction sh as [|d sh IH]; [done|]. cbn [squeeze_last_shape].
  destruct sh as [|e sh].
  - by destruct (d =? 1).
  - cbn [length contiguous_strides take]. cbn [contiguous_strides] in IH.
    rewrite IH. f_equal. symmetry. apply (stride_of_squeeze (e :: sh)).
Qed.

Lemma squeeze_last_contiguous (t : tensor A) :
  squeeze_last_strided (contiguous t) = contiguous (squeeze_last t).
Proof.
  unfold squeeze_last_strided, contiguous. cbn [content strides shape squeeze_last].
  by rewrite contiguous_strides_squeeze.
Qed.

Lemma take_view_filled (tn : nat) (R : list nat) :
  take_view tn tn R = (tn, drop_ones R).
Proof.
  induction R as [|r R IH]; [done|]. cbn [take_view drop_ones].
  rewrite Nat.ltb_irrefl. cbn [orb].
  destruct (Nat.eqb_spec r 1) as [->|]; [|done]. by rewrite Nat.mul_1_r.
Qed.

Lemma take_view_group (tn vn : nat) (G R : list nat) :
  1 ≤ tn → vn * numel G = tn →
  take_view tn vn (G ++ R)%list = (tn, drop_ones R).
Proof.
  intros Htn. revert vn. induction G as [|v G IH]; intros vn Hp.
  - unfold numel in Hp. cbn in Hp. rewrite Nat.mul_1_r in Hp. subst vn.
    apply take_view_filled.
  - unfold numel in Hp. cbn [foldr] in Hp. fold (numel G) in Hp.
    cbn [app take_view].
    destruct (Nat.ltb_spec vn tn) as [Hlt|Hge]; cbn [orb].
    + apply IH. lia.
    + destruct (Nat.eqb_spec v 1) as [->|Hv].
      * apply IH. lia.
      * exfalso. assert (H : v * numel G = 1) by nia.
        apply Nat.eq_mul_1 in H as [? _]. done.
Qed.

Lemma grouped_drop_ones (ds vs : list nat) :
  grouped ds vs → grouped ds (drop_ones vs).
Proof.
  revert vs. induction ds as [|d ds IH]; intros vs.
  - cbn. by intros ->.
  - cbn [grouped]. intros (g & rest & -> & Hg & Hrest). revert d Hg.
    induction g as [|v g IHg]; intros d Hg.
    + exists [], (drop_ones rest). split; [done|]. split; [done|]. by apply IH.
    + cbn [app drop_ones]. destruct (Nat.eqb_spec v 1) as [->|Hv].
      * apply IHg. unfold numel in *. cbn [foldr] in Hg. lia.
      * by exists (v :: g), rest.
Qed.

Lemma view_chunks_grouped (old : list (nat * nat)) (cb tn : nat) (g0 vs : list nat) :
  old ≠ [] → Forall (fun d => 1 ≤ d) old.*1 → 1 ≤ tn →
  numel g0 = tn → grouped old.*1 vs →
  view_chunks old cb tn 1 (g0 ++ vs)%list = true.
Proof.
  revert cb tn g0 vs.
  induction old as [|[d s] rest IH]; intros cb tn g0 vs Hne Hpos Htn Hg0 Hgr; [done|].
  cbn [fmap list_fmap fst] in Hpos, Hgr. fold (rest.*1) in Hpos, Hgr.
  apply Forall_cons in Hpos as [Hd Hposr].
  destruct Hgr as (g & vs' & -> & Hg & Hgr).
  assert (Hfull : numel (g0 ++ g)%list = tn * d) by (by rewrite numel_app, Hg0, Hg).
  assert (Hend : (let '(vn, vs) := take_view (tn * d) 1 (g0 ++ g ++ vs')%list in
                  if vn =? tn * d
                  then match rest with
                       | [] => view_chunks rest cb (tn * d) vn vs
                       | (_, s') :: _ => view_chunks rest s' 1 1 vs
                       end
                  else false) = true).
  { rewrite (assoc_L app), (take_view_group (tn * d) 1 (g0 ++ g)%list vs')
      by (nia || lia).
    rewrite Nat.eqb_refl. destruct rest as [|[d' s'] rest].
    - cbn in Hgr. by subst vs'.
    - apply (IH s' 1 [] (drop_ones vs')); [done | done | lia | done |].
      by apply grouped_drop_ones. }
  cbn [view_chunks]. destruct rest as [|[d' s'] rest]; [exact Hend|].
  destruct (negb (d' =? 1) && negb (s' =? tn * d * cb)); [exact Hend|].
  rewrite (assoc_L app). apply IH; [done | done | nia | done | done].
Qed.

Lemma can_view_split (sh st new : list nat) :
  numel sh ≠ 0 → length st = length sh →
  grouped (reverse sh) (reverse new) →
  can_view sh st new = true.
Proof.
  intros Hn Hlen Hgr. unfold can_view. destruct sh as [|d sh]; [done|].
  destruct (Nat.eqb_spec (numel (d :: sh)) 0) as [|_]; [done|].
  assert (Hfst : (reverse (zip (d :: sh) st)).*1 = reverse (d :: sh)).
  { rewrite fmap_reverse. f_equal. apply fst_zip. lia. }
  apply (view_chunks_grouped _ _ 1 []); [| |lia|done|by rewrite Hfst].
  - destruct st as [|s st]; [done|]. cbn [zip zip_with]. rewrite reverse_cons.
    intros E. apply app_eq_nil in E as [_ E]. discriminate.
  - rewrite Hfst. apply Forall_reverse, Forall_forall. intros x Hx.
    destruct x; [|lia]. exfalso. apply Hn. clear -Hx.
    induction (d :: sh) as [|e l IH]; [by apply elem_of_nil in Hx|].
    unfold numel. cbn [foldr]. apply elem_of_cons in Hx as [<-|Hx]; [done|].
    fold (numel l). rewrite IH by done. lia.
Qed.

Lemma can_view_patch_vectors (b P Cz s0 s1 s2 : nat) :
  1 ≤ b → 1 ≤ P → 1 ≤ Cz →
  can_view [b * P; Cz; 1] [s0; s1; s2] [b; P; Cz] = true.
Proof.
  intros Hb HP HC. apply can_view_split; [unfold numel; cbn; nia | done |].
  change (reverse [b * P; Cz; 1]) with [1; Cz; b * P].
  change (reverse [b; P; Cz]) with [Cz; P; b].
  exists [], [Cz; P; b]. split; [done|]. split; [done|].
  exists [Cz], [P; b]. split; [done|]. split; [unfold numel; cbn; lia|].
  exists [P; b], []. split; [done|]. split; [unfold numel; cbn; lia|]. done.
Qed.

(** On a contiguous tensor the strides never stand in the way: the call
    is the chain of its logical operations. *)
Lemma recover_z_shape_contiguous (Z : tensor A) (b : nat) :
  __recover_z_shape Z b
  = (n0 <- size (squeeze_last Z) 0 ;;
     if b =? 0 then Raise ZeroDivisionError else
     c <- size (squeeze_last Z) 1 ;;
     Z1 <- view (squeeze_last Z) [Some b; None; Some c] ;;
     Z2 <- permute021 Z1 ;;
     view Z2 [Some b; None; Some (int_sqrt (n0 / b)); Some (int_sqrt (n0 / b))]).
Proof.
  unfold __recover_z_shape. rewrite squeeze_last_contiguous.
  cbn [contiguous content].
  destruct (size (squeeze_last Z) 0) as [n0|e]; [|done]. cbn [bind result_monad].
  destruct (b =? 0); [done|].
  destruct (size (squeeze_last Z) 1) as [c|e]; [|done]. cbn [bind result_monad].
  by rewrite <- view_strided_contiguous.
Qed.

(** What [__recover_z_shape] does to per-patch vectors: after the
    squeeze, the first view and the transposition, only the last view
    is left to succeed or fail. *)
Lemma recover_z_shape_run (B P Cz : nat) (d : list A) :
  1 ≤ B → 1 ≤ Cz →
  __recover_z_shape (Tensor [B * P; Cz; 1; 1] d) B
  = view (Tensor [B; Cz; P] (gather (permute021_src P Cz) (B * (Cz * P)) d))
      [Some B; None; Some (Nat.sqrt P); Some (Nat.sqrt P)].
Proof.
  intros HB HC. rewrite recover_z_shape_contiguous.
  change (squeeze_last (Tensor [B * P; Cz; 1; 1] d)) with (Tensor [B * P; Cz; 1] d).
  change (size (Tensor [B * P; Cz; 1] d) 0) with (Ok (B * P)).
  change (size (Tensor [B * P; Cz; 1] d) 1) with (Ok Cz).
  cbn [bind result_monad].
  destruct (Nat.eqb_spec B 0); [lia|].
  unfold view at 1. cbn [shape numel foldr].
  rewrite (infer_size_3 B P Cz) by lia.
  cbn [bind result_monad]. unfold permute021. cbn [shape data bind result_monad].
  unfold int_sqrt. rewrite (Nat.mul_comm B P), Nat.div_mul by lia.
  reflexivity.
Qed.

Lemma recover_z_shape_square (B s Cz : nat) (d : list A) :
  1 ≤ B → 1 ≤ Cz → 1 ≤ s →
  __recover_z_shape (Tensor [B * (s * s); Cz; 1; 1] d) B
  = Ok (Tensor [B; Cz; s; s]
          (gather (permute021_src (s * s) Cz) (B * (Cz * (s * s))) d)).
Proof.
  intros HB HC Hs. rewrite recover_z_shape_run by done.
  rewrite Nat.sqrt_square. unfold view. cbn [shape data numel foldr].
  rewrite infer_size_4.
  replace (B * (Cz * (s * s * 1))) with (Cz * (B * (s * (s * 1)))) by ring.
  rewrite Nat.Div0.mod_mul, Nat.div_mul by nia.
  destruct (Nat.ltb_spec 0 (B * (s * (s * 1)))); [done | nia].
Qed.

End LayoutFacts.

(** C1. Grid reassembly round trip: for a batch size [B >= 1], a channel
    count [Cz >= 1] and a patch count [s * s] with [s >= 1], on a flat
    input of size [(B * s * s, Cz, 1, 1)], [__recover_z_shape] returns a
    well-formed tensor of size [(B, Cz, s, s)] whose entry [(b, c, i, j)] is
    the channel-[c] component of flat entry [b * (s * s) + i * s + j]; hence
    if the input is the flattening of a grid in that order, the result is
    that grid. *)
Theorem recover_z_shape_round_trip {A : Type} (B Cz s : nat) (d : list A) :
  1 ≤ B → 1 ≤ Cz → 1 ≤ s →
  length d = B * (s * s) * Cz →
  let Z := Tensor [B * (s * s); Cz; 1; 1] d in
  ∃ out, __recover_z_shape Z B = Ok out
    ∧ shape out = [B; Cz; s; s]
    ∧ wf out
    ∧ (∀ b c i j, b < B → c < Cz → i < s → j < s →
         is_Some (get out [b; c; i; j])
         ∧ get out [b; c; i; j] = get Z [b * (s * s) + i * s + j; c; 0; 0])
    ∧ (∀ G, shape G = [B; Cz; s; s] → wf G →
         (∀ b c i j, b < B → c < Cz → i < s → j < s →
            get Z [b * (s * s) + i * s + j; c; 0; 0] = get G [b; c; i; j]) →
         out = G).
Proof.
  intros HB HC Hs Hlen Z.
  assert (Hd : d ≠ []) by (intros ->; simpl in Hlen; nia).
  assert (Hwf : wf (Tensor [B; Cz; s; s]
                      (gather (permute021_src (s * s) Cz) (B * (Cz * (s * s))) d))).
  { unfold wf. cbn [shape data numel foldr]. rewrite gather_length by done. ring. }
  assert (Hpt : ∀ b c i j, b < B → c < Cz → i < s → j < s →
    get (Tensor [B; Cz; s; s]
           (gather (permute021_src (s * s) Cz) (B * (Cz * (s * s))) d)) [b; c; i; j]
    = d !! ((b * (s * s) + i * s + j) * Cz + c)
    ∧ get Z [b * (s * s) + i * s + j; c; 0; 0]
      = d !! ((b * (s * s) + i * s + j) * Cz + c)
    ∧ (b * (s * s) + i * s + j) * Cz + c < length d).
  { intros b c i j Hb Hc Hi Hj.
    assert (Hp : i * s + j < s * s) by nia.
    assert (Hn : b * (s * s) + i * s + j < B * (s * s)) by nia.
    assert (Hlt : (b * (s * s) + i * s + j) * Cz + c < length d) by nia.
    unfold get, Z. cbn [shape data]. rewrite !offset_4 by (done || lia).
    cbn [mbind option_bind].
    replace (((b * Cz + c) * s + i) * s + j)
      with ((b * Cz + c) * (s * s) + (i * s + j)) by ring.
    rewrite gather_lookup.
    - rewrite permute021_src_spec by done.
      replace (b * (s * s) + (i * s + j)) with (b * (s * s) + i * s + j) by ring.
      split; [done|]. split; [|done]. f_equal. ring.
    - nia.
    - rewrite permute021_src_spec by done. nia. }
  eexists. split; [by apply recover_z_shape_square|].
  split; [done|]. split; [done|]. split.
  - intros b c i j Hb Hc Hi Hj.
    destruct (Hpt b c i j Hb Hc Hi Hj) as (Ho & Hz & Hlt).
    rewrite Ho, Hz. split; [by apply lookup_lt_is_Some_2 | done].
  - intros G HG HwfG Hflat. apply (tensor_ext_4 B Cz s s); try done.
    intros b c i j Hb Hc Hi Hj.
    destruct (Hpt b c i j Hb Hc Hi Hj) as (Ho & Hz & _).
    rewrite <- Hflat by done. by rewrite Ho, Hz.
Qed.

Lemma recover_z_shape_round_trip_witness :
  (1 ≤ 2 ∧ 1 ≤ 3 ∧ 1 ≤ 2 ∧ length (seq 0 24) = 2 * (2 * 2) * 3)
  ∧ ∃ out, __recover_z_shape (Tensor [2 * (2 * 2); 3; 1; 1] (seq 0 24)) 2 = Ok out
      ∧ shape out = [2; 3; 2; 2]
      ∧ get out [1; 2; 0; 1] = get (Tensor [8; 3; 1; 1] (seq 0 24)) [5; 2; 0; 0].
Proof.
  assert (H1 : 1 ≤ 2) by (repeat constructor).
  assert (H2 : 1 ≤ 3) by (repeat constructor).
  split; [repeat split; assumption || reflexivity|].
  destruct (recover_z_shape_round_trip 2 3 2 (seq 0 24) H1 H2 H1 eq_refl)
    as (out & Hrun & Hsh & _ & Hget & _).
  exists out. split; [exact Hrun|]. split; [exact Hsh|].
  apply (Hget 1 2 0 1); repeat constructor.
Defined.

(** On a patch count that is not a perfect square the call may well
    return: 8 patches of one channel come back as a 2 x 2 grid of two
    channels. *)
Lemma recover_z_shape_non_square_returns :
  (∀ s, 8 ≠ s * s)
  ∧ __recover_z_shape (Tensor [1 * 8; 1; 1; 1] (seq 0 8)) 1
    = Ok (Tensor [1; 2; 2; 2] (seq 0 8))
  ∧ ∀ e, __recover_z_shape (Tensor [1 * 8; 1; 1; 1] (seq 0 8)) 1 ≠ Raise e.
Proof.
  split; [|split; [reflexivity | discriminate]].
  intros s Hs. destruct s as [|[|[|s]]]; simpl in Hs; lia.
Qed.

(** C2, amended. Shape of the reassembled grid: for [B, Cz, P >= 1] and
    [n = floor (sqrt P)], the call on a flat input of size
    [(B * P, Cz, 1, 1)] returns a tensor of size [(B, Cz, n, n)] when
    [P = n * n]; in general it fails with a shape error exactly when
    [n * n] does not divide [Cz * P], and otherwise returns a tensor of
    size [(B, Cz * P / (n * n), n, n)] that holds all [B * P * Cz] input
    values. *)
Theorem recover_z_shape_shape {A : Type} (B P Cz : nat) (d : list A) :
  1 ≤ B → 1 ≤ Cz → 1 ≤ P →
  length d = B * P * Cz →
  let Z := Tensor [B * P; Cz; 1; 1] d in
  let n := Nat.sqrt P in
  (P = n * n →
     ∃ out, __recover_z_shape Z B = Ok out ∧ shape out = [B; Cz; n; n])
  ∧ ((Cz * P) mod (n * n) = 0 →
     ∃ out, __recover_z_shape Z B = Ok out
       ∧ shape out = [B; Cz * P / (n * n); n; n]
       ∧ length (data out) = B * P * Cz)
  ∧ ((Cz * P) mod (n * n) ≠ 0 → __recover_z_shape Z B = Raise RuntimeError).
Proof.
  intros HB HC HP Hlen Z n.
  assert (Hn : 1 ≤ n).
  { unfold n. rewrite <- Nat.sqrt_1. by apply Nat.sqrt_le_mono. }
  assert (Hd : d ≠ []) by (intros ->; simpl in Hlen; nia).
  assert (Hrun : __recover_z_shape Z B
    = if (Cz * P) mod (n * n) =? 0
      then Ok (Tensor [B; Cz * P / (n * n); n; n]
                 (gather (permute021_src P Cz) (B * (Cz * P)) d))
      else Raise RuntimeError).
  { unfold Z. rewrite recover_z_shape_run by done. fold n.
    unfold view. cbn [shape data numel foldr]. rewrite infer_size_4.
    rewrite !Nat.mul_1_r.
    rewrite Nat.Div0.mul_mod_distr_l, Nat.Div0.div_mul_cancel_l by lia.
    destruct (Nat.ltb_spec 0 (B * (n * n))); [|nia]. cbn [andb].
    destruct (Nat.eqb_spec ((Cz * P) mod (n * n)) 0) as [E|E].
    - rewrite E, Nat.mul_0_r. reflexivity.
    - destruct (Nat.eqb_spec (B * ((Cz * P) mod (n * n))) 0); [nia | done]. }
  assert (Hdiv : (Cz * P) mod (n * n) = 0 →
     ∃ out, __recover_z_shape Z B = Ok out
       ∧ shape out = [B; Cz * P / (n * n); n; n]
       ∧ length (data out) = B * P * Cz).
  { intros E. rewrite Hrun, E. eexists. split; [reflexivity|].
    split; [reflexivity|]. cbn [data]. rewrite gather_length by done. ring. }
  split; [|split].
  - intros HPn. destruct Hdiv as (out & Ho & Hs & _).
    { rewrite HPn at 1. apply Nat.Div0.mod_mul. }
    exists out. split; [done|]. rewrite Hs. do 2 f_equal.
    rewrite HPn at 1. apply Nat.div_mul. nia.
  - exact Hdiv.
  - intros E. rewrite Hrun.
    destruct (Nat.eqb_spec ((Cz * P) mod (n * n)) 0); [done | reflexivity].
Qed.

Lemma recover_z_shape_shape_witness :
  (1 ≤ 2 ∧ 1 ≤ 3 ∧ 1 ≤ 8 ∧ length (seq 0 48) = 2 * 8 * 3)
  ∧ ∃ out, __recover_z_shape (Tensor [2 * 8; 3; 1; 1] (seq 0 48)) 2 = Ok out
      ∧ shape out = [2; 6; 2; 2]
      ∧ length (data out) = 48.
Proof.
  assert (H1 : 1 ≤ 2) by (repeat constructor).
  assert (H2 : 1 ≤ 3) by (repeat constructor).
  assert (H3 : 1 ≤ 8) by (repeat constructor).
  split; [repeat split; assumption || reflexivity|].
  destruct (recover_z_shape_shape 2 8 3 (seq 0 48) H1 H2 H3 eq_refl)
    as (_ & Hdiv & _).
  exact (Hdiv eq_refl).
Defined.

(** ** Runs of stateful computations *)

Lemma bind_run {X Y} (m : M X) (f : X → M Y) (st : state) :
  bind m f st
  = match m st with
    | (Ok x, st1) => f x st1
    | (Raise e, st1) => (Raise e, st1)
    end.
Proof. reflexivity. Qed.

Lemma bind_ok {X Y} (m : M X) (f : X → M Y) (st st1 : state) (x : X) :
  m st = (Ok x, st1) → bind m f st = f x st1.
Proof. intros E. by rewrite bind_run, E. Qed.

Lemma bind_ok_inv {X Y} (m : M X) (f : X → M Y) (st st' : state) (y : Y) :
  bind m f st = (Ok y, st') →
  ∃ x st1, m st = (Ok x, st1) ∧ f x st1 = (Ok y, st').
Proof.
  rewrite bind_run. destruct (m st) as [[x|e] st1]; [eauto | discriminate].
Qed.

Lemma lift_ok_inv {X} (r : result X) (st st' : state) (x : X) :
  lift r st = (Ok x, st') → r = Ok x ∧ st' = st.
Proof. unfold lift. intros [= -> ->]. done. Qed.

Lemma ret_ok_inv {X} (x y : X) (st st' : state) :
  (ret x : M X) st = (Ok y, st') → y = x ∧ st' = st.
Proof. cbn. intros [= -> ->]. done. Qed.

Lemma encoder_calls_app (l1 l2 : list event) :
  encoder_calls (l1 ++ l2) = (encoder_calls l1 ++ encoder_calls l2)%list.
Proof. apply omap_app. Qed.

(** ** [load_pretrained] *)

Lemma set_contains_itself (so : gset string) :
  set_contains so (KSet so) = Ok false.
Proof. reflexivity. Qed.

Lemma set_contains_str (so : gset string) (name : string) :
  set_contains so (KStr name) = Ok (bool_decide (name ∈ so)).
Proof. reflexivity. Qed.

(** The guard of the fallback branch does not raise: for a name without
    weights the warning is emitted. *)
Lemma load_pretrained_resnet50_warns :
  set_contains {["resnet18"]} (KSet {["resnet18"]}) = Ok false
  ∧ ("resnet50" ∉ ({["resnet18"]} : gset string))
  ∧ load_pretrained (KStr "resnet50") (State true [])
    = (Ok tt, State true [EvWarn "resnet50 not yet available"])
  ∧ fst (load_pretrained (KStr "resnet50") (State true [])) ≠ Raise TypeError.
Proof.
  split; [reflexivity|]. split; [set_solver|]. split; [reflexivity|].
  discriminate.
Qed.

Lemma load_pretrained_run (arg : encoder_arg) (st : state) :
  load_pretrained (key_of_encoder arg) st
  = (Ok tt,
     State (grad_enabled st)
       (events st ++
        [match arg with
         | EncName name =>
             if String.eqb name "resnet18"
             then EvLoadPretrained "CPCV2-resnet18"
             else EvWarn (String.append name " not yet available")
         | EncModule e => EvWarn (String.append (enc_repr e) " not yet available")
         end])).
Proof.
  destruct arg as [name|e]; unfold load_pretrained; cbn [key_of_encoder].
  - rewrite set_contains_str, set_contains_itself.
    destruct (String.eqb_spec name "resnet18") as [->|Hne].
    + reflexivity.
    + rewrite bool_decide_eq_false_2 by set_solver. reflexivity.
  - reflexivity.
Qed.

(** C10, amended. [load_pretrained] never raises on a name or a module:
    the fallback guard, the membership of the set of available weights in
    itself, evaluates to false without a [TypeError]; the checkpoint
    ['CPCV2-resnet18'] is loaded for the name ['resnet18'] and for nothing
    else, and for every other name, and for every module instance, the
    warning that the encoder is not yet available is emitted. *)
Theorem load_pretrained_outcome (arg : encoder_arg) (st : state) :
  set_contains {["resnet18"]} (KSet {["resnet18"]}) = Ok false
  ∧ load_pretrained (key_of_encoder arg) st
    = (Ok tt,
       State (grad_enabled st)
         (events st ++
          [match arg with
           | EncName name =>
               if String.eqb name "resnet18"
               then EvLoadPretrained "CPCV2-resnet18"
               else EvWarn (String.append name " not yet available")
           | EncModule e =>
               EvWarn (String.append (enc_repr e) " not yet available")
           end])).
Proof. split; [reflexivity | apply load_pretrained_run]. Qed.

(** ** [forward] and the two forms of encoder output *)

Lemma strided_eta {A} (v : strided A) : Strided (content v) (strides v) = v.
Proof. by destruct v. Qed.

Lemma call_encoder_run (enc : encoder) (x : value) (st : state) :
  call_encoder enc x st
  = let g := grad_enabled st in
    let st1 := State g (events st ++ [EvEncoder x g]) in
    let inputs := NoGrad :: parameters OwnEncoder (enc_nparams enc) in
    match enc_fwd enc x with
    | Ok (OutTensor v) =>
        (Ok (ETensor (apply_fn g (FnEncoder 0) [x] inputs (content v)) (strides v)),
         st1)
    | Ok (OutList vs) =>
        (Ok (EList (imap (fun i v => (apply_fn g (FnEncoder i) [x] inputs (content v),
                                      strides v)) vs)), st1)
    | Raise e => (Raise e, st1)
    end.
Proof.
  unfold call_encoder. rewrite !bind_run. cbn [is_grad_enabled emit lift].
  rewrite bind_run. cbn [lift grad_enabled events].
  destruct (enc_fwd enc x) as [[v|vs]|e]; reflexivity.
Qed.

Lemma recover_tracked_run (t : ttensor) (str : list nat) (b : nat) (st : state) :
  recover_tracked (ETensor t str) b st
  = match __recover_z_shape (Strided (tval t) str) b with
    | Ok v => (Ok (apply_fn (grad_enabled st) FnRecoverZ [tval t] [tnode t] v), st)
    | Raise e => (Raise e, st)
    end.
Proof.
  unfold recover_tracked. rewrite !bind_run. cbn [is_grad_enabled lift].
  rewrite bind_run. cbn [lift]. by destruct (__recover_z_shape _ b).
Qed.

Lemma first_output_list (t : ttensor) (str : list nat)
    (rest : list (ttensor * list nat)) (st : state) :
  first_output (EList ((t, str) :: rest)) st = (Ok (ETensor t str), st).
Proof. reflexivity. Qed.

Lemma first_output_tensor (t : ttensor) (str : list nat) (st : state) :
  first_output (ETensor t str) st
  = match getitem_strided (Strided (tval t) str) 0 with
    | Ok v => (Ok (ETensor (apply_fn (grad_enabled st) FnGetItem [tval t] [tnode t]
                              (content v)) (strides v)), st)
    | Raise e => (Raise e, st)
    end.
Proof.
  unfold first_output. rewrite !bind_run. cbn [is_grad_enabled lift].
  rewrite bind_run. cbn [lift]. by destruct (getitem_strided _ 0).
Qed.

(** [forward] once the patches are on the batch dimension *)
Lemma forward_run (hp : hparams) (enc : encoder) (t : strided Q)
    (b p c w h : nat) (st : state) :
  shape (content t) = [b; p; c; w; h] →
  forward hp enc (PyTensor t) st
  = match view_strided t [None; Some c; Some w; Some h] with
    | Ok x =>
        (Z <- call_encoder enc x ;;
         Z <- (if not_cpc_encoder hp then first_output Z else ret Z) ;;
         recover_tracked Z b) st
    | Raise e => (Raise e, st)
    end.
Proof.
  intros Hsh. unfold forward. rewrite Hsh, bind_run. unfold lift at 1.
  by destruct (view_strided t _).
Qed.

(** An encoder given as a module instance and returning a single tensor
    is indexed all the same.  Such a model can be constructed, here on
    an encoder with two channels, and of the four patch vectors only
    the first reaches its grid, where the same encoder under the name
    ['cpc_encoder'] gives the 2 x 2 grid. *)
Lemma forward_module_single_tensor_differs :
  ∃ m st',
    @__init__ Sample.collaborators None (EncModule Sample.two_channel_encoder)
      1 0 false 0 "" false None None Sample.st0 = (Ok m, st')
    ∧ encoder_ m = Sample.two_channel_encoder
    ∧ not_cpc_encoder (hparams_ m) = true
    ∧ not_cpc_encoder (Sample.hp (EncName "cpc_encoder") None) = false
    ∧ enc_fwd Sample.two_channel_encoder (Tensor [4; 1; 1; 1] [1; 2; 3; 4]%Q)
      = Ok (OutTensor (Tensor [4; 2; 1; 1] [1; 1; 2; 2; 3; 3; 4; 4]%Q))
    ∧ value_of (forward (hparams_ m) (encoder_ m) (Sample.img 1 2 3 4) st')
      = Ok (Tensor [1; 2; 1; 1] [1; 1]%Q)
    ∧ value_of (forward (Sample.hp (EncName "cpc_encoder") None)
                  Sample.two_channel_encoder (Sample.img 1 2 3 4) st')
      = Ok (Tensor [1; 2; 2; 2] [1; 2; 3; 4; 1; 2; 3; 4]%Q).
Proof.
  eexists _, _. split; [vm_compute; reflexivity|].
  repeat split; vm_compute; reflexivity.
Qed.

(** C4, amended. [forward] takes the encoder output as it is exactly when
    the configured encoder is the name ['cpc_encoder'], and its first
    element, [Z[0]], under every other name and for every module
    instance, whatever the form of the output: once the patches are on
    the batch dimension and the encoder has returned, the result is
    [__recover_z_shape] of the output itself under ['cpc_encoder'] (a
    sequence has no [squeeze]), and otherwise of the head of a sequence
    or of the first row of a single tensor.  Hence an encoder returning a
    single tensor under ['cpc_encoder'] and an encoder returning a
    sequence headed by that tensor under any other configuration give
    the same result. *)
Theorem forward_output_forms (hp : hparams) (enc : encoder) (t : strided Q)
    (b p c w h : nat) (x : value) (out : enc_out) (st : state) :
  shape (content t) = [b; p; c; w; h] →
  view_strided t [None; Some c; Some w; Some h] = Ok x →
  enc_fwd enc x = Ok out →
  (not_cpc_encoder hp = false ↔ hp_encoder hp = EncName "cpc_encoder")
  ∧ value_of (forward hp enc (PyTensor t) st)
    = (if not_cpc_encoder hp
       then match out with
            | OutList (v :: _) => __recover_z_shape v b
            | OutList [] => Raise IndexError
            | OutTensor v => v0 <- getitem_strided v 0 ;; __recover_z_shape v0 b
            end
       else match out with
            | OutTensor v => __recover_z_shape v b
            | OutList _ => Raise AttributeError
            end)
  ∧ snd (forward hp enc (PyTensor t) st)
    = State (grad_enabled st) (events st ++ [EvEncoder x (grad_enabled st)])
  ∧ (∀ hp' enc' v rest,
       not_cpc_encoder hp = false → not_cpc_encoder hp' = true →
       out = OutTensor v → enc_fwd enc' x = Ok (OutList (v :: rest)) →
       enc_nparams enc' = enc_nparams enc →
       forward hp' enc' (PyTensor t) st = forward hp enc (PyTensor t) st).
Proof.
  intros Hsh Hview Henc.
  assert (Hrun : ∀ hp0 enc0,
    forward hp0 enc0 (PyTensor t) st
    = (Z <- call_encoder enc0 x ;;
       Z <- (if not_cpc_encoder hp0 then first_output Z else ret Z) ;;
       recover_tracked Z b) st).
  { intros. by rewrite (forward_run _ _ _ _ _ _ _ _ _ Hsh), Hview. }
  split; [|split; [|split]].
  - unfold not_cpc_encoder. destruct (hp_encoder hp) as [name|e].
    + destruct (String.eqb_spec name "cpc_encoder") as [->|Hne]; cbn [negb];
        split; intros E; try done. by injection E.
    + split; discriminate.
  - rewrite Hrun, bind_run, call_encoder_run, Henc. cbv zeta.
    destruct (not_cpc_encoder hp), out as [v|[|v rest]]; cbv beta iota;
      rewrite bind_run.
    + rewrite first_output_tensor. cbn [tval apply_fn]. rewrite strided_eta.
      destruct (getitem_strided v 0) as [v0|e]; [|reflexivity]. cbv beta iota.
      rewrite recover_tracked_run. cbn [tval apply_fn bind result_monad].
      rewrite strided_eta. unfold value_of. by destruct (__recover_z_shape v0 b).
    + reflexivity.
    + cbn [imap]. rewrite first_output_list. cbv beta iota.
      rewrite recover_tracked_run. cbn [tval apply_fn]. rewrite strided_eta.
      unfold value_of. by destruct (__recover_z_shape v b).
    + cbn [ret M_monad]. cbv beta iota.
      rewrite recover_tracked_run. cbn [tval apply_fn]. rewrite strided_eta.
      unfold value_of. by destruct (__recover_z_shape v b).
    + reflexivity.
    + reflexivity.
  - rewrite Hrun, bind_run, call_encoder_run, Henc. cbv zeta.
    destruct (not_cpc_encoder hp), out as [v|[|v rest]]; cbv beta iota;
      rewrite bind_run.
    + rewrite first_output_tensor.
      destruct (getitem_strided _ 0) as [v0|e]; [|reflexivity]. cbv beta iota.
      rewrite recover_tracked_run. by destruct (__recover_z_shape _ b).
    + reflexivity.
    + cbn [imap]. rewrite first_output_list. cbv beta iota.
      rewrite recover_tracked_run. by destruct (__recover_z_shape _ b).
    + cbn [ret M_monad]. cbv beta iota.
      rewrite recover_tracked_run. by destruct (__recover_z_shape _ b).
    + reflexivity.
    + reflexivity.
  - intros hp' enc' v rest H1 H2 -> Henc' Hn.
    rewrite !Hrun, !bind_run, !call_encoder_run, Henc, Henc', H1, H2, Hn.
    cbv zeta beta iota. rewrite !bind_run. cbn [imap].
    rewrite first_output_list. reflexivity.
Qed.

Lemma forward_output_forms_witness :
  (shape (content (contiguous (Tensor [1; 4; 1; 1; 1] [1; 2; 3; 4]%Q))) = [1; 4; 1; 1; 1]
   ∧ view_strided (contiguous (Tensor [1; 4; 1; 1; 1] [1; 2; 3; 4]%Q))
       [None; Some 1; Some 1; Some 1] = Ok (Tensor [4; 1; 1; 1] [1; 2; 3; 4]%Q)
   ∧ enc_fwd Sample.list_encoder (Tensor [4; 1; 1; 1] [1; 2; 3; 4]%Q)
     = Ok (OutList [contiguous (Tensor [4; 1; 1; 1] [1; 2; 3; 4]%Q)]))
  ∧ not_cpc_encoder (Sample.hp (EncName "resnet18") None) = true
  ∧ value_of (forward (Sample.hp (EncName "resnet18") None) Sample.list_encoder
                (PyTensor (Tensor [1; 4; 1; 1; 1] [1; 2; 3; 4]%Q)) Sample.st0)
    = __recover_z_shape (Tensor [4; 1; 1; 1] [1; 2; 3; 4]%Q) 1.
Proof.
  assert (Hv : view_strided (contiguous (Tensor [1; 4; 1; 1; 1] [1; 2; 3; 4]%Q))
       [None; Some 1; Some 1; Some 1] = Ok (Tensor [4; 1; 1; 1] [1; 2; 3; 4]%Q))
    by reflexivity.
  assert (He : enc_fwd Sample.list_encoder (Tensor [4; 1; 1; 1] [1; 2; 3; 4]%Q)
     = Ok (OutList [contiguous (Tensor [4; 1; 1; 1] [1; 2; 3; 4]%Q)]))
    by reflexivity.
  split; [repeat split; assumption || reflexivity|]. split; [reflexivity|].
  exact (proj1 (proj2 (forward_output_forms (Sample.hp (EncName "resnet18") None)
                  Sample.list_encoder
                  (contiguous (Tensor [1; 4; 1; 1; 1] [1; 2; 3; 4]%Q)) 1 4 1 1 1 _ _
                  Sample.st0 eq_refl Hv He))).
Defined.

(** ** The construction-time shape probe *)

(** Per-patch vectors can be viewed whatever their strides. *)
Lemma recover_z_shape_strides {A} (B P Cz : nat) (d : list A) (str : list nat) :
  1 ≤ B → 1 ≤ Cz → length str = 4 →
  __recover_z_shape (Strided (Tensor [B * P; Cz; 1; 1] d) str) B
  = __recover_z_shape (Tensor [B * P; Cz; 1; 1] d) B.
Proof.
  intros HB HC Hlen.
  destruct str as [|s0 [|s1 [|s2 [|s3 [|]]]]]; try discriminate.
  unfold __recover_z_shape, squeeze_last_strided, contiguous.
  cbn [content strides shape squeeze_last squeeze_last_shape Nat.eqb length take
       contiguous_strides].
  change (squeeze_last (Tensor [B * P; Cz; 1; 1] d)) with (Tensor [B * P; Cz; 1] d).
  change (size (Tensor [B * P; Cz; 1] d) 0) with (Ok (B * P)).
  change (size (Tensor [B * P; Cz; 1] d) 1) with (Ok Cz).
  cbn [bind result_monad]. destruct (B =? 0); [done|].
  unfold view_strided. cbn [content strides shape data numel foldr].
  rewrite (infer_size_3 B P Cz) by lia. cbn [bind result_monad].
  assert (Hcan : ∀ st, length st = 3 → can_view [B * P; Cz; 1] st [B; P; Cz] = true).
  { intros st Hst. destruct (decide (P = 0)) as [->|HP].
    - unfold can_view, numel. cbn [foldr]. by rewrite Nat.mul_0_r.
    - destruct st as [|t0 [|t1 [|t2 [|]]]]; try discriminate.
      apply can_view_patch_vectors; lia. }
  by rewrite !Hcan.
Qed.


Section Construction.
Context `{Collaborators}.





End Construction.




(** ** The training and validation steps *)

Lemma forward_inv (hp : hparams) (enc : encoder) (img : pyobj)
    (st st' : state) (Z : ttensor) :
  forward hp enc img st = (Ok Z, st') →
  ∃ t b p c w h x,
    img = PyTensor t
    ∧ shape (content t) = [b; p; c; w; h]
    ∧ view_strided t [None; Some c; Some w; Some h] = Ok x
    ∧ st' = State (grad_enabled st) (events st ++ [EvEncoder x (grad_enabled st)])
    ∧ (grad_enabled st = false → tnode Z = NoGrad).
Proof.
  destruct img as [t|items]; [|discriminate].
  destruct (shape (content t)) as [|b [|p [|c [|w [|h [|]]]]]] eqn:Hsh;
    try (unfold forward; rewrite Hsh; discriminate).
  rewrite (forward_run _ _ _ _ _ _ _ _ _ Hsh).
  destruct (view_strided t [None; Some c; Some w; Some h]) as [x|e] eqn:Hview;
    [|discriminate].
  rewrite bind_run, call_encoder_run. cbv zeta.
  set (g := grad_enabled st).
  set (st1 := State g (events st ++ [EvEncoder x g])).
  assert (Hrec : ∀ (u : ttensor) (str : list nat) (k : state),
    recover_tracked (ETensor u str) b k = (Ok Z, st') →
    k = st' ∧ (grad_enabled k = false → tnode Z = NoGrad)).
  { intros u str k. rewrite recover_tracked_run.
    destruct (__recover_z_shape _ b); [|discriminate].
    intros [= <- <-]. split; [done|]. intros ->. reflexivity. }
  assert (Hgoal : ∀ (u : ttensor) (str : list nat),
    recover_tracked (ETensor u str) b st1 = (Ok Z, st') →
    ∃ t0 b0 p0 c0 w0 h0 x0, PyTensor t = PyTensor t0
      ∧ shape (content t0) = [b0; p0; c0; w0; h0]
      ∧ view_strided t0 [None; Some c0; Some w0; Some h0] = Ok x0
      ∧ st' = State (grad_enabled st) (events st ++ [EvEncoder x0 (grad_enabled st)])
      ∧ (grad_enabled st = false → tnode Z = NoGrad)).
  { intros u str Hu. destruct (Hrec _ _ _ Hu) as [<- Hn].
    exists t, b, p, c, w, h, x. repeat split; done. }
  destruct (enc_fwd enc x) as [[v|vs]|e]; [| |discriminate]; cbv beta iota;
    destruct (not_cpc_encoder hp).
  - rewrite bind_run, first_output_tensor.
    destruct (getitem_strided _ 0); [|discriminate]. cbv beta iota.
    apply Hgoal.
  - rewrite bind_run. cbn [ret M_monad]. cbv beta iota. apply Hgoal.
  - rewrite bind_run. destruct vs as [|u rest]; [discriminate|].
    cbn [imap]. rewrite first_output_list. cbv beta iota. apply Hgoal.
  - rewrite bind_run. cbn [ret M_monad]. cbv beta iota. discriminate.
Qed.

Lemma no_grad_run {X} (body : M X) (st : state) :
  no_grad body st
  = (fst (body (State false (events st))),
     State (grad_enabled st) (events (snd (body (State false (events st)))))).
Proof. unfold no_grad. by destruct (body _). Qed.

Section Steps.
Context `{Collaborators}.

Lemma call_info_nce_run (task : cpc_task) (Z : ttensor) (st : state) :
  call_info_nce task Z st
  = match cpc_task_forward task (tval Z) with
    | Ok v => (Ok (apply_fn (grad_enabled st) FnInfoNCE [tval Z]
                     (tnode Z :: parameters OwnInfoNCE (cpc_task_nparams task)) v),
               st)
    | Raise e => (Raise e, st)
    end.
Proof.
  unfold call_info_nce. rewrite bind_run. cbn [is_grad_enabled].
  rewrite bind_run. cbn [lift]. by destruct (cpc_task_forward task (tval Z)).
Qed.

Lemma call_evaluator_run (self : CPCV2) (z_in : ttensor) (st : state) :
  call_evaluator self z_in st
  = match non_linear_evaluator self with
    | None => (Raise AttributeError, st)
    | Some ev =>
        match evaluator_forward ev (tval z_in) with
        | Ok v => (Ok (apply_fn (grad_enabled st) FnEvaluator [tval z_in]
                         (tnode z_in :: parameters OwnProbe (evaluator_nparams ev)) v),
                   st)
        | Raise e => (Raise e, st)
        end
    end.
Proof.
  unfold call_evaluator. destruct (non_linear_evaluator self) as [ev|]; [|done].
  rewrite bind_run. cbn [is_grad_enabled].
  rewrite bind_run. cbn [lift]. by destruct (evaluator_forward ev (tval z_in)).
Qed.

Lemma call_cross_entropy_run (mlp_preds : ttensor) (y : pyobj) (st : state) :
  call_cross_entropy mlp_preds y st
  = match y with
    | PyTuple _ => (Raise TypeError, st)
    | PyTensor t =>
        match cross_entropy (tval mlp_preds) (content t) with
        | Ok v => (Ok (apply_fn (grad_enabled st) FnCrossEntropy
                         [tval mlp_preds; content t] [tnode mlp_preds; NoGrad] v),
                   st)
        | Raise e => (Raise e, st)
        end
    end.
Proof.
  unfold call_cross_entropy. rewrite bind_run. destruct y as [t|items]; [|done].
  cbn [as_target ret M_monad]. cbv beta iota.
  rewrite bind_run. cbn [is_grad_enabled].
  rewrite bind_run. cbn [lift]. by destruct (cross_entropy (tval mlp_preds) _).
Qed.

Lemma flatten_rows_run (z_in Z : ttensor) (st : state) :
  flatten_rows z_in Z st
  = match size (tval Z) 0 with
    | Raise e => (Raise e, st)
    | Ok n =>
        match view (tval z_in) [Some n; None] with
        | Ok v => (Ok (apply_fn (grad_enabled st) FnReshape [tval z_in]
                         [tnode z_in] v), st)
        | Raise e => (Raise e, st)
        end
    end.
Proof.
  unfold flatten_rows. rewrite bind_run. cbn [lift].
  destruct (size (tval Z) 0) as [n|e]; [|done].
  rewrite bind_run. cbn [is_grad_enabled].
  rewrite bind_run. cbn [lift]. by destruct (view (tval z_in) [Some n; None]).
Qed.

Lemma add_losses_run (a b : ttensor) (st : state) :
  add_losses a b st
  = match tensor_add (tval a) (tval b) with
    | Ok v => (Ok (apply_fn (grad_enabled st) FnAdd [tval a; tval b]
                     [tnode a; tnode b] v), st)
    | Raise e => (Raise e, st)
    end.
Proof.
  unfold add_losses. rewrite bind_run. cbn [is_grad_enabled].
  rewrite bind_run. cbn [lift]. by destruct (tensor_add (tval a) (tval b)).
Qed.

End Steps.

Section StepFacts.
Context `{Collaborators}.

Lemma call_info_nce_state (task : cpc_task) (Z : ttensor) (st st' : state)
    (r : result ttensor) :
  call_info_nce task Z st = (r, st') → st' = st.
Proof.
  rewrite call_info_nce_run. destruct (cpc_task_forward _ _); by intros [= _ <-].
Qed.

Lemma call_evaluator_state (self : CPCV2) (z : ttensor) (st st' : state)
    (r : result ttensor) :
  call_evaluator self z st = (r, st') → st' = st.
Proof.
  rewrite call_evaluator_run. destruct (non_linear_evaluator self);
    [destruct (evaluator_forward _ _)|]; by intros [= _ <-].
Qed.

Lemma call_cross_entropy_state (preds : ttensor) (y : pyobj) (st st' : state)
    (r : result ttensor) :
  call_cross_entropy preds y st = (r, st') → st' = st.
Proof.
  rewrite call_cross_entropy_run. destruct y; [destruct (cross_entropy _ _)|];
    by intros [= _ <-].
Qed.

Lemma flatten_rows_state (z Z : ttensor) (st st' : state) (r : result ttensor) :
  flatten_rows z Z st = (r, st') → st' = st.
Proof.
  rewrite flatten_rows_run. destruct (size _ _); [destruct (view _ _)|];
    by intros [= _ <-].
Qed.

Lemma add_losses_state (a b : ttensor) (st st' : state) (r : result ttensor) :
  add_losses a b st = (r, st') → st' = st.
Proof.
  rewrite add_losses_run. destruct (tensor_add _ _); by intros [= _ <-].
Qed.

Lemma split_batch_inv (stl10 : bool) (batch ub : pyobj) (lab : option pyobj)
    (st st' : state) :
  split_batch stl10 batch st = (Ok (lab, ub), st') →
  st' = st
  ∧ if stl10
    then ∃ lb, lab = Some lb ∧ py_getitem batch 1 = Ok lb
               ∧ py_getitem batch 0 = Ok ub
    else lab = None ∧ ub = batch.
Proof.
  unfold split_batch. destruct stl10.
  - intros Hrun.
    apply bind_ok_inv in Hrun as (lb & s1 & H1 & Hrun).
    apply lift_ok_inv in H1 as [H1 ->].
    apply bind_ok_inv in Hrun as (ub' & s2 & H0 & Hrun).
    apply lift_ok_inv in H0 as [H0 ->].
    apply ret_ok_inv in Hrun as [[= -> ->] ->]. eauto.
  - intros Hrun. apply ret_ok_inv in Hrun as [[= -> ->] ->]. eauto.
Qed.

Lemma training_step_inv (self : CPCV2) (batch : pyobj) (st st' : state)
    (r : step_result) :
  training_step self batch st = (Ok r, st') →
  ∃ d img_c y_c Zc st1 nce,
    hp_dataset (hparams_ self) = Some d
    ∧ (if String.eqb d "stl10"
       then ∃ lb ub, py_getitem batch 1 = Ok lb ∧ py_getitem batch 0 = Ok ub
                     ∧ py_unpack2 ub = Ok (img_c, y_c)
       else py_unpack2 batch = Ok (img_c, y_c))
    ∧ forward (hparams_ self) (encoder_ self) img_c st = (Ok Zc, st1)
    ∧ call_info_nce (info_nce self) Zc st1 = (Ok nce, st1)
    ∧ if online_evaluator self
      then ∃ img_p y_p Zp z_in preds mlp,
          (if String.eqb d "stl10"
           then ∃ lb, py_getitem batch 1 = Ok lb ∧ py_unpack2 lb = Ok (img_p, y_p)
           else (img_p, y_p) = (img_c, y_c))
          ∧ no_grad (forward (hparams_ self) (encoder_ self) img_p) st1 = (Ok Zp, st')
          ∧ flatten_rows (detach Zp) Zp st' = (Ok z_in, st')
          ∧ call_evaluator self z_in st' = (Ok preds, st')
          ∧ call_cross_entropy preds y_p st' = (Ok mlp, st')
          ∧ add_losses nce mlp st' = (Ok (loss r), st')
          ∧ log r = <["train_mlp_loss" := mlp]> {["train_nce_loss" := nce]}
      else r = StepResult nce {["train_nce_loss" := nce]} ∧ st' = st1.
Proof.
  unfold training_step. cbv zeta. intros Hrun.
  apply bind_ok_inv in Hrun as (stl10 & s0 & Hds & Hrun).
  unfold dataset_is_stl10 in Hds.
  destruct (hp_dataset (hparams_ self)) as [d|] eqn:Hd; [|discriminate].
  apply ret_ok_inv in Hds as [-> ->].
  apply bind_ok_inv in Hrun as ([labeled ub] & s1 & Hsplit & Hrun).
  apply bind_ok_inv in Hrun as ([img_c y_c] & s2 & Hunp & Hrun).
  apply lift_ok_inv in Hunp as [Hunp ->].
  apply bind_ok_inv in Hrun as (Zc & st1 & Hfwd & Hrun).
  apply bind_ok_inv in Hrun as (nce & s3 & Hnce & Hrun).
  pose proof (call_info_nce_state _ _ _ _ _ Hnce) as ->.
  apply split_batch_inv in Hsplit as [-> Hsplit].
  exists d, img_c, y_c, Zc, st1, nce. split; [done|].
  split. { destruct (String.eqb d "stl10"); [destruct Hsplit as (lb & _ & ? & ?); eauto
           | by destruct Hsplit as [_ ->]]. }
  split; [done|]. split; [done|].
  destruct (online_evaluator self).
  - apply bind_ok_inv in Hrun as (stl10 & s0 & Hds & Hrun).
    unfold dataset_is_stl10 in Hds. rewrite Hd in Hds.
    apply ret_ok_inv in Hds as [-> ->].
    apply bind_ok_inv in Hrun as ([img_p y_p] & s4 & Hp & Hrun).
    apply bind_ok_inv in Hrun as (Zp & s5 & Hfwd2 & Hrun).
    apply bind_ok_inv in Hrun as (z_in & s6 & Hflat & Hrun).
    pose proof (flatten_rows_state _ _ _ _ _ Hflat) as ->.
    apply bind_ok_inv in Hrun as (preds & s7 & Hev & Hrun).
    pose proof (call_evaluator_state _ _ _ _ _ Hev) as ->.
    apply bind_ok_inv in Hrun as (mlp & s8 & Hce & Hrun).
    pose proof (call_cross_entropy_state _ _ _ _ _ Hce) as ->.
    apply bind_ok_inv in Hrun as (total & s9 & Hadd & Hrun).
    pose proof (add_losses_state _ _ _ _ _ Hadd) as ->.
    apply ret_ok_inv in Hrun as [-> ->].
    assert (Hpst : s4 = st1 ∧
      if String.eqb d "stl10"
      then ∃ lb, py_getitem batch 1 = Ok lb ∧ py_unpack2 lb = Ok (img_p, y_p)
      else (img_p, y_p) = (img_c, y_c)).
    { destruct (String.eqb d "stl10").
      - destruct Hsplit as (lb & -> & Hlb & _).
        apply bind_ok_inv in Hp as (lb' & s & Hg & Hp).
        apply ret_ok_inv in Hg as [-> ->].
        apply lift_ok_inv in Hp as [Hp ->]. eauto.
      - apply ret_ok_inv in Hp as [-> ->]. done. }
    destruct Hpst as [-> Hpst].
    exists img_p, y_p, Zp, z_in, preds, mlp. repeat split; done.
  - apply ret_ok_inv in Hrun as [-> ->]. done.
Qed.
Lemma tensor_add_scalars (a b : Q) :
  tensor_add (scalar a) (scalar b) = Ok (scalar (float_add a b)).
Proof. reflexivity. Qed.

(** C5. The training step's combination contract.  Whenever the step
    returns, the images of the contrastive path are those of the batch
    (of its unlabeled half under ['stl10']), the grid [Z] is what
    [forward] makes of them, and the log holds the contrastive loss
    [info_nce(Z)] under ['train_nce_loss'].  With the probe disabled that
    loss is the returned loss, after one encoder call.  With the probe
    enabled, the images and labels of the probe are those of the batch (of
    its labeled half under ['stl10']), the probe's grid comes from a
    second [forward] run under [no_grad] and carries no gradient, the log
    also holds under ['train_mlp_loss'] the cross-entropy of the evaluator
    on that grid, flattened, against the labels, and the returned loss is
    torch's sum of the two losses. *)
Theorem training_step_combination (self : CPCV2) (batch : pyobj)
    (st st' : state) (r : step_result) :
  training_step self batch st = (Ok r, st') →
  ∃ d img_c y_c Zc st1 nce,
    hp_dataset (hparams_ self) = Some d
    ∧ (if String.eqb d "stl10"
       then ∃ lb ub, py_getitem batch 1 = Ok lb ∧ py_getitem batch 0 = Ok ub
                     ∧ py_unpack2 ub = Ok (img_c, y_c)
       else py_unpack2 batch = Ok (img_c, y_c))
    ∧ forward (hparams_ self) (encoder_ self) img_c st = (Ok Zc, st1)
    ∧ cpc_task_forward (info_nce self) (tval Zc) = Ok (tval nce)
    ∧ log r !! "train_nce_loss" = Some nce
    ∧ grad_enabled st' = grad_enabled st
    ∧ if online_evaluator self
      then ∃ img_p y Zp mlp ev n v_in v_preds,
          (if String.eqb d "stl10"
           then ∃ lb, py_getitem batch 1 = Ok lb
                      ∧ py_unpack2 lb = Ok (img_p, PyTensor y)
           else (img_p, PyTensor y) = (img_c, y_c))
          ∧ no_grad (forward (hparams_ self) (encoder_ self) img_p) st1
            = (Ok Zp, st')
          ∧ tnode Zp = NoGrad
          ∧ non_linear_evaluator self = Some ev
          ∧ size (tval Zp) 0 = Ok n
          ∧ view (tval Zp) [Some n; None] = Ok v_in
          ∧ evaluator_forward ev v_in = Ok v_preds
          ∧ cross_entropy v_preds (content y) = Ok (tval mlp)
          ∧ log r = <["train_mlp_loss" := mlp]> {["train_nce_loss" := nce]}
          ∧ tensor_add (tval nce) (tval mlp) = Ok (tval (loss r))
          ∧ (∀ a b, tval nce = scalar a → tval mlp = scalar b →
               tval (loss r) = scalar (float_add a b))
          ∧ (encoder_calls (events st')).*2
            = ((encoder_calls (events st)).*2 ++ [grad_enabled st; false])%list
      else loss r = nce
           ∧ log r = {["train_nce_loss" := nce]}
           ∧ st' = st1
           ∧ (encoder_calls (events st')).*2
             = ((encoder_calls (events st)).*2 ++ [grad_enabled st])%list.
Proof.
  intros Hrun.
  apply training_step_inv in Hrun
    as (d & img_c & y_c & Zc & st1 & nce & Hd & Hc & Hfwd & Hnce & Hrest).
  pose proof Hfwd as Hfwd'.
  apply forward_inv in Hfwd' as (t & b & p & c & w & h & x_c & _ & _ & _ & Hst1 & _).
  assert (Hval : cpc_task_forward (info_nce self) (tval Zc) = Ok (tval nce)).
  { rewrite call_info_nce_run in Hnce.
    destruct (cpc_task_forward _ _); [|discriminate]. by injection Hnce as <-. }
  exists d, img_c, y_c, Zc, st1, nce.
  split; [done|]. split; [done|]. split; [done|]. split; [done|].
  destruct (online_evaluator self).
  - destruct Hrest as (img_p & y_p & Zp & z_in & preds & mlp & Hp & Hfwd2 & Hflat
                       & Hev & Hce & Hadd & Hlog).
    pose proof Hfwd2 as Hng. rewrite no_grad_run in Hng.
    destruct (forward _ _ img_p _) as [rz sz] eqn:Hf. cbn [fst snd] in Hng.
    injection Hng as -> Hst'.
    apply forward_inv in Hf as (? & ? & ? & ? & ? & ? & x_p & _ & _ & _ & Hsz & Hno).
    specialize (Hno eq_refl). subst sz. cbn [events grad_enabled] in Hst'.
    rewrite add_losses_run in Hadd.
    destruct (tensor_add (tval nce) (tval mlp)) as [v|] eqn:Hsum; [|discriminate].
    injection Hadd as Hloss.
    rewrite flatten_rows_run in Hflat. cbn [detach tval tnode] in Hflat.
    destruct (size (tval Zp) 0) as [n|] eqn:Hn; [|discriminate].
    destruct (view (tval Zp) [Some n; None]) as [v_in|] eqn:Hv; [|discriminate].
    injection Hflat as <-.
    rewrite call_evaluator_run in Hev.
    destruct (non_linear_evaluator self) as [ev|] eqn:Hnle; [|discriminate].
    cbn [tval apply_fn] in Hev.
    destruct (evaluator_forward ev v_in) as [v_preds|] eqn:Hvp; [|discriminate].
    injection Hev as <-.
    rewrite call_cross_entropy_run in Hce. destruct y_p as [y|]; [|discriminate].
    cbn [tval apply_fn] in Hce.
    destruct (cross_entropy v_preds (content y)) as [v_mlp|] eqn:Hvm; [|discriminate].
    assert (Hmv : tval mlp = v_mlp) by (by injection Hce as <-).
    split.
    { rewrite Hlog, lookup_insert_ne by done. apply lookup_singleton_eq. }
    split; [by rewrite <- Hst', Hst1|].
    exists img_p, y, Zp, mlp, ev, n, v_in, v_preds.
    split; [exact Hp|]. split; [exact Hfwd2|]. split; [exact Hno|].
    split; [reflexivity|]. split; [exact Hn|]. split; [exact Hv|].
    split; [exact Hvp|]. split; [by rewrite Hmv|].
    split; [exact Hlog|]. rewrite <- Hloss. cbn [tval apply_fn].
    split; [exact Hsum|]. split.
    { intros qa qb Ha Hb.
      rewrite Ha, Hb, tensor_add_scalars in Hsum. by injection Hsum as <-. }
    rewrite <- Hst', Hst1. cbn [events grad_enabled].
    rewrite !encoder_calls_app, !fmap_app. cbn. by rewrite <- (assoc_L app).
  - destruct Hrest as [-> ->]. split; [apply lookup_singleton_eq|].
    split; [by rewrite Hst1|].
    split; [done|]. split; [done|]. split; [done|].
    rewrite Hst1. cbn [events]. by rewrite encoder_calls_app, fmap_app.
Qed.

End StepFacts.

Lemma training_step_combination_witness :
  ∃ r st',
    @training_step Sample.collaborators (Sample.model true (Some "cifar10"))
      (PyTuple [Sample.img 1 2 3 4; Sample.label]) Sample.st0 = (Ok r, st')
    ∧ ∃ Zc st1 nce,
        forward (hparams_ (Sample.model true (Some "cifar10")))
          (encoder_ (Sample.model true (Some "cifar10"))) (Sample.img 1 2 3 4)
          Sample.st0 = (Ok Zc, st1)
        ∧ @cpc_task_forward Sample.collaborators
            (info_nce (Sample.model true (Some "cifar10"))) (tval Zc) = Ok (tval nce)
        ∧ log r !! "train_nce_loss" = Some nce.
Proof.
  assert (E : ∃ r st',
    @training_step Sample.collaborators (Sample.model true (Some "cifar10"))
      (PyTuple [Sample.img 1 2 3 4; Sample.label]) Sample.st0 = (Ok r, st'))
    by (eexists _, _; vm_compute; reflexivity).
  destruct E as (r & st' & E). exists r, st'. split; [exact E|].
  destruct (@training_step_combination Sample.collaborators _ _ _ _ _ E)
    as (d & img_c & y_c & Zc & st1 & nce & Hd & Hc & Hfwd & Hval & Hlog & _).
  injection Hd as <-. cbn in Hc. injection Hc as <- <-.
  exists Zc, st1, nce. split; [exact Hfwd|]. split; [exact Hval | exact Hlog].
Defined.

Section Routing.
Context `{Collaborators}.

Lemma dataset_is_stl10_run (hp : hparams) (d : string) (st : state) :
  hp_dataset hp = Some d →
  dataset_is_stl10 hp st = (Ok (String.eqb d "stl10"), st).
Proof. unfold dataset_is_stl10. by intros ->. Qed.

Lemma bind_ext {X Y} (m : M X) (f f' : X → M Y) (st : state) :
  (∀ x s, f x s = f' x s) → bind m f st = bind m f' st.
Proof.
  intros Hf. rewrite !bind_run. destruct (m st) as [[x|e] s]; [apply Hf | done].
Qed.

Lemma lift_bind {X Y} (r : result X) (f : X → M Y) (st : state) :
  bind (lift r) f st
  = match r with Ok x => f x st | Raise e => (Raise e, st) end.
Proof. by destruct r. Qed.

Lemma split_batch_run (stl10 : bool) (batch : pyobj) (st : state) :
  split_batch stl10 batch st
  = (if stl10
     then match py_getitem batch 1 with
          | Ok lb => match py_getitem batch 0 with
                     | Ok ub => Ok (Some lb, ub)
                     | Raise e => Raise e
                     end
          | Raise e => Raise e
          end
     else Ok (None, batch), st).
Proof.
  unfold split_batch. destruct stl10; [|reflexivity].
  rewrite bind_run. unfold lift at 1.
  destruct (py_getitem batch 1) as [lb|e]; [|reflexivity]. cbv beta iota.
  rewrite bind_run. unfold lift at 1.
  by destruct (py_getitem batch 0).
Qed.

(** C6. Batch routing by the dataset flag alone.  With [hparams.dataset]
    set to [d], each step is, on every batch, the two-stream step on the
    streams that [d] alone tells apart: [batch[0]] and [batch[1]] when [d]
    is ['stl10'], and the batch itself, twice, otherwise; in validation
    the labeled images are encoded anew only under ['stl10'].  What the
    batch looks like plays no part: under any other flag a batch laid out
    as two pairs is not recognised as such, and under ['stl10'] a single
    pair of 5-dimensional images and labels is not recognised either;
    both steps raise before the encoder is called. *)
Theorem batch_routing_by_dataset_flag (self : CPCV2) (d : string)
    (batch : pyobj) (st : state) :
  hp_dataset (hparams_ self) = Some d →
  training_step self batch st
  = ('(unlabeled, labeled) <- lift (spec_streams d batch) ;;
     spec_training_step self unlabeled labeled) st
  ∧ validation_step self batch st
    = ('(unlabeled, labeled) <- lift (spec_streams d batch) ;;
       spec_validation_step self unlabeled labeled (String.eqb d "stl10")) st
  ∧ (String.eqb d "stl10" = false →
     ∀ img_u y_u img_l y_l,
       let dual := PyTuple [PyTuple [img_u; y_u]; PyTuple [img_l; y_l]] in
       training_step self dual st = (Raise AttributeError, st)
       ∧ validation_step self dual st = (Raise AttributeError, st))
  ∧ (String.eqb d "stl10" = true →
     ∀ x y, length (shape (content x)) = 5 →
       let single := PyTuple [PyTensor x; y] in
       training_step self single st = (Raise ValueError, st)
       ∧ validation_step self single st = (Raise ValueError, st)).
Proof.
  intros Hd.
  assert (Htrain : ∀ batch,
    training_step self batch st
    = ('(unlabeled, labeled) <- lift (spec_streams d batch) ;;
       spec_training_step self unlabeled labeled) st).
  { clear batch. intros batch.
    unfold training_step, spec_training_step. cbv zeta.
    rewrite (bind_ok _ _ _ _ _ (dataset_is_stl10_run _ _ st Hd)).
    rewrite bind_run, split_batch_run, (lift_bind (spec_streams d batch)).
    unfold spec_streams.
    destruct (String.eqb d "stl10") eqn:Hs.
    - destruct (py_getitem batch 1) as [lb|e]; [|reflexivity].
      cbn [bind result_monad].
      destruct (py_getitem batch 0) as [ub|e]; [|reflexivity]. cbv beta iota.
      apply bind_ext. intros [img y] s.
      apply bind_ext. intros Z s1. apply bind_ext. intros nce s2.
      destruct (online_evaluator self); [|reflexivity].
      rewrite (bind_ok _ _ _ _ _ (dataset_is_stl10_run _ _ s2 Hd)), Hs.
      reflexivity.
    - cbv beta iota. rewrite !lift_bind.
      destruct (py_unpack2 batch) as [[img y]|e] eqn:Hu; [|reflexivity].
      cbv beta iota.
      apply bind_ext. intros Z s1. apply bind_ext. intros nce s2.
      destruct (online_evaluator self); [|reflexivity].
      rewrite (bind_ok _ _ _ _ _ (dataset_is_stl10_run _ _ s2 Hd)), Hs.
      reflexivity. }
  assert (Hval : ∀ batch,
    validation_step self batch st
    = ('(unlabeled, labeled) <- lift (spec_streams d batch) ;;
       spec_validation_step self unlabeled labeled (String.eqb d "stl10")) st).
  { clear batch. intros batch.
    unfold validation_step, spec_validation_step. cbv zeta.
    rewrite (bind_ok _ _ _ _ _ (dataset_is_stl10_run _ _ st Hd)).
    rewrite bind_run, split_batch_run, (lift_bind (spec_streams d batch)).
    unfold spec_streams.
    destruct (String.eqb d "stl10") eqn:Hs.
    - destruct (py_getitem batch 1) as [lb|e]; [|reflexivity].
      cbn [bind result_monad].
      destruct (py_getitem batch 0) as [ub|e]; [|reflexivity]. cbv beta iota.
      apply bind_ext. intros [img y] s.
      apply bind_ext. intros Z s1. apply bind_ext. intros nce s2.
      destruct (online_evaluator self); [|reflexivity].
      rewrite (bind_ok _ _ _ _ _ (dataset_is_stl10_run _ _ s2 Hd)), Hs.
      rewrite !bind_run. cbn [get_labeled ret M_monad]. cbv beta iota.
      rewrite !bind_run. unfold lift at 1 2.
      destruct (py_unpack2 lb) as [[img_l y_l]|e]; [|reflexivity].
      cbv beta iota. rewrite !bind_run.
      destruct (forward _ _ img_l s2) as [[Zl|e] s3]; reflexivity.
    - cbv beta iota. rewrite !lift_bind.
      destruct (py_unpack2 batch) as [[img y]|e] eqn:Hu; [|reflexivity].
      cbv beta iota.
      apply bind_ext. intros Z s1. apply bind_ext. intros nce s2.
      destruct (online_evaluator self); [|reflexivity].
      rewrite (bind_ok _ _ _ _ _ (dataset_is_stl10_run _ _ s2 Hd)), Hs.
      reflexivity. }
  split; [apply Htrain|]. split; [apply Hval|]. split.
  - intros Hs img_u y_u img_l y_l dual. rewrite Htrain, Hval.
    unfold spec_streams. rewrite Hs. split; reflexivity.
  - intros Hs x y Hx single. rewrite Htrain, Hval. subst single.
    rewrite !lift_bind. unfold spec_streams. rewrite Hs.
    cbn [py_getitem lookup list_lookup bind result_monad]. cbv beta iota.
    unfold spec_training_step, spec_validation_step. cbv zeta.
    rewrite !lift_bind.
    assert (Hun : py_unpack2 (PyTensor x) = Raise ValueError
                  ∨ ∃ a b, py_unpack2 (PyTensor x) = Ok (PyTensor a, PyTensor b)
                           ∧ length (shape (content a)) = 4).
    { destruct x as [[sh dx] str]. cbn [content shape] in Hx.
      destruct sh as [|b [|p [|c [|w [|h [|]]]]]]; try discriminate.
      unfold py_unpack2. cbn [content shape].
      destruct b as [|[|[|b]]]; try (by left).
      right. unfold getitem_strided, getitem.
      cbn [content shape Nat.ltb Nat.leb bind result_monad].
      eexists _, _. split; reflexivity. }
    destruct Hun as [->|(a & b & -> & Ha)]; [split; reflexivity|].
    cbv beta iota.
    assert (Hfwd : ∀ s, forward (hparams_ self) (encoder_ self) (PyTensor a) s
                        = (Raise ValueError, s)).
    { intros s. unfold forward.
      destruct (shape (content a)) as [|? [|? [|? [|? [|? [|]]]]]];
        try discriminate; reflexivity. }
    rewrite !bind_run, !Hfwd. split; reflexivity.
Qed.

End Routing.

Lemma batch_routing_by_dataset_flag_witness :
  hp_dataset (hparams_ (Sample.model true (Some "stl10"))) = Some "stl10"
  ∧ @training_step Sample.collaborators (Sample.model true (Some "stl10"))
      (PyTuple [PyTuple [Sample.img 1 2 3 4; Sample.label];
                PyTuple [Sample.img 5 6 7 8; Sample.label]]) Sample.st0
    = @spec_training_step Sample.collaborators
        (Sample.model true (Some "stl10"))
        (PyTuple [Sample.img 1 2 3 4; Sample.label])
        (PyTuple [Sample.img 5 6 7 8; Sample.label]) Sample.st0.
Proof.
  split; [reflexivity|].
  exact (proj1 (@batch_routing_by_dataset_flag Sample.collaborators
                  (Sample.model true (Some "stl10")) "stl10"
                  (PyTuple [PyTuple [Sample.img 1 2 3 4; Sample.label];
                            PyTuple [Sample.img 5 6 7 8; Sample.label]])
                  Sample.st0 eq_refl)).
Defined.

(** ** The backward pass and the probe *)

Lemma node_induction (P : node → Prop) :
  P NoGrad →
  (∀ p, P (Leaf p)) →
  (∀ f saved inputs, Forall P inputs → P (Fn f saved inputs)) →
  ∀ n, P n.
Proof.
  intros HN HL HF.
  refine (fix IH (n : node) : P n :=
            match n with
            | NoGrad => HN
            | Leaf p => HL p
            | Fn f saved inputs =>
                HF f saved inputs
                  ((fix all (l : list node) : Forall P l :=
                      match l with
                      | [] => Forall_nil_2 P
                      | x :: r => Forall_cons_2 P x r (IH x) (all r)
                      end) inputs)
            end).
Qed.

Lemma accumulate_lookup_ne (p q : param) (g : value) (grads : gmap param value) :
  p ≠ q → accumulate q g grads !! p = grads !! p.
Proof.
  intros Hne. unfold accumulate.
  destruct (grads !! q); by rewrite lookup_insert_ne.
Qed.

Section BackwardFacts.
Context `{Collaborators}.

(** Gradients pushed into a graph whose leaves all belong to one
    sub-module leave the parameters of the others alone. *)
Lemma backward_other_owner (o : owner) (n : node) :
  leaves_owned o n = true →
  ∀ (p : param) (g : value) (grads : gmap param value),
    p.1 ≠ o → backward n g grads !! p = grads !! p.
Proof.
  induction n as [|q|f saved inputs IH] using node_induction;
    intros Hown p g grads Hp.
  - reflexivity.
  - cbn in Hown. apply bool_decide_eq_true_1 in Hown.
    cbn [backward]. apply accumulate_lookup_ne. intros ->. by apply Hp.
  - cbn [backward]. cbn [leaves_owned] in Hown.
    generalize 0 as i. revert grads.
    induction inputs as [|x rest IHrest]; intros grads i; [reflexivity|].
    cbn [forallb] in Hown. apply andb_true_iff in Hown as [Hx Hrest].
    inversion IH as [|? ? IHx IHall]; subst.
    rewrite (IHrest IHall Hrest). by apply IHx.
Qed.

Lemma leaves_owned_parameters (o : owner) (n : nat) :
  forallb (leaves_owned o) (parameters o n) = true.
Proof.
  unfold parameters. generalize 0 as k.
  induction n as [|n IH]; intros k; [reflexivity|].
  cbn. rewrite bool_decide_eq_true_2 by done. apply IH.
Qed.

Lemma leaves_owned_apply_fn (o : owner) (g : bool) (f : fn_name)
    (saved : list value) (inputs : list node) (v : value) :
  forallb (leaves_owned o) inputs = true →
  leaves_owned o (tnode (apply_fn g f saved inputs v)) = true.
Proof.
  intros Hin. unfold apply_fn. cbn [tnode].
  by destruct (g && existsb requires_grad inputs).
Qed.

End BackwardFacts.

Lemma numel_one_inv (l : list nat) : numel l = 1 → Forall (eq 1) l.
Proof.
  induction l as [|d l IH]; [constructor|]. cbn [numel foldr]. intros Hm.
  apply Nat.eq_mul_1 in Hm as [-> Hl]. constructor; [done | by apply IH].
Qed.

Lemma numel_all_ones (l : list nat) : Forall (eq 1) l → numel l = 1.
Proof.
  induction 1 as [|d l <- _ IH]; [reflexivity|]. cbn [numel foldr].
  fold (numel l). rewrite IH. reflexivity.
Qed.

Lemma broadcast_shapes_ones (ra rb ro : list nat) :
  broadcast_shapes ra rb = Ok ro → Forall (eq 1) ro → Forall (eq 1) ra.
Proof.
  revert rb ro. induction ra as [|x ra IH]; intros rb ro; [constructor|].
  destruct rb as [|y rb]; cbn [broadcast_shapes].
  - by intros [= <-].
  - destruct (broadcast_shapes ra rb) as [rest|] eqn:Hrest; [|discriminate].
    cbn [bind result_monad].
    destruct (Nat.eqb_spec x y) as [->|_].
    { intros [= <-] Hall. inversion Hall; subst. constructor; eauto. }
    destruct (Nat.eqb_spec x 1) as [->|_].
    { intros [= <-] Hall. inversion Hall; subst. constructor; eauto. }
    destruct (Nat.eqb_spec y 1) as [->|_]; [|discriminate].
    intros [= <-] Hall. inversion Hall; subst. constructor; eauto.
Qed.

Lemma broadcast_src_zero (ro rs : list nat) : broadcast_src ro rs 0 = 0.
Proof.
  revert rs. induction ro as [|d ro IH]; intros [|s rs]; try reflexivity.
  cbn [broadcast_src]. rewrite Nat.Div0.mod_0_l, Nat.Div0.div_0_l, IH.
  destruct (s =? 1); lia.
Qed.

Lemma sum_to_scalar (rs ro : list nat) :
  numel rs = 1 → numel ro = 1 → sum_to rs ro [1%Q] = [1%Q].
Proof.
  intros Hs Ho. unfold sum_to. rewrite Hs, Ho. cbn [seq fmap list_fmap].
  rewrite filter_cons_True by apply broadcast_src_zero.
  rewrite filter_nil. reflexivity.
Qed.

Section Isolation.
Context `{Collaborators}.

(** The gradient reaching the first summand of a scalar sum is the
    gradient the summand would get on its own. *)
Lemma local_grad_add_scalar (a b v : value) :
  tensor_add a b = Ok v →
  numel (shape v) = 1 →
  local_grad FnAdd [a; b] 0 (ones_like v) = ones_like a.
Proof.
  unfold tensor_add, broadcast_add. intros Hadd Hone.
  destruct (broadcast_shapes (reverse (shape a)) (reverse (shape b)))
    as [ro|] eqn:Hro; [|discriminate].
  cbn [bind result_monad] in Hadd. injection Hadd as <-.
  cbn [shape] in Hone.
  assert (Hall : Forall (eq 1) ro).
  { apply numel_one_inv in Hone. by apply Forall_reverse. }
  assert (Ha : numel (shape a) = 1).
  { apply numel_all_ones, Forall_reverse.
    rewrite <- (reverse_involutive (shape a)), reverse_involutive.
    by apply (broadcast_shapes_ones _ _ _ Hro). }
  unfold local_grad, ones_like. cbn [lookup list_lookup shape data].
  rewrite Hone, Ha, reverse_involutive. cbn [replicate].
  rewrite sum_to_scalar; [reflexivity | | by apply numel_all_ones].
  apply numel_all_ones, Forall_reverse.
  by apply numel_one_inv.
Qed.

(** The training step of a model whose probe is off *)
Lemma training_step_probe_off (self : CPCV2) (batch : pyobj) (d : string)
    (img_c y_c : pyobj) (st st1 : state) (Zc nce : ttensor) :
  online_evaluator self = false →
  hp_dataset (hparams_ self) = Some d →
  (if String.eqb d "stl10"
   then ∃ lb ub, py_getitem batch 1 = Ok lb ∧ py_getitem batch 0 = Ok ub
                 ∧ py_unpack2 ub = Ok (img_c, y_c)
   else py_unpack2 batch = Ok (img_c, y_c)) →
  forward (hparams_ self) (encoder_ self) img_c st = (Ok Zc, st1) →
  call_info_nce (info_nce self) Zc st1 = (Ok nce, st1) →
  training_step self batch st
  = (Ok (StepResult nce {["train_nce_loss" := nce]}), st1).
Proof.
  intros Hoff Hd Hc Hfwd Hnce. unfold training_step. cbv zeta.
  rewrite (bind_ok _ _ _ _ _ (dataset_is_stl10_run _ _ st Hd)).
  assert (Hpre : ∃ lab ub,
    split_batch (String.eqb d "stl10") batch st = (Ok (lab, ub), st)
    ∧ py_unpack2 ub = Ok (img_c, y_c)).
  { unfold split_batch. destruct (String.eqb d "stl10").
    - destruct Hc as (lb & ub & H1 & H0 & Hu). exists (Some lb), ub.
      split; [|done]. rewrite !bind_run. unfold lift. rewrite H1.
      cbv beta iota. by rewrite bind_run, H0.
    - by exists None, batch. }
  destruct Hpre as (lab & ub & Hsplit & Hu).
  rewrite (bind_ok _ _ _ _ _ Hsplit). cbv beta iota.
  rewrite bind_run. unfold lift at 1. rewrite Hu. cbv beta iota.
  rewrite (bind_ok _ _ _ _ _ Hfwd), (bind_ok _ _ _ _ _ Hnce), Hoff.
  reflexivity.
Qed.

(** C3. Gradient isolation of the online probe: when a training step with
    the probe enabled returns a scalar loss, the same step with the probe
    disabled returns the contrastive loss logged under
    ['train_nce_loss'], and on every encoder parameter, as on every
    parameter outside the probe, the gradient of the combined loss is
    the gradient of that contrastive loss. *)
Theorem probe_gradient_isolation (self : CPCV2) (batch : pyobj)
    (st st' : state) (r : step_result) :
  online_evaluator self = true →
  training_step self batch st = (Ok r, st') →
  numel (shape (tval (loss r))) = 1 →
  ∃ nce st_off,
    log r !! "train_nce_loss" = Some nce
    ∧ training_step
        (Model (hparams_ self) false (datamodule_ self) (encoder_ self)
           (info_nce self) (non_linear_evaluator self)) batch st
      = (Ok (StepResult nce {["train_nce_loss" := nce]}), st_off)
    ∧ (∀ i, gradients (loss r) !! (OwnEncoder, i)
            = gradients nce !! (OwnEncoder, i))
    ∧ (∀ p, p.1 ≠ OwnProbe → gradients (loss r) !! p = gradients nce !! p).
Proof.
  intros Hon Hrun Hscalar.
  apply training_step_inv in Hrun
    as (d & img_c & y_c & Zc & st1 & nce & Hd & Hc & Hfwd & Hnce & Hrest).
  rewrite Hon in Hrest.
  destruct Hrest as (img_p & y_p & Zp & z_in & preds & mlp & _ & Hfwd2 & Hflat
                     & Hev & Hce & Hadd & Hlog).
  exists nce, st1. split.
  { rewrite Hlog, lookup_insert_ne by done. apply lookup_singleton_eq. }
  split.
  { apply (training_step_probe_off _ _ d img_c y_c _ _ Zc);
      [reflexivity | exact Hd | exact Hc | exact Hfwd | exact Hnce]. }
  (* the probe branch of the graph hangs on probe parameters only *)
  assert (HZp : tnode Zp = NoGrad).
  { rewrite no_grad_run in Hfwd2.
    destruct (forward _ _ img_p _) as [rz sz] eqn:Hf. cbn [fst snd] in Hfwd2.
    injection Hfwd2 as -> _.
    apply forward_inv in Hf as (? & ? & ? & ? & ? & ? & ? & _ & _ & _ & _ & Hno).
    by apply Hno. }
  assert (Hmlp : leaves_owned OwnProbe (tnode mlp) = true).
  { rewrite flatten_rows_run in Hflat.
    destruct (size _ _); [|discriminate]. destruct (view _ _); [|discriminate].
    injection Hflat as <-.
    rewrite call_evaluator_run in Hev.
    destruct (non_linear_evaluator self) as [ev|]; [|discriminate].
    destruct (evaluator_forward _ _); [|discriminate]. injection Hev as <-.
    rewrite call_cross_entropy_run in Hce. destruct y_p; [|discriminate].
    destruct (cross_entropy _ _); [|discriminate]. injection Hce as <-.
    apply leaves_owned_apply_fn. cbn [forallb tnode apply_fn detach].
    rewrite !andb_false_r. cbn [requires_grad orb].
    destruct (grad_enabled st'
              && existsb requires_grad (parameters OwnProbe (evaluator_nparams ev)));
      cbn [leaves_owned forallb];
      rewrite ?leaves_owned_parameters; reflexivity. }
  assert (Hg : grad_enabled st' = grad_enabled st1).
  { rewrite no_grad_run in Hfwd2. by injection Hfwd2 as _ <-. }
  assert (Hnode : grad_enabled st1 = false → tnode nce = NoGrad).
  { intros Hoff. rewrite call_info_nce_run in Hnce.
    destruct (cpc_task_forward _ _); [|discriminate]. injection Hnce as <-.
    by rewrite Hoff. }
  assert (Hall : ∀ p, p.1 ≠ OwnProbe →
                      gradients (loss r) !! p = gradients nce !! p).
  { intros p Hp. rewrite add_losses_run in Hadd.
    destruct (tensor_add (tval nce) (tval mlp)) as [v|] eqn:Hsum; [|discriminate].
    injection Hadd as Hloss. rewrite <- Hloss in *. cbn [tval apply_fn] in Hscalar.
    unfold gradients. cbn [tval tnode apply_fn]. rewrite Hg.
    destruct (grad_enabled st1) eqn:Hmode.
    - cbn [andb existsb].
      destruct (requires_grad (tnode nce)) eqn:Hrq.
      + cbn [orb backward].
        rewrite (backward_other_owner OwnProbe _ Hmlp) by done.
        by rewrite (local_grad_add_scalar _ _ _ Hsum Hscalar).
      + assert (Hn : tnode nce = NoGrad) by (by destruct (tnode nce)).
        rewrite Hn. cbn [orb].
        destruct (requires_grad (tnode mlp) || false).
        * cbn [backward]. by rewrite (backward_other_owner OwnProbe _ Hmlp).
        * reflexivity.
    - cbn [andb]. by rewrite (Hnode eq_refl). }
  split; [|exact Hall]. intros i. by apply Hall.
Qed.

End Isolation.

Lemma probe_gradient_isolation_witness :
  ∃ r st',
    (online_evaluator (Sample.model true (Some "cifar10")) = true
     ∧ @training_step Sample.collaborators (Sample.model true (Some "cifar10"))
         (PyTuple [Sample.img 1 2 3 4; Sample.label]) Sample.st0 = (Ok r, st')
     ∧ numel (shape (tval (loss r))) = 1)
    ∧ ∃ nce, log r !! "train_nce_loss" = Some nce
        ∧ ∀ i, @gradients Sample.collaborators (loss r) !! (OwnEncoder, i)
               = @gradients Sample.collaborators nce !! (OwnEncoder, i).
Proof.
  assert (E : ∃ r st',
    @training_step Sample.collaborators (Sample.model true (Some "cifar10"))
      (PyTuple [Sample.img 1 2 3 4; Sample.label]) Sample.st0 = (Ok r, st')
    ∧ numel (shape (tval (loss r))) = 1)
    by (eexists _, _; split; vm_compute; reflexivity).
  destruct E as (r & st' & E & Hscalar). exists r, st'.
  split; [repeat split; assumption || reflexivity|].
  destruct (@probe_gradient_isolation Sample.collaborators
              (Sample.model true (Some "cifar10")) _ _ _ _ eq_refl E Hscalar)
    as (nce & st_off & Hlog & _ & Henc & _).
  exists nce. split; [exact Hlog | exact Henc].
Defined.

(** ** Epoch-level validation metrics *)

Lemma arithmetic_mean_spec (qs : list Q) :
  qs ≠ [] →
  (arithmetic_mean qs * inject_Z (Z.of_nat (length qs)) == Qsum qs)%Q.
Proof.
  intros Hne. unfold arithmetic_mean. rewrite Qmult_comm. apply Qmult_div_r.
  destruct qs as [|q qs]; [done|]. cbn [length].
  intros Hz. unfold Qeq in Hz. cbn in Hz. lia.
Qed.

Lemma collect_values (key : string) (outputs : list (gmap string ttensor))
    (qs : list Q) :
  Forall2 (step_value key) outputs qs → collect key outputs = Ok qs.
Proof.
  induction 1 as [|o q outputs qs (t & Hk & Hq) _ IH]; [reflexivity|].
  cbn [collect]. rewrite Hk. cbn [bind result_monad]. by rewrite Hq, IH.
Qed.

Lemma metrics_mean_values (key : string) (outputs : list (gmap string ttensor))
    (qs : list Q) :
  outputs ≠ [] →
  Forall2 (step_value key) outputs qs →
  metrics_mean outputs key = Ok (scalar (arithmetic_mean qs)).
Proof.
  intros Hne Hall. unfold metrics_mean. rewrite (collect_values _ _ _ Hall).
  cbn [bind result_monad]. destruct Hall; [done | reflexivity].
Qed.

(** C7. Epoch-level aggregation: on a non-empty list of step outputs
    that hold their values under ['val_nce'] (and, with the probe, under
    ['mlp_acc'] and ['mlp_loss']), [validation_epoch_end] returns the
    arithmetic mean of the contrastive losses as ['val_loss'] and logs it
    as ['val_nce_loss'], with the means of the probe accuracy and loss
    under ['val_mlp_acc'] and ['val_mlp_loss'] when the probe is enabled;
    each mean times the number of steps is the sum of the per-step
    values. *)
Theorem validation_epoch_end_means (self : CPCV2)
    (outputs : list (gmap string ttensor)) (nces accs losses : list Q) :
  outputs ≠ [] →
  Forall2 (step_value "val_nce") outputs nces →
  (online_evaluator self = true →
   Forall2 (step_value "mlp_acc") outputs accs
   ∧ Forall2 (step_value "mlp_loss") outputs losses) →
  let log : gmap string value :=
    if online_evaluator self
    then <["val_mlp_loss" := scalar (arithmetic_mean losses)]>
           (<["val_mlp_acc" := scalar (arithmetic_mean accs)]>
              {["val_nce_loss" := scalar (arithmetic_mean nces)]})
    else {["val_nce_loss" := scalar (arithmetic_mean nces)]} in
  validation_epoch_end self outputs
  = Ok (EpochResult (scalar (arithmetic_mean nces)) log log)
  ∧ (arithmetic_mean nces * inject_Z (Z.of_nat (length outputs)) == Qsum nces)%Q
  ∧ (online_evaluator self = true →
     (arithmetic_mean accs * inject_Z (Z.of_nat (length outputs)) == Qsum accs)%Q
     ∧ (arithmetic_mean losses * inject_Z (Z.of_nat (length outputs))
        == Qsum losses)%Q).
Proof.
  intros Hne Hnce Hprobe log.
  assert (Hmean : ∀ key qs, Forall2 (step_value key) outputs qs →
    (arithmetic_mean qs * inject_Z (Z.of_nat (length outputs)) == Qsum qs)%Q).
  { intros key qs Hall. rewrite (Forall2_length _ _ _ Hall).
    apply arithmetic_mean_spec. intros ->. by inversion Hall. }
  split; [|split].
  - unfold validation_epoch_end.
    rewrite (metrics_mean_values _ _ _ Hne Hnce). cbn [bind result_monad].
    subst log. destruct (online_evaluator self).
    + destruct (Hprobe eq_refl) as [Hacc Hloss].
      rewrite (metrics_mean_values _ _ _ Hne Hacc),
              (metrics_mean_values _ _ _ Hne Hloss). reflexivity.
    + reflexivity.
  - by apply (Hmean "val_nce").
  - intros Hon. destruct (Hprobe Hon) as [Hacc Hloss].
    split; [by apply (Hmean "mlp_acc") | by apply (Hmean "mlp_loss")].
Qed.

Lemma validation_epoch_end_means_witness :
  (Sample.val_outputs ≠ []
   ∧ Forall2 (step_value "val_nce") Sample.val_outputs [2; 4]%Q
   ∧ Forall2 (step_value "mlp_acc") Sample.val_outputs [1; 0]%Q
   ∧ Forall2 (step_value "mlp_loss") Sample.val_outputs [4; 6]%Q)
  ∧ validation_epoch_end (Sample.model true (Some "cifar10")) Sample.val_outputs
    = Ok (EpochResult (scalar (arithmetic_mean [2; 4]%Q))
            (<["val_mlp_loss" := scalar (arithmetic_mean [4; 6]%Q)]>
               (<["val_mlp_acc" := scalar (arithmetic_mean [1; 0]%Q)]>
                  {["val_nce_loss" := scalar (arithmetic_mean [2; 4]%Q)]}))
            (<["val_mlp_loss" := scalar (arithmetic_mean [4; 6]%Q)]>
               (<["val_mlp_acc" := scalar (arithmetic_mean [1; 0]%Q)]>
                  {["val_nce_loss" := scalar (arithmetic_mean [2; 4]%Q)]})))
  ∧ (arithmetic_mean [2; 4] == 3)%Q.
Proof.
  assert (Hne : Sample.val_outputs ≠ []) by discriminate.
  assert (Hnce : Forall2 (step_value "val_nce") Sample.val_outputs [2; 4]%Q).
  { repeat constructor; eexists; (split; [reflexivity|reflexivity]). }
  assert (Hacc : Forall2 (step_value "mlp_acc") Sample.val_outputs [1; 0]%Q).
  { repeat constructor; eexists; (split; [reflexivity|reflexivity]). }
  assert (Hloss : Forall2 (step_value "mlp_loss") Sample.val_outputs [4; 6]%Q).
  { repeat constructor; eexists; (split; [reflexivity|reflexivity]). }
  split; [repeat split; assumption|].
  destruct (validation_epoch_end_means (Sample.model true (Some "cifar10"))
              Sample.val_outputs [2; 4]%Q [1; 0]%Q [4; 6]%Q Hne Hnce
              (fun _ => conj Hacc Hloss))
    as (Hrun & _ & _).
  split; [exact Hrun | reflexivity].
Defined.

(** * Further properties of the reassembly *)

Section ReassemblyEdges.
Context {A : Type}.
Implicit Types (Z : tensor A) (d : list A).

(** X1. Arguments [__recover_z_shape] cannot work with: a tensor left
    without dimensions by the squeeze has no [size(0)]; one left with a
    single dimension divides by the batch size and then has no [size(1)];
    a batch size of 0 is a division by zero whenever [size(0)] exists. *)
Theorem recover_z_shape_bad_arguments Z :
  match squeeze_last_shape (shape Z) with
  | [] => ∀ b, __recover_z_shape Z b = Raise IndexError
  | [_] => ∀ b, __recover_z_shape Z b
                = Raise (if b =? 0 then ZeroDivisionError else IndexError)
  | _ :: _ :: _ => __recover_z_shape Z 0 = Raise ZeroDivisionError
  end.
Proof.
  pose proof (recover_z_shape_contiguous Z) as E.
  unfold squeeze_last, size in E. cbn [shape] in E.
  destruct (squeeze_last_shape (shape Z)) as [|n [|c r]].
  - intros b. rewrite E. reflexivity.
  - intros b. rewrite E. cbn. by destruct (b =? 0).
  - rewrite E. reflexivity.
Qed.

Lemma infer_size_3_eq (a c n : nat) :
  infer_size [Some a; None; Some c] n
  = if (0 <? a * (c * 1)) && (n mod (a * (c * 1)) =? 0)
    then Ok [a; n / (a * (c * 1)); c]
    else Raise RuntimeError.
Proof. reflexivity. Qed.

(** X2. A number of patch vectors that the batch size does not divide is
    a shape error: the first view cannot infer the patch count. *)
Theorem recover_z_shape_indivisible (N Cz b : nat) d :
  1 ≤ b → 1 ≤ Cz → N mod b ≠ 0 →
  __recover_z_shape (Tensor [N; Cz; 1; 1] d) b = Raise RuntimeError.
Proof.
  intros Hb HC Hmod. rewrite recover_z_shape_contiguous.
  change (squeeze_last (Tensor [N; Cz; 1; 1] d)) with (Tensor [N; Cz; 1] d).
  change (size (Tensor [N; Cz; 1] d) 0) with (Ok N).
  change (size (Tensor [N; Cz; 1] d) 1) with (Ok Cz).
  cbn [bind result_monad].
  destruct (Nat.eqb_spec b 0); [lia|].
  unfold view at 1. cbn [shape numel foldr]. rewrite infer_size_3_eq.
  rewrite !Nat.mul_1_r, (Nat.mul_comm N Cz), (Nat.mul_comm b Cz).
  rewrite Nat.Div0.mul_mod_distr_l.
  destruct (Nat.eqb_spec (Cz * (N mod b)) 0) as [E|_]; [nia|].
  by rewrite andb_false_r.
Qed.

(** X3. No patches at all: the first view infers a patch count of 0, and
    the last one, asked for a 0 x 0 grid, cannot infer the channels. *)
Theorem recover_z_shape_no_patches (Cz b : nat) d :
  1 ≤ b → 1 ≤ Cz →
  __recover_z_shape (Tensor [0; Cz; 1; 1] d) b = Raise RuntimeError.
Proof.
  intros Hb HC.
  assert (E : Tensor [0; Cz; 1; 1] d = Tensor [b * 0; Cz; 1; 1] d)
    by (by rewrite Nat.mul_0_r).
  rewrite E, recover_z_shape_run by done.
  unfold view. cbn [shape numel foldr]. rewrite infer_size_4.
  change (Nat.sqrt 0) with 0. rewrite !Nat.mul_0_l, !Nat.mul_0_r.
  reflexivity.
Qed.

(** Feature maps laid out channels last: the two spatial dimensions form
    a chunk of their own, which the view cannot fill. *)
Lemma can_view_channels_last (N Cz h w b P : nat) :
  2 ≤ Cz → 2 ≤ h * w → Cz ≠ h * w → 1 ≤ N → 2 ≤ P → h * w ≤ P →
  can_view [N; Cz; h; w] [h * w * Cz; 1; w * Cz; Cz] [b; P; Cz] = false.
Proof.
  intros HC Hhw Hne HN HP HPle. unfold can_view.
  assert (Hnum : numel [N; Cz; h; w] ≠ 0) by (unfold numel; cbn [foldr]; nia).
  destruct (Nat.eqb_spec (numel [N; Cz; h; w]) 0) as [|_]; [done|].
  change (reverse (zip [N; Cz; h; w] [h * w * Cz; 1; w * Cz; Cz]))
    with [(w, Cz); (h, w * Cz); (Cz, 1); (N, h * w * Cz)].
  change (reverse [b; P; Cz]) with [Cz; P; b].
  change (default 0 (last [h * w * Cz; 1; w * Cz; Cz])) with Cz.
  cbn [view_chunks]. rewrite Nat.mul_1_l, Nat.eqb_refl, andb_false_r.
  destruct (Nat.eqb_spec Cz 1) as [|_]; [lia|].
  destruct (Nat.eqb_spec 1 (w * h * Cz)) as [|_]; [nia|]. cbn [negb andb].
  cbn [take_view]. destruct (Nat.ltb_spec 1 (w * h)) as [_|]; [|nia]. cbn [orb].
  rewrite Nat.mul_1_l.
  destruct (Nat.eqb_spec P 1) as [|_]; [lia|]. rewrite orb_false_r.
  destruct (Nat.ltb_spec Cz (w * h)) as [Hlt|Hge].
  - destruct ((Cz * P <? w * h) || (b =? 1)).
    + destruct (Nat.eqb_spec (Cz * P * b) (w * h)) as [E|]; [|done].
      exfalso. destruct b; nia.
    + destruct (Nat.eqb_spec (Cz * P) (w * h)) as [E|]; [|done]. exfalso. nia.
  - destruct (Nat.eqb_spec Cz (w * h)) as [E|]; [|done]. exfalso. nia.
Qed.

(** X4. Feature maps with a spatial extent are not rejected as such: on a
    contiguous encoder output of size [(B * s * s, Cz, h, w)] whose last
    dimension is not 1 nothing is squeezed, and the call returns a tensor
    of size [(B, Cz * h * w, s, s)] with as many elements as it was given.
    The same feature maps laid out channels last, with strides
    [(h * w * Cz, 1, w * Cz, Cz)], are refused by the first view when
    there are at least two channels, other in number than the [h * w]
    positions of a map. *)
Theorem recover_z_shape_feature_maps (B s Cz h w : nat) d :
  1 ≤ B → 1 ≤ Cz → 1 ≤ s → w ≠ 1 →
  (∃ out, __recover_z_shape (contiguous (Tensor [B * (s * s); Cz; h; w] d)) B = Ok out
     ∧ shape out = [B; Cz * h * w; s; s]
     ∧ (length d = B * (s * s) * Cz * h * w → length (data out) = length d))
  ∧ (2 ≤ Cz → 2 ≤ h * w → Cz ≠ h * w →
     __recover_z_shape
       (Strided (Tensor [B * (s * s); Cz; h; w] d) [h * w * Cz; 1; w * Cz; Cz]) B
     = Raise RuntimeError).
Proof.
  intros HB HC Hs Hw.
  assert (Hsq : squeeze_last (Tensor [B * (s * s); Cz; h; w] d)
                = Tensor [B * (s * s); Cz; h; w] d).
  { unfold squeeze_last. cbn. by destruct (Nat.eqb_spec w 1). }
  split.
  - rewrite recover_z_shape_contiguous.
    rewrite Hsq.
    change (size (Tensor [B * (s * s); Cz; h; w] d) 0) with (Ok (B * (s * s))).
    change (size (Tensor [B * (s * s); Cz; h; w] d) 1) with (Ok Cz).
    cbn [bind result_monad].
    destruct (Nat.eqb_spec B 0); [lia|].
    unfold view at 1. cbn [shape numel foldr].
    rewrite (infer_size_3 B (s * s * h * w) Cz) by (lia || ring).
    cbn [bind result_monad]. unfold permute021. cbn [shape data bind result_monad].
    unfold int_sqrt. rewrite (Nat.mul_comm B (s * s)), Nat.div_mul by lia.
    rewrite Nat.sqrt_square. unfold view. cbn [shape data numel foldr].
    rewrite infer_size_4.
    replace (B * (Cz * (s * s * h * w * 1)))
      with ((Cz * h * w) * (B * (s * (s * 1)))) by ring.
    rewrite Nat.Div0.mod_mul, Nat.div_mul by nia.
    destruct (Nat.ltb_spec 0 (B * (s * (s * 1)))); [|nia].
    cbn [andb Nat.eqb bind result_monad]. eexists. split; [reflexivity|].
    split; [reflexivity|]. intros Hlen. cbn [data].
    destruct d as [|a d]; [reflexivity|].
    rewrite gather_length, Hlen by done. ring.
  - intros HC2 Hhw Hne. unfold __recover_z_shape, squeeze_last_strided.
    cbn [content strides]. rewrite Hsq.
    replace (squeeze_last_shape (shape (Tensor [B * (s * s); Cz; h; w] d)))
      with [B * (s * s); Cz; h; w]
      by (cbn; by destruct (Nat.eqb_spec w 1)).
    cbn [shape length take].
    change (size (Tensor [B * (s * s); Cz; h; w] d) 0) with (Ok (B * (s * s))).
    change (size (Tensor [B * (s * s); Cz; h; w] d) 1) with (Ok Cz).
    cbn [bind result_monad].
    destruct (Nat.eqb_spec B 0); [lia|].
    unfold view_strided. cbn [content strides shape numel foldr].
    rewrite (infer_size_3 B (s * s * h * w) Cz) by (lia || ring).
    cbn [bind result_monad].
    assert (Hss : 1 ≤ s * s) by nia.
    assert (HP : h * w ≤ s * s * h * w).
    { rewrite <- (Nat.mul_assoc (s * s)).
      pose proof (Nat.mul_le_mono_r 1 (s * s) (h * w) Hss). lia. }
    rewrite can_view_channels_last; [done | done | done | done | nia | lia | done].
Qed.

Lemma fmap_nth_seq (d0 : A) d :
  (fun i => nth i d d0) <$> seq 0 (length d) = d.
Proof.
  apply list_eq. intros i. rewrite list_lookup_fmap.
  destruct (decide (i < length d)) as [Hi|Hi].
  - rewrite lookup_seq_lt by done. cbn.
    destruct (lookup_lt_is_Some_2 d i Hi) as [x Hx].
    by rewrite nth_lookup, Hx.
  - rewrite lookup_seq_ge, lookup_ge_None_2 by lia. done.
Qed.

(** Picking by a one-to-one renumbering of the positions only rearranges
    a list. *)
Lemma gather_permutation (src inv : nat → nat) (n : nat) d :
  length d = n →
  (∀ k, k < n → src k < n ∧ inv (src k) = k) →
  (∀ k, k < n → inv k < n ∧ src (inv k) = k) →
  gather src n d ≡ₚ d.
Proof.
  intros Hlen Hsrc Hinv. destruct d as [|d0 d]; [done|]. unfold gather.
  transitivity ((fun i => nth i (d0 :: d) d0) <$> seq 0 n);
    [|by rewrite <- Hlen, fmap_nth_seq].
  change (fun k => nth (src k) (d0 :: d) d0)
    with ((fun i => nth i (d0 :: d) d0) ∘ src).
  rewrite list_fmap_compose. apply fmap_Permutation.
  apply NoDup_Permutation.
  - apply NoDup_fmap_2_strong; [|apply NoDup_seq].
    intros x y Hx%elem_of_seq Hy%elem_of_seq Hxy.
    rewrite <- (proj2 (Hsrc x ltac:(lia))), <- (proj2 (Hsrc y ltac:(lia))).
    by rewrite Hxy.
  - apply NoDup_seq.
  - intros k. rewrite list_elem_of_fmap, elem_of_seq. split.
    + intros (x & -> & Hx%elem_of_seq). destruct (Hsrc x); lia.
    + intros Hk. exists (inv k). rewrite elem_of_seq.
      destruct (Hinv k); [lia|]. split; [done | lia].
Qed.

Lemma permute021_src_bound (B P Cz k : nat) :
  k < B * (Cz * P) →
  permute021_src P Cz k < B * (P * Cz)
  ∧ permute021_src Cz P (permute021_src P Cz k) = k.
Proof.
  intros Hk.
  destruct (split_position (B * Cz) P k) as (q & p & -> & Hp & Hq); [lia|].
  destruct (split_position B Cz q Hq) as (b & c & -> & Hc & Hb).
  rewrite permute021_src_spec by done. split; [nia|].
  by rewrite permute021_src_spec.
Qed.

(** X5. [__recover_z_shape] only rearranges: whenever it returns on
    [B * P] well-formed patch vectors, square patch count or not, its
    result is well formed and holds exactly the elements it was given. *)
Theorem recover_z_shape_permutes (B P Cz : nat) d (out : tensor A) :
  1 ≤ B → 1 ≤ Cz →
  length d = B * P * Cz →
  __recover_z_shape (Tensor [B * P; Cz; 1; 1] d) B = Ok out →
  data out ≡ₚ d ∧ wf out.
Proof.
  intros HB HC Hlen. rewrite recover_z_shape_run by done.
  unfold view. cbn [shape data numel foldr]. rewrite infer_size_4.
  destruct (_ && _) eqn:Hok; [|discriminate].
  cbn [bind result_monad]. intros [= <-].
  apply andb_true_iff in Hok as [Hpos Hmod].
  apply Nat.ltb_lt in Hpos. apply Nat.eqb_eq in Hmod.
  assert (Hperm : gather (permute021_src P Cz) (B * (Cz * P)) d ≡ₚ d).
  { apply (gather_permutation _ (permute021_src Cz P)); [lia| |].
    - intros k Hk. destruct (permute021_src_bound B P Cz k Hk). split; [lia|done].
    - intros k Hk.
      destruct (permute021_src_bound B Cz P k) as [? ?]; [lia|]. split; [lia|done]. }
  split; [exact Hperm|]. unfold wf. cbn [shape data numel foldr].
  rewrite (Permutation_length Hperm), Hlen.
  set (m := B * (Nat.sqrt P * (Nat.sqrt P * 1))) in *.
  set (n := B * (Cz * (P * 1))) in *.
  assert (Hn : n = m * (n / m)).
  { rewrite (Nat.div_mod_eq n m) at 1. lia. }
  transitivity n; [unfold n; ring|]. rewrite Hn at 1. unfold m. ring.
Qed.

(** X18. The memory layout of per-patch vectors plays no part: an
    encoder output of size [(B * P, Cz, 1, 1)] is reassembled the same
    whatever its strides, since the view of [__recover_z_shape] only
    splits its first dimension. *)
Theorem recover_z_shape_any_layout (B P Cz : nat) d (str : list nat) :
  1 ≤ B → 1 ≤ Cz → length str = 4 →
  __recover_z_shape (Strided (Tensor [B * P; Cz; 1; 1] d) str) B
  = __recover_z_shape (contiguous (Tensor [B * P; Cz; 1; 1] d)) B.
Proof. apply recover_z_shape_strides. Qed.

End ReassemblyEdges.

Lemma recover_z_shape_any_layout_witness :
  (1 ≤ 1 ∧ 1 ≤ 2 ∧ length [1; 4; 9; 9] = 4)
  ∧ __recover_z_shape (Strided (Tensor [1 * 4; 2; 1; 1] (seq 0 8)) [1; 4; 9; 9]) 1
    = __recover_z_shape (contiguous (Tensor [1 * 4; 2; 1; 1] (seq 0 8))) 1.
Proof.
  assert (H2 : 1 ≤ 2) by (repeat constructor).
  split; [repeat split; assumption || constructor|].
  exact (recover_z_shape_any_layout 1 4 2 (seq 0 8) [1; 4; 9; 9] (le_n 1) H2 eq_refl).
Defined.

Lemma recover_z_shape_indivisible_witness :
  (1 ≤ 2 ∧ 1 ≤ 1 ∧ 3 mod 2 ≠ 0)
  ∧ __recover_z_shape (Tensor [3; 1; 1; 1] [5; 6; 7]) 2 = Raise RuntimeError.
Proof.
  assert (H1 : 1 ≤ 2) by (repeat constructor).
  assert (H2 : 3 mod 2 ≠ 0) by discriminate.
  split; [repeat split; assumption || constructor|].
  exact (recover_z_shape_indivisible 3 1 2 [5; 6; 7] H1 (le_n 1) H2).
Defined.


Lemma recover_z_shape_no_patches_witness :
  (1 ≤ 2 ∧ 1 ≤ 3)
  ∧ __recover_z_shape (Tensor [0; 3; 1; 1] ([] : list nat)) 2 = Raise RuntimeError.
Proof.
  assert (H1 : 1 ≤ 2) by (repeat constructor).
  assert (H2 : 1 ≤ 3) by (repeat constructor).
  split; [split; assumption|].
  exact (recover_z_shape_no_patches 3 2 [] H1 H2).
Defined.

Lemma recover_z_shape_feature_maps_witness :
  (1 ≤ 1 ∧ 1 ≤ 1 ∧ 1 ≤ 1 ∧ 2 ≠ 1)
  ∧ ∃ out, __recover_z_shape (Tensor [1 * (1 * 1); 1; 2; 2] [5; 6; 7; 8]) 1 = Ok out
      ∧ shape out = [1; 1 * 2 * 2; 1; 1].
Proof.
  assert (H2 : 2 ≠ 1) by discriminate.
  split; [repeat split; assumption || constructor|].
  destruct (recover_z_shape_feature_maps 1 1 1 2 2 [5; 6; 7; 8]
              (le_n 1) (le_n 1) (le_n 1) H2) as [(out & Hrun & Hsh & _) _].
  exists out. split; [exact Hrun | exact Hsh].
Defined.

Lemma recover_z_shape_permutes_witness :
  (1 ≤ 2 ∧ 1 ≤ 3 ∧ length (seq 0 48) = 2 * 8 * 3)
  ∧ ∃ out, __recover_z_shape (Tensor [2 * 8; 3; 1; 1] (seq 0 48)) 2 = Ok out
      ∧ data out ≡ₚ seq 0 48.
Proof.
  assert (H1 : 1 ≤ 2) by (repeat constructor).
  assert (H2 : 1 ≤ 3) by (repeat constructor).
  split; [repeat split; assumption|].
  assert (E : ∃ out, __recover_z_shape (Tensor [2 * 8; 3; 1; 1] (seq 0 48)) 2 = Ok out)
    by (eexists; vm_compute; reflexivity).
  destruct E as (out & E). exists out. split; [exact E|].
  exact (proj1 (recover_z_shape_permutes 2 8 3 (seq 0 48) out H1 H2 eq_refl E)).
Defined.

(** * Further properties of [forward] *)

Lemma infer_size_flatten (c w h n : nat) :
  infer_size [None; Some c; Some w; Some h] n
  = if (0 <? c * (w * (h * 1))) && (n mod (c * (w * (h * 1))) =? 0)
    then Ok [n / (c * (w * (h * 1))); c; w; h]
    else Raise RuntimeError.
Proof. reflexivity. Qed.

Lemma view_flatten_patches (x : value) (B P C W H : nat) :
  shape x = [B; P; C; W; H] → 1 ≤ C → 1 ≤ W → 1 ≤ H →
  view x [None; Some C; Some W; Some H] = Ok (Tensor [B * P; C; W; H] (data x)).
Proof.
  intros Hsh HC HW HH. unfold view. rewrite Hsh. cbn [numel foldr].
  rewrite infer_size_flatten.
  replace (B * (P * (C * (W * (H * 1))))) with ((B * P) * (C * (W * (H * 1))))
    by ring.
  rewrite Nat.Div0.mod_mul, Nat.div_mul by nia.
  destruct (Nat.ltb_spec 0 (C * (W * (H * 1)))); [done | nia].
Qed.

(** X6. The forward pass on well-shaped input: for a patch batch of size
    [(B, s * s, C, W, H)] and an encoder that returns one [Cz]-channel
    vector per patch, in whatever memory layout, everything hangs on
    whether the strides of the batch allow the patches to be put on the
    batch dimension, as those of a contiguous batch do.  If so, [forward]
    calls the encoder exactly once, on the patches, leaves the grad mode
    as it was and returns the grid of size [(B, Cz, s, s)] that
    [__recover_z_shape] makes of the encoder's output; if not, it raises
    before the encoder is called. *)
Theorem forward_patch_vectors (hp : hparams) (enc : encoder) (t : strided Q)
    (B s C W H Cz : nat) (out : enc_out) (d : list Q) (str : list nat)
    (st : state) :
  shape (content t) = [B; s * s; C; W; H] →
  1 ≤ B → 1 ≤ s → 1 ≤ C → 1 ≤ W → 1 ≤ H → 1 ≤ Cz → length str = 4 →
  enc_fwd enc (Tensor [B * (s * s); C; W; H] (data (content t))) = Ok out →
  (not_cpc_encoder hp = false
   ∧ out = OutTensor (Strided (Tensor [B * (s * s); Cz; 1; 1] d) str))
  ∨ (not_cpc_encoder hp = true
     ∧ ∃ rest, out = OutList (Strided (Tensor [B * (s * s); Cz; 1; 1] d) str :: rest)) →
  let viewable :=
    can_view (shape (content t)) (strides t) [B * (s * s); C; W; H] in
  (strides t = contiguous_strides (shape (content t)) → viewable = true)
  ∧ (viewable = true →
     ∃ Z,
       forward hp enc (PyTensor t) st
       = (Ok Z,
          State (grad_enabled st)
            (events st ++
             [EvEncoder (Tensor [B * (s * s); C; W; H] (data (content t)))
                (grad_enabled st)]))
       ∧ shape (tval Z) = [B; Cz; s; s]
       ∧ __recover_z_shape (Tensor [B * (s * s); Cz; 1; 1] d) B = Ok (tval Z))
  ∧ (viewable = false →
     forward hp enc (PyTensor t) st = (Raise RuntimeError, st)).
Proof.
  intros Hsh HB Hs HC HW HH HCz Hlen Henc Hsel viewable.
  assert (Hview : view_strided t [None; Some C; Some W; Some H]
    = if viewable
      then Ok (Tensor [B * (s * s); C; W; H] (data (content t)))
      else Raise RuntimeError).
  { unfold view_strided. rewrite Hsh. cbn [numel foldr].
    rewrite infer_size_flatten.
    replace (B * (s * s * (C * (W * (H * 1)))))
      with ((B * (s * s)) * (C * (W * (H * 1)))) by ring.
    rewrite Nat.Div0.mod_mul, Nat.div_mul by nia.
    destruct (Nat.ltb_spec 0 (C * (W * (H * 1)))); [|nia].
    cbn [andb Nat.eqb bind result_monad]. subst viewable. by rewrite Hsh. }
  split; [|split].
  - intros Hstr. subst viewable. rewrite Hstr. apply can_view_contiguous.
    rewrite Hsh. unfold numel. cbn [foldr]. ring.
  - intros Hv. rewrite (forward_run _ _ _ _ _ _ _ _ _ Hsh), Hview, Hv.
    rewrite bind_run, call_encoder_run, Henc.
    assert (Hrec : __recover_z_shape (Strided (Tensor [B * (s * s); Cz; 1; 1] d) str) B
                   = Ok (Tensor [B; Cz; s; s]
                           (gather (permute021_src (s * s) Cz) (B * (Cz * (s * s))) d))).
    { rewrite recover_z_shape_strides by done. by apply recover_z_shape_square. }
    pose proof (recover_z_shape_square B s Cz d HB HCz Hs) as Hrec0.
    destruct Hsel as [[-> ->]|[-> [rest ->]]]; cbv beta iota zeta.
    + rewrite bind_run. cbn [ret M_monad]. cbv beta iota.
      rewrite recover_tracked_run. cbn [tval apply_fn content strides]. rewrite Hrec.
      eexists. split; [reflexivity|]. cbn [tval apply_fn].
      split; [reflexivity | exact Hrec0].
    + rewrite bind_run. cbn [imap]. rewrite first_output_list. cbv beta iota.
      rewrite recover_tracked_run. cbn [tval apply_fn content strides]. rewrite Hrec.
      eexists. split; [reflexivity|]. cbn [tval apply_fn].
      split; [reflexivity | exact Hrec0].
  - intros Hv. by rewrite (forward_run _ _ _ _ _ _ _ _ _ Hsh), Hview, Hv.
Qed.

Lemma forward_patch_vectors_witness :
  (shape (Tensor [1; 2 * 2; 1; 1; 1] [1; 2; 3; 4]%Q) = [1; 2 * 2; 1; 1; 1]
   ∧ 1 ≤ 1 ∧ 1 ≤ 2 ∧ length [1; 1; 1; 1] = 4
   ∧ enc_fwd Sample.tensor_encoder (Tensor [1 * (2 * 2); 1; 1; 1] [1; 2; 3; 4]%Q)
     = Ok (OutTensor (Strided (Tensor [1 * (2 * 2); 1; 1; 1] [1; 2; 3; 4]%Q)
                        [1; 1; 1; 1])))
  ∧ ∃ Z,
      forward (Sample.hp (EncName "cpc_encoder") None) Sample.tensor_encoder
        (PyTensor (Tensor [1; 2 * 2; 1; 1; 1] [1; 2; 3; 4]%Q)) Sample.st0
      = (Ok Z, State true [EvEncoder (Tensor [4; 1; 1; 1] [1; 2; 3; 4]%Q) true])
      ∧ shape (tval Z) = [1; 1; 2; 2].
Proof.
  assert (H2 : 1 ≤ 2) by (repeat constructor).
  split; [repeat split; assumption || constructor|].
  destruct (forward_patch_vectors (Sample.hp (EncName "cpc_encoder") None)
              Sample.tensor_encoder
              (contiguous (Tensor [1; 2 * 2; 1; 1; 1] [1; 2; 3; 4]%Q))
              1 2 1 1 1 1 _ [1; 2; 3; 4]%Q [1; 1; 1; 1] Sample.st0 eq_refl
              (le_n 1) H2 (le_n 1) (le_n 1) (le_n 1) (le_n 1) eq_refl eq_refl
              (or_introl (conj eq_refl eq_refl)))
    as (_ & Hok & _).
  destruct (Hok eq_refl) as (Z & Hrun & Hsh & _).
  exists Z. split; [exact Hrun | exact Hsh].
Defined.

(** X7. Input [forward] does not accept: a tuple has no [size()], a
    tensor that is not 5-dimensional cannot be unpacked into
    [b, p, c, w, h], and patches without elements cannot be put on the
    batch dimension; all three raise before the encoder is called, and an
    exception raised by the encoder is the exception of [forward]. *)
Theorem forward_rejects_malformed (hp : hparams) (enc : encoder) (st : state) :
  (∀ items, forward hp enc (PyTuple items) st = (Raise AttributeError, st))
  ∧ (∀ t, length (shape t) ≠ 5 →
          forward hp enc (PyTensor t) st = (Raise ValueError, st))
  ∧ (∀ t b p c w h, shape t = [b; p; c; w; h] → c * w * h = 0 →
          forward hp enc (PyTensor t) st = (Raise RuntimeError, st))
  ∧ (∀ t b p c w h x e, shape t = [b; p; c; w; h] →
          view t [None; Some c; Some w; Some h] = Ok x →
          enc_fwd enc x = Raise e →
          forward hp enc (PyTensor t) st
          = (Raise e,
             State (grad_enabled st)
               (events st ++ [EvEncoder x (grad_enabled st)]))).
Proof.
  split; [reflexivity|]. split; [|split].
  - intros t Hn. unfold forward. cbn [contiguous content].
    destruct (shape t) as [|b [|p [|c [|w [|h [|]]]]]]; try reflexivity.
    by cbn in Hn.
  - intros t b p c w h Hsh Hz.
    rewrite (forward_run _ _ (contiguous t) b p c w h st Hsh).
    rewrite view_strided_contiguous. unfold view. rewrite Hsh, infer_size_flatten.
    replace (c * (w * (h * 1))) with 0 by (rewrite Nat.mul_1_r; lia).
    reflexivity.
  - intros t b p c w h x e Hsh Hview Henc.
    rewrite (forward_run _ _ (contiguous t) b p c w h st Hsh).
    rewrite view_strided_contiguous, Hview.
    by rewrite bind_run, call_encoder_run, Henc.
Qed.

Lemma forward_rejects_malformed_witness :
  (length (shape (Tensor [2; 2] [1; 2; 3; 4]%Q)) ≠ 5)
  ∧ forward (Sample.hp (EncName "cpc_encoder") None) Sample.tensor_encoder
      (PyTensor (Tensor [2; 2] [1; 2; 3; 4]%Q)) Sample.st0
    = (Raise ValueError, Sample.st0).
Proof.
  assert (Hn : length (shape (Tensor [2; 2] [1; 2; 3; 4]%Q)) ≠ 5) by discriminate.
  split; [exact Hn|].
  exact (proj1 (proj2 (forward_rejects_malformed
                         (Sample.hp (EncName "cpc_encoder") None)
                         Sample.tensor_encoder Sample.st0)) _ Hn).
Defined.

Lemma first_output_state (Z : enc_tracked) (st st' : state) (r : result enc_tracked) :
  first_output Z st = (r, st') → st' = st.
Proof.
  destruct Z as [t str|ts].
  - rewrite first_output_tensor.
    destruct (getitem_strided _ 0); by intros [= _ <-].
  - unfold first_output. destruct (ts !! 0) as [[t str]|]; by intros [= _ <-].
Qed.

Lemma recover_tracked_state (Z : enc_tracked) (b : nat) (st st' : state)
    (r : result ttensor) :
  recover_tracked Z b st = (r, st') → st' = st.
Proof.
  destruct Z as [t str|ts]; [|by intros [= _ <-]].
  rewrite recover_tracked_run.
  destruct (__recover_z_shape _ b); by intros [= _ <-].
Qed.

(** What is left of a run once the encoder has been called: the selection
    of the first output and the reassembly change no state. *)
Lemma after_encoder_state (not_cpc : bool) (b : nat) (Z : enc_tracked)
    (st st' : state) (r : result ttensor) :
  bind (if not_cpc then first_output Z else ret Z)
       (fun Z => recover_tracked Z b) st = (r, st') →
  st' = st.
Proof.
  rewrite bind_run.
  destruct ((if not_cpc then first_output Z else ret Z) st) as [[Z'|e] s1] eqn:Hsel;
    (assert (s1 = st) as ->;
     [destruct not_cpc; [by apply first_output_state in Hsel|];
      by injection Hsel as _ <-|]).
  - apply recover_tracked_state.
  - by intros [= _ <-].
Qed.

Lemma forward_state_change (hp : hparams) (enc : encoder)
    (img : pyobj) (st st' : state) (r : result ttensor) :
  forward hp enc img st = (r, st') →
  grad_enabled st' = grad_enabled st
  ∧ (events st' = events st
     ∨ ∃ x, events st' = (events st ++ [EvEncoder x (grad_enabled st)])%list).
Proof.
  destruct img as [t|items]; [|intros [= _ <-]; auto].
  unfold forward.
  destruct (shape (content t)) as [|b [|p [|c [|w [|h [|]]]]]];
    try (intros [= _ <-]; auto).
  rewrite bind_run. unfold lift at 1.
  destruct (view_strided t [None; Some c; Some w; Some h]) as [x|e];
    [|intros [= _ <-]; auto].
  rewrite bind_run, call_encoder_run. cbv zeta.
  destruct (enc_fwd enc x) as [[v|vs]|e]; cbv beta iota.
  - intros Hrun. apply after_encoder_state in Hrun as ->. cbn. eauto.
  - intros Hrun. apply after_encoder_state in Hrun as ->. cbn. eauto.
  - intros [= _ <-]. cbn. eauto.
Qed.

(** X8. Whatever [forward] is given and however it ends, it leaves the
    grad mode as it found it and calls the encoder at most once: the
    events it adds are none, or the one encoder call. *)
Theorem forward_calls_encoder_at_most_once (hp : hparams) (enc : encoder)
    (img : pyobj) (st st' : state) (r : result ttensor) :
  forward hp enc img st = (r, st') →
  grad_enabled st' = grad_enabled st
  ∧ (events st' = events st
     ∨ ∃ x, events st' = (events st ++ [EvEncoder x (grad_enabled st)])%list).
Proof. apply forward_state_change. Qed.

Lemma forward_calls_encoder_at_most_once_witness :
  forward (Sample.hp (EncName "cpc_encoder") None) Sample.tensor_encoder
    (PyTuple []) Sample.st0 = (Raise AttributeError, Sample.st0)
  ∧ grad_enabled Sample.st0 = grad_enabled Sample.st0.
Proof.
  assert (E : forward (Sample.hp (EncName "cpc_encoder") None) Sample.tensor_encoder
    (PyTuple []) Sample.st0 = (Raise AttributeError, Sample.st0)) by reflexivity.
  split; [exact E|].
  exact (proj1 (forward_calls_encoder_at_most_once _ _ _ _ _ _ E)).
Defined.

(** * Further properties of the construction *)

Lemma compute_final_nb_c_state (hp : hparams) (enc : encoder) (patch_size : nat)
    (st st1 : state) (r : result (nat * nat)) :
  __compute_final_nb_c hp enc patch_size st = (r, st1) →
  st1 = State (grad_enabled st)
          (events st ++ [EvEncoder (zeros [2 * 49; 3; patch_size; patch_size])
                           (grad_enabled st)]).
Proof.
  unfold __compute_final_nb_c. cbv zeta. rewrite bind_run, call_encoder_run.
  cbv zeta.
  set (s1 := State _ _).
  assert (Hrest : ∀ Z : enc_tracked,
    bind (if not_cpc_encoder hp then first_output Z else ret Z)
      (fun Z => bind (recover_tracked Z 2)
         (fun z : ttensor =>
            match shape (tval z) with
            | [_; c; h; _] => ret (c, h)
            | _ => raise ValueError
            end)) s1 = (r, st1) → st1 = s1).
  { intros Z. rewrite bind_run.
    destruct ((if not_cpc_encoder hp then first_output Z else ret Z) s1)
      as [[Z'|e] s2] eqn:Hsel;
      (assert (s2 = s1) as ->;
       [destruct (not_cpc_encoder hp); [by apply first_output_state in Hsel|];
        by injection Hsel as _ <-|]); [|by intros [= _ <-]].
    rewrite bind_run.
    destruct (recover_tracked Z' 2 s1) as [[z|e] s3] eqn:Hrec;
      apply recover_tracked_state in Hrec as ->; [|by intros [= _ <-]].
    destruct (shape (tval z)) as [|? [|? [|? [|? [|]]]]]; by intros [= _ <-]. }
  destruct (enc_fwd enc _) as [[v|vs]|e]; cbv beta iota.
  - apply Hrest.
  - apply Hrest.
  - by intros [= _ <-].
Qed.

Section ConstructionEdges.
Context `{Collaborators}.
Implicit Types (dm : option datamodule) (arg : encoder_arg).

(** Everything a successful [__init__] has done *)
Lemma init_inv dm arg (patch_size patch_overlap : nat) (online_ft : bool)
    (num_workers : nat) (data_dir : string) (amdim_task : bool)
    (pretrained kwargs_dataset : option string) (st st' : state) (m : CPCV2) :
  __init__ dm arg patch_size patch_overlap online_ft num_workers data_dir
    amdim_task pretrained kwargs_dataset st = (Ok m, st') →
  let hp := init_hparams arg patch_size patch_overlap online_ft num_workers
              data_dir amdim_task pretrained kwargs_dataset in
  let g := grad_enabled st in
  let probe := EvEncoder (zeros [2 * 49; 3; patch_size; patch_size]) g in
  ∃ enc c h,
    init_encoder hp = Ok enc
    ∧ __compute_final_nb_c hp enc patch_size st
      = (Ok (c, h), State g (events st ++ [probe]))
    ∧ hparams_ m = hp
    ∧ encoder_ m = enc
    ∧ online_evaluator m = (if truthy pretrained then true else online_ft)
    ∧ non_linear_evaluator m
      = (if online_evaluator m
         then Some (SSLEvaluator (c * h * h) (num_classes (datamodule_ m))
                      (2 # 10) 1024)
         else None)
    ∧ st' = State g
              (events st ++ probe ::
               (if truthy pretrained
                then [match arg with
                      | EncName name =>
                          if String.eqb name "resnet18"
                          then EvLoadPretrained "CPCV2-resnet18"
                          else EvWarn (String.append name " not yet available")
                      | EncModule e =>
                          EvWarn (String.append (enc_repr e) " not yet available")
                      end]
                else [])).
Proof.
  intros Hrun hp g probe. unfold __init__ in Hrun. fold hp in Hrun.
  apply bind_ok_inv in Hrun as (enc & s0 & Henc & Hrun).
  apply lift_ok_inv in Henc as [Henc ->].
  apply bind_ok_inv in Hrun as ([c h] & s1 & Hprobe & Hrun).
  change (hp_patch_size hp) with patch_size in Hprobe.
  pose proof (compute_final_nb_c_state _ _ _ _ _ _ Hprobe) as ->.
  apply bind_ok_inv in Hrun as (u & s2 & Hload & Hrun).
  apply ret_ok_inv in Hrun as [-> ->].
  exists enc, c, h. split; [done|]. split; [done|].
  cbn [hparams_ encoder_ online_evaluator non_linear_evaluator datamodule_].
  change (hp_online_ft hp) with online_ft.
  repeat (split; [reflexivity|]).
  destruct (truthy pretrained).
  - rewrite load_pretrained_run in Hload. injection Hload as _ <-.
    subst g probe. cbn [grad_enabled events]. f_equal.
    by rewrite <- (assoc_L app).
  - apply ret_ok_inv in Hload as [_ ->]. reflexivity.
Qed.

(** X9. Construction fails fast: an exception raised while the encoder is
    built is raised by [__init__] before anything else happens, and one
    raised by the shape probe is raised by [__init__] with nothing in the
    record but the probe's encoder call; [load_pretrained] is not
    reached. *)
Theorem init_fails_fast dm arg (patch_size patch_overlap : nat) (online_ft : bool)
    (num_workers : nat) (data_dir : string) (amdim_task : bool)
    (pretrained kwargs_dataset : option string) (st : state) (e : exn) :
  let hp := init_hparams arg patch_size patch_overlap online_ft num_workers
              data_dir amdim_task pretrained kwargs_dataset in
  (init_encoder hp = Raise e →
   __init__ dm arg patch_size patch_overlap online_ft num_workers data_dir
     amdim_task pretrained kwargs_dataset st = (Raise e, st))
  ∧ (∀ enc st1,
       init_encoder hp = Ok enc →
       __compute_final_nb_c hp enc patch_size st = (Raise e, st1) →
       __init__ dm arg patch_size patch_overlap online_ft num_workers data_dir
         amdim_task pretrained kwargs_dataset st = (Raise e, st1)
       ∧ events st1
         = (events st
            ++ [EvEncoder (zeros [2 * 49; 3; patch_size; patch_size])
                  (grad_enabled st)])%list).
Proof.
  intros hp. split.
  - intros Henc. unfold __init__. fold hp. rewrite bind_run. unfold lift at 1.
    by rewrite Henc.
  - intros enc st1 Henc Hprobe. split.
    + unfold __init__. fold hp. rewrite bind_run. unfold lift at 1.
      rewrite Henc. cbv beta iota. rewrite bind_run.
      change (hp_patch_size hp) with patch_size. by rewrite Hprobe.
    + by rewrite (compute_final_nb_c_state _ _ _ _ _ _ Hprobe).
Qed.

(** X10. What [pretrained] does to a constructed model: a truthy value
    replaces the dataset given among the keyword arguments and switches
    the online probe on whatever [online_ft] says, and only then is
    [load_pretrained] run, after the shape probe; an absent or empty value
    leaves dataset and [online_ft] as given and adds no event beyond the
    probe's encoder call.  The probe's evaluator exists exactly when the
    online probe is on. *)
Theorem init_pretrained dm arg (patch_size patch_overlap : nat) (online_ft : bool)
    (num_workers : nat) (data_dir : string) (amdim_task : bool)
    (pretrained kwargs_dataset : option string) (st st' : state) (m : CPCV2) :
  __init__ dm arg patch_size patch_overlap online_ft num_workers data_dir
    amdim_task pretrained kwargs_dataset st = (Ok m, st') →
  let probe := EvEncoder (zeros [2 * 49; 3; patch_size; patch_size])
                 (grad_enabled st) in
  hp_dataset (hparams_ m) = (if truthy pretrained then pretrained else kwargs_dataset)
  ∧ online_evaluator m = (if truthy pretrained then true else online_ft)
  ∧ (is_Some (non_linear_evaluator m) ↔ online_evaluator m = true)
  ∧ grad_enabled st' = grad_enabled st
  ∧ events st'
    = (events st ++ probe ::
       (if truthy pretrained
        then [match arg with
              | EncName name =>
                  if String.eqb name "resnet18"
                  then EvLoadPretrained "CPCV2-resnet18"
                  else EvWarn (String.append name " not yet available")
              | EncModule e =>
                  EvWarn (String.append (enc_repr e) " not yet available")
              end]
        else []))%list.
Proof.
  intros Hrun probe.
  destruct (init_inv _ _ _ _ _ _ _ _ _ _ _ _ _ Hrun)
    as (enc & c & h & _ & _ & Hhp & _ & Hon & Hev & ->).
  rewrite Hhp. split; [reflexivity|]. split; [exact Hon|].
  split; [|split; reflexivity].
  rewrite Hev. destruct (online_evaluator m).
  - split; [done|]. intros _. by eexists.
  - split; [by intros [? [=]] | done].
Qed.

(** X11. A model constructed without a [dataset] keyword argument and
    without [pretrained] has no [hparams.dataset]: on every batch both
    steps raise [AttributeError] at their first line, before the encoder
    is called. *)
Theorem default_model_cannot_step dm arg (patch_size patch_overlap : nat)
    (online_ft : bool) (num_workers : nat) (data_dir : string) (amdim_task : bool)
    (pretrained : option string) (st st' : state) (m : CPCV2) :
  __init__ dm arg patch_size patch_overlap online_ft num_workers data_dir
    amdim_task pretrained None st = (Ok m, st') →
  truthy pretrained = false →
  ∀ batch s,
    training_step m batch s = (Raise AttributeError, s)
    ∧ validation_step m batch s = (Raise AttributeError, s).
Proof.
  intros Hrun Hfalsy batch s.
  destruct (init_inv _ _ _ _ _ _ _ _ _ _ _ _ _ Hrun)
    as (enc & c & h & _ & _ & Hhp & _).
  assert (Hd : hp_dataset (hparams_ m) = None).
  { rewrite Hhp. cbn [init_hparams hp_dataset]. by rewrite Hfalsy. }
  unfold training_step, validation_step, dataset_is_stl10. cbv zeta.
  by rewrite !bind_run, Hd.
Qed.

End ConstructionEdges.

Lemma init_fails_fast_witness :
  (@init_encoder Sample.collaborators
     (init_hparams (EncModule Sample.broken_encoder) 1 0 true 0 "" false None None)
   = Ok Sample.broken_encoder
   ∧ __compute_final_nb_c
       (init_hparams (EncModule Sample.broken_encoder) 1 0 true 0 "" false None None)
       Sample.broken_encoder 1 Sample.st0
     = (Raise RuntimeError, State true [EvEncoder (zeros [2 * 49; 3; 1; 1]) true]))
  ∧ @__init__ Sample.collaborators None (EncModule Sample.broken_encoder) 1 0 true
      0 "" false None None Sample.st0
    = (Raise RuntimeError, State true [EvEncoder (zeros [2 * 49; 3; 1; 1]) true]).
Proof.
  assert (Henc : @init_encoder Sample.collaborators
     (init_hparams (EncModule Sample.broken_encoder) 1 0 true 0 "" false None None)
     = Ok Sample.broken_encoder) by reflexivity.
  assert (Hprobe : __compute_final_nb_c
       (init_hparams (EncModule Sample.broken_encoder) 1 0 true 0 "" false None None)
       Sample.broken_encoder 1 Sample.st0
     = (Raise RuntimeError, State true [EvEncoder (zeros [2 * 49; 3; 1; 1]) true]))
    by reflexivity.
  split; [split; assumption|].
  exact (proj1 (proj2 (@init_fails_fast Sample.collaborators None
                         (EncModule Sample.broken_encoder) 1 0 true 0 "" false
                         None None Sample.st0 RuntimeError) _ _ Henc Hprobe)).
Defined.

Lemma init_pretrained_witness :
  ∃ m st',
    @__init__ Sample.collaborators None (EncName "resnet18") 1 0 false 0 ""
      false (Some "imagenet2012") (Some "cifar10") Sample.st0 = (Ok m, st')
    ∧ hp_dataset (hparams_ m) = Some "imagenet2012"
    ∧ online_evaluator m = true
    ∧ events st' = [EvEncoder (zeros [2 * 49; 3; 1; 1]) true;
                    EvLoadPretrained "CPCV2-resnet18"].
Proof.
  assert (E : ∃ m st',
    @__init__ Sample.collaborators None (EncName "resnet18") 1 0 false 0 ""
      false (Some "imagenet2012") (Some "cifar10") Sample.st0 = (Ok m, st'))
    by (eexists _, _; vm_compute; reflexivity).
  destruct E as (m & st' & E). exists m, st'. split; [exact E|].
  destruct (@init_pretrained Sample.collaborators _ _ _ _ _ _ _ _ _ _ _ _ _ E)
    as (Hd & Hon & _ & _ & Hev).
  split; [exact Hd|]. split; [exact Hon | exact Hev].
Defined.

Lemma default_model_cannot_step_witness :
  ∃ m st',
    (@__init__ Sample.collaborators None (EncName "cpc_encoder") 1 0 true 0 ""
       false None None Sample.st0 = (Ok m, st')
     ∧ truthy None = false)
    ∧ @training_step Sample.collaborators m
        (PyTuple [Sample.img 1 2 3 4; Sample.label]) st'
      = (Raise AttributeError, st').
Proof.
  assert (E : ∃ m st',
    @__init__ Sample.collaborators None (EncName "cpc_encoder") 1 0 true 0 ""
      false None None Sample.st0 = (Ok m, st'))
    by (eexists _, _; vm_compute; reflexivity).
  destruct E as (m & st' & E). exists m, st'. split; [split; [exact E | reflexivity]|].
  exact (proj1 (@default_model_cannot_step Sample.collaborators _ _ _ _ _ _ _ _ _
                  _ _ _ E eq_refl _ st')).
Defined.

(** * Further properties of the gradients *)

Lemma has_leaf_requires_grad (p : param) (n : node) :
  has_leaf p n = true → requires_grad n = true.
Proof. by destruct n. Qed.

Lemma existsb_has_leaf_requires_grad (p : param) (l : list node) :
  existsb (has_leaf p) l = true → existsb requires_grad l = true.
Proof.
  induction l as [|n l IH]; [done|]. cbn [existsb].
  intros [Hn|Hl]%orb_true_iff.
  - by rewrite (has_leaf_requires_grad _ _ Hn).
  - rewrite (IH Hl). apply orb_true_r.
Qed.

Lemma has_leaf_apply_fn (p : param) (f : fn_name) (saved : list value)
    (inputs : list node) (v : value) :
  existsb (has_leaf p) inputs = true →
  has_leaf p (tnode (apply_fn true f saved inputs v)) = true.
Proof.
  intros Hin. unfold apply_fn. cbn [tnode andb].
  by rewrite (existsb_has_leaf_requires_grad _ _ Hin).
Qed.

Lemma has_leaf_parameters (o : owner) (n i : nat) :
  i < n → existsb (has_leaf (o, i)) (parameters o n) = true.
Proof.
  intros Hi. unfold parameters. apply existsb_exists. exists (Leaf (o, i)).
  split; [|cbn; by rewrite bool_decide_eq_true_2].
  apply in_map_iff. exists i. split; [done|]. apply in_seq. lia.
Qed.

Lemma no_leaf_parameters (o o' : owner) (n j : nat) :
  o ≠ o' → existsb (has_leaf (o', j)) (parameters o n) = false.
Proof.
  intros Hne. unfold parameters. generalize 0 as k.
  induction n as [|n IH]; intros k; [done|]. cbn.
  rewrite bool_decide_eq_false_2 by congruence. apply IH.
Qed.

Lemma no_leaf_apply_fn (p : param) (g : bool) (f : fn_name) (saved : list value)
    (inputs : list node) (v : value) :
  existsb (has_leaf p) inputs = false →
  has_leaf p (tnode (apply_fn g f saved inputs v)) = false.
Proof.
  intros Hin. unfold apply_fn. cbn [tnode].
  by destruct (g && existsb requires_grad inputs).
Qed.

Lemma accumulate_is_Some (p q : param) (g : value) (grads : gmap param value) :
  is_Some (grads !! p) ∨ p = q → is_Some (accumulate q g grads !! p).
Proof.
  intros Hp. unfold accumulate. destruct (decide (q = p)) as [->|Hne].
  - destruct (grads !! p); rewrite lookup_insert_eq; by eexists.
  - destruct Hp as [Hp| ->]; [|done].
    destruct (grads !! q); by rewrite lookup_insert_ne.
Qed.

Section GradientFlow.
Context `{Collaborators}.

Lemma backward_is_Some_mono (n : node) :
  ∀ (p : param) (g : value) (grads : gmap param value),
    is_Some (grads !! p) → is_Some (backward n g grads !! p).
Proof.
  induction n as [|q|f saved inputs IH] using node_induction;
    intros p g grads Hp.
  - done.
  - cbn [backward]. apply accumulate_is_Some. by left.
  - cbn [backward]. generalize 0 as i. revert grads Hp.
    induction inputs as [|x rest IHrest]; intros grads Hp i; [done|].
    inversion IH as [|? ? IHx IHall]; subst.
    apply (IHrest IHall). by apply IHx.
Qed.

(** A parameter that is a leaf of the graph gets a gradient. *)
Lemma backward_has_leaf (n : node) :
  ∀ (p : param) (g : value) (grads : gmap param value),
    has_leaf p n = true → is_Some (backward n g grads !! p).
Proof.
  induction n as [|q|f saved inputs IH] using node_induction;
    intros p g grads Hp.
  - done.
  - cbn in Hp. apply bool_decide_eq_true_1 in Hp as ->.
    cbn [backward]. apply accumulate_is_Some. by right.
  - cbn [backward]. cbn [has_leaf] in Hp. generalize 0 as i. revert grads.
    induction inputs as [|x rest IHrest]; intros grads i; [done|].
    inversion IH as [|? ? IHx IHall]; subst.
    cbn [existsb] in Hp. destruct (has_leaf p x) eqn:Hx.
    + assert (Hsome : is_Some (backward x (local_grad f saved i g) grads !! p))
        by (by apply IHx).
      revert Hsome. generalize (backward x (local_grad f saved i g) grads).
      generalize (S i). clear -IHall.
      induction rest as [|y rest IHr]; intros j acc Hacc; [done|].
      inversion IHall as [|? ? _ IHall']; subst.
      apply (IHr IHall'). by apply backward_is_Some_mono.
    + by apply (IHrest IHall).
Qed.

(** A parameter that is no leaf of the graph is left alone. *)
Lemma backward_no_leaf (n : node) :
  ∀ (p : param) (g : value) (grads : gmap param value),
    has_leaf p n = false → backward n g grads !! p = grads !! p.
Proof.
  induction n as [|q|f saved inputs IH] using node_induction;
    intros p g grads Hp.
  - done.
  - cbn in Hp. apply bool_decide_eq_false_1 in Hp.
    cbn [backward]. apply accumulate_lookup_ne. congruence.
  - cbn [backward]. cbn [has_leaf] in Hp. generalize 0 as i. revert grads.
    induction inputs as [|x rest IHrest]; intros grads i; [done|].
    cbn [existsb] in Hp. apply orb_false_iff in Hp as [Hx Hrest].
    inversion IH as [|? ? IHx IHall]; subst.
    rewrite (IHrest IHall Hrest). by apply IHx.
Qed.

End GradientFlow.

Lemma encoder_output_leaves (g : bool) (k : nat) (x v : value) (n : nat) :
  let node := tnode (apply_fn g (FnEncoder k) [x]
                       (NoGrad :: parameters OwnEncoder n) v) in
  (∀ p, p.1 ≠ OwnEncoder → has_leaf p node = false)
  ∧ (g = true → ∀ i, i < n → has_leaf (OwnEncoder, i) node = true).
Proof.
  intros node. split.
  - intros [o j] Ho. apply no_leaf_apply_fn. cbn [existsb has_leaf orb].
    apply no_leaf_parameters. cbn in Ho. congruence.
  - intros -> i Hi. apply has_leaf_apply_fn. cbn [existsb has_leaf orb].
    by apply has_leaf_parameters.
Qed.

Lemma unary_fn_leaves (g : bool) (f : fn_name) (x v : value) (n : node) (p : param) :
  (has_leaf p n = false → has_leaf p (tnode (apply_fn g f [x] [n] v)) = false)
  ∧ (g = true → has_leaf p n = true
     → has_leaf p (tnode (apply_fn g f [x] [n] v)) = true).
Proof.
  split.
  - intros Hn. apply no_leaf_apply_fn. cbn [existsb]. by rewrite Hn.
  - intros -> Hn. apply has_leaf_apply_fn. cbn [existsb]. by rewrite Hn.
Qed.

(** The graph of the grid [forward] returns hangs on encoder parameters
    only, and with gradients enabled on every one of them. *)
Lemma forward_leaves (hp : hparams) (enc : encoder) (img : pyobj)
    (st st' : state) (Z : ttensor) :
  forward hp enc img st = (Ok Z, st') →
  (∀ p, p.1 ≠ OwnEncoder → has_leaf p (tnode Z) = false)
  ∧ (grad_enabled st = true →
     ∀ i, i < enc_nparams enc → has_leaf (OwnEncoder, i) (tnode Z) = true).
Proof.
  destruct img as [t|items]; [|discriminate]. unfold forward.
  destruct (shape (content t)) as [|b [|p [|c [|w [|h [|]]]]]] eqn:Hsh;
    try discriminate.
  rewrite bind_run. unfold lift at 1.
  destruct (view_strided t [None; Some c; Some w; Some h]) as [x|e]; [|discriminate].
  rewrite bind_run, call_encoder_run. cbv zeta.
  set (g := grad_enabled st).
  set (st1 := State g (events st ++ [EvEncoder x g])).
  assert (Hrec : ∀ (u : ttensor) (str : list nat),
    ((∀ p, p.1 ≠ OwnEncoder → has_leaf p (tnode u) = false)
     ∧ (g = true → ∀ i, i < enc_nparams enc → has_leaf (OwnEncoder, i) (tnode u) = true)) →
    recover_tracked (ETensor u str) b st1 = (Ok Z, st') →
    (∀ p, p.1 ≠ OwnEncoder → has_leaf p (tnode Z) = false)
    ∧ (g = true → ∀ i, i < enc_nparams enc → has_leaf (OwnEncoder, i) (tnode Z) = true)).
  { intros u str [Hno Hyes]. rewrite recover_tracked_run.
    destruct (__recover_z_shape _ b); [|discriminate].
    intros [= <- _]. cbn [grad_enabled st1]. split.
    - intros q Hq. apply unary_fn_leaves. by apply Hno.
    - intros Hg i Hi. apply unary_fn_leaves; [done|]. by apply Hyes. }
  destruct (enc_fwd enc x) as [[v|vs]|e]; [| |discriminate]; cbv beta iota;
    destruct (not_cpc_encoder hp).
  - rewrite bind_run, first_output_tensor.
    destruct (getitem_strided _ 0); [|discriminate]. cbv beta iota.
    apply Hrec. cbn [grad_enabled st1 tval].
    destruct (encoder_output_leaves g 0 x (content v) (enc_nparams enc)) as [Hno Hyes].
    split.
    + intros q Hq. apply unary_fn_leaves. by apply Hno.
    + intros Hg i Hi. apply unary_fn_leaves; [done|]. by apply Hyes.
  - rewrite bind_run. cbn [ret M_monad]. cbv beta iota. apply Hrec.
    apply encoder_output_leaves.
  - rewrite bind_run. destruct vs as [|u rest]; [discriminate|].
    cbn [imap]. rewrite first_output_list. cbv beta iota. apply Hrec.
    apply encoder_output_leaves.
  - rewrite bind_run. cbn [ret M_monad]. cbv beta iota. discriminate.
Qed.

Section TrainingSignal.
Context `{Collaborators}.

Lemma gradients_no_leaf (t : ttensor) (p : param) :
  has_leaf p (tnode t) = false → gradients t !! p = None.
Proof.
  intros Hp. unfold gradients. rewrite backward_no_leaf by done.
  apply lookup_empty.
Qed.

(** The contrastive loss of a step and where its graph hangs *)
Lemma contrastive_loss_leaves (self : CPCV2) (img : pyobj) (Zc nce : ttensor)
    (st st1 : state) :
  forward (hparams_ self) (encoder_ self) img st = (Ok Zc, st1) →
  call_info_nce (info_nce self) Zc st1 = (Ok nce, st1) →
  (∀ j, has_leaf (OwnProbe, j) (tnode nce) = false)
  ∧ (grad_enabled st = true →
     (∀ p, has_leaf p (tnode Zc) = true → has_leaf p (tnode nce) = true)
     ∧ (∀ i, i < enc_nparams (encoder_ self)
             → has_leaf (OwnEncoder, i) (tnode Zc) = true)
     ∧ (∀ j, j < cpc_task_nparams (info_nce self)
             → has_leaf (OwnInfoNCE, j) (tnode nce) = true)).
Proof.
  intros Hfwd Hnce.
  destruct (forward_leaves _ _ _ _ _ _ Hfwd) as [Hno Hyes].
  apply forward_state_change in Hfwd as [Hg _].
  rewrite call_info_nce_run in Hnce.
  destruct (cpc_task_forward _ _) as [v|]; [|discriminate]. injection Hnce as <-.
  split.
  - intros j. apply no_leaf_apply_fn. cbn [existsb].
    rewrite Hno by done. by apply no_leaf_parameters.
  - intros Hon. rewrite Hg, Hon. split; [|split].
    + intros p Hp. apply has_leaf_apply_fn. cbn [existsb]. by rewrite Hp.
    + intros i Hi. by apply Hyes.
    + intros j Hj. apply has_leaf_apply_fn. cbn [existsb].
      rewrite (has_leaf_parameters OwnInfoNCE _ j Hj). apply orb_true_r.
Qed.


(** X13. The probe is trained by its own loss only: the contrastive loss
    logged by a training step gives no gradient to any probe parameter,
    so with the probe off the returned loss gives none either, while with
    the probe on and gradients enabled the returned loss gives one to every
    parameter of the evaluator. *)
Theorem probe_trained_by_probe_loss_only (self : CPCV2) (batch : pyobj)
    (st st' : state) (r : step_result) :
  training_step self batch st = (Ok r, st') →
  ∃ nce,
    log r !! "train_nce_loss" = Some nce
    ∧ (∀ j, gradients nce !! (OwnProbe, j) = None)
    ∧ (online_evaluator self = false →
       ∀ j, gradients (loss r) !! (OwnProbe, j) = None)
    ∧ (online_evaluator self = true → grad_enabled st = true →
       ∀ ev j, non_linear_evaluator self = Some ev → j < evaluator_nparams ev →
               is_Some (gradients (loss r) !! (OwnProbe, j))).
Proof.
  intros Hrun.
  apply training_step_inv in Hrun
    as (d & img_c & y_c & Zc & st1 & nce & Hd & Hc & Hfwd & Hnce & Hrest).
  destruct (contrastive_loss_leaves _ _ _ _ _ _ Hfwd Hnce) as [Hno _].
  apply forward_state_change in Hfwd as [Hg1 _].
  exists nce. destruct (online_evaluator self).
  - destruct Hrest as (img_p & y_p & Zp & z_in & preds & mlp & _ & Hfwd2 & Hflat
                       & Hev & Hce & Hadd & Hlog).
    split. { rewrite Hlog, lookup_insert_ne by done. apply lookup_singleton_eq. }
    split. { intros j. by apply gradients_no_leaf. }
    split; [done|]. intros _ Hon ev j Hnle Hj.
    rewrite no_grad_run in Hfwd2. injection Hfwd2 as _ <-.
    cbn [grad_enabled] in *. rewrite Hg1, Hon in *.
    rewrite flatten_rows_run in Hflat.
    destruct (size _ _); [|discriminate]. destruct (view _ _); [|discriminate].
    injection Hflat as <-.
    rewrite call_evaluator_run, Hnle in Hev.
    destruct (evaluator_forward _ _); [|discriminate]. injection Hev as <-.
    rewrite call_cross_entropy_run in Hce. destruct y_p; [|discriminate].
    destruct (cross_entropy _ _); [|discriminate]. injection Hce as <-.
    rewrite add_losses_run in Hadd.
    destruct (tensor_add _ _); [|discriminate]. injection Hadd as <-.
    apply backward_has_leaf, has_leaf_apply_fn. cbn [existsb].
    pose proof (has_leaf_parameters OwnProbe _ j Hj) as Hpar.
    rewrite (existsb_has_leaf_requires_grad _ _ Hpar).
    cbn [requires_grad orb has_leaf existsb]. rewrite Hpar.
    by rewrite !orb_true_r.
  - destruct Hrest as [-> ->].
    split; [apply lookup_singleton_eq|].
    split. { intros j. by apply gradients_no_leaf. }
    split; [|done]. intros _ j. by apply gradients_no_leaf.
Qed.

End TrainingSignal.


Lemma probe_trained_by_probe_loss_only_witness :
  ∃ r st',
    @training_step Sample.collaborators (Sample.model true (Some "cifar10"))
      (PyTuple [Sample.img 1 2 3 4; Sample.label]) Sample.st0 = (Ok r, st')
    ∧ ∃ nce, log r !! "train_nce_loss" = Some nce
        ∧ @gradients Sample.collaborators nce !! (OwnProbe, 0) = None
        ∧ is_Some (@gradients Sample.collaborators (loss r) !! (OwnProbe, 0)).
Proof.
  assert (E : ∃ r st',
    @training_step Sample.collaborators (Sample.model true (Some "cifar10"))
      (PyTuple [Sample.img 1 2 3 4; Sample.label]) Sample.st0 = (Ok r, st'))
    by (eexists _, _; vm_compute; reflexivity).
  destruct E as (r & st' & E). exists r, st'. split; [exact E|].
  destruct (@probe_trained_by_probe_loss_only Sample.collaborators _ _ _ _ _ E)
    as (nce & Hlog & Hnone & _ & Hsome).
  exists nce. split; [exact Hlog|]. split; [apply Hnone|].
  apply (Hsome eq_refl eq_refl (SSLEvaluator 4 10 (2 # 10) 1024) 0 eq_refl).
  repeat constructor.
Defined.

(** * Further properties of the validation step *)

Section ValidationFacts.
Context `{Collaborators}.

Lemma call_accuracy_inv (preds : ttensor) (y : pyobj) (st st' : state)
    (acc : ttensor) :
  call_accuracy preds y st = (Ok acc, st') → st' = st ∧ tnode acc = NoGrad.
Proof.
  unfold call_accuracy. rewrite bind_run. destruct y as [t|]; [|discriminate].
  cbn [as_target ret M_monad]. cbv beta iota. rewrite bind_run. cbn [lift].
  destruct (accuracy _ _); [|discriminate]. by intros [= <- <-].
Qed.

Lemma apply_fn_no_grad (f : fn_name) (saved : list value) (inputs : list node)
    (v : value) :
  tnode (apply_fn false f saved inputs v) = NoGrad.
Proof. reflexivity. Qed.

(** What a validation step that returns has done *)
Lemma validation_step_inv (self : CPCV2) (batch : pyobj) (st st' : state)
    (r : gmap string ttensor) :
  validation_step self batch st = (Ok r, st') →
  grad_enabled st' = grad_enabled st
  ∧ ∃ d nce x_c,
      hp_dataset (hparams_ self) = Some d
      ∧ (grad_enabled st = false → tnode nce = NoGrad)
      ∧ if online_evaluator self
        then ∃ acc mlp,
            r = <["mlp_loss" := mlp]>
                  (<["mlp_acc" := acc]> {["val_nce" := nce]})
            ∧ tnode acc = NoGrad
            ∧ (grad_enabled st = false → tnode mlp = NoGrad)
            ∧ if String.eqb d "stl10"
              then ∃ x_p, events st'
                          = (events st ++ [EvEncoder x_c (grad_enabled st);
                                           EvEncoder x_p (grad_enabled st)])%list
              else events st' = (events st ++ [EvEncoder x_c (grad_enabled st)])%list
        else r = {["val_nce" := nce]}
             ∧ events st' = (events st ++ [EvEncoder x_c (grad_enabled st)])%list.
Proof.
  unfold validation_step. cbv zeta. intros Hrun.
  apply bind_ok_inv in Hrun as (stl10 & s0 & Hds & Hrun).
  unfold dataset_is_stl10 in Hds.
  destruct (hp_dataset (hparams_ self)) as [d|] eqn:Hd; [|discriminate].
  apply ret_ok_inv in Hds as [-> ->].
  apply bind_ok_inv in Hrun as ([labeled ub] & s1 & Hsplit & Hrun).
  apply split_batch_inv in Hsplit as [-> Hsplit].
  apply bind_ok_inv in Hrun as ([img_c y_c] & s2 & Hunp & Hrun).
  apply lift_ok_inv in Hunp as [Hunp ->].
  apply bind_ok_inv in Hrun as (Zc & st1 & Hfwd & Hrun).
  apply forward_inv in Hfwd as (? & ? & ? & ? & ? & ? & x_c & _ & _ & _ & Hst1 & _).
  apply bind_ok_inv in Hrun as (nce & s3 & Hnce & Hrun).
  pose proof (call_info_nce_state _ _ _ _ _ Hnce) as ->.
  assert (Hnn : grad_enabled st = false → tnode nce = NoGrad).
  { intros Hoff. rewrite call_info_nce_run in Hnce.
    destruct (cpc_task_forward _ _); [|discriminate]. injection Hnce as <-.
    by rewrite Hst1, Hoff. }
  destruct (online_evaluator self).
  - apply bind_ok_inv in Hrun as (stl10 & s0 & Hds & Hrun).
    unfold dataset_is_stl10 in Hds. rewrite Hd in Hds.
    apply ret_ok_inv in Hds as [-> ->].
    apply bind_ok_inv in Hrun as ([y Z] & s4 & Hp & Hrun).
    assert (Hs4 : grad_enabled s4 = grad_enabled st
      ∧ if String.eqb d "stl10"
        then ∃ x_p, events s4
                    = (events st ++ [EvEncoder x_c (grad_enabled st);
                                     EvEncoder x_p (grad_enabled st)])%list
        else events s4 = (events st ++ [EvEncoder x_c (grad_enabled st)])%list).
    { destruct (String.eqb d "stl10").
      - apply bind_ok_inv in Hp as (lb & s & Hlb & Hp).
        assert (s = st1) as ->.
        { destruct labeled; [by apply ret_ok_inv in Hlb as [_ ->] | discriminate]. }
        apply bind_ok_inv in Hp as ([img_l y_l] & s & Hu & Hp).
        apply lift_ok_inv in Hu as [_ ->].
        apply bind_ok_inv in Hp as (Zl & s & Hf & Hp).
        apply forward_inv in Hf as (? & ? & ? & ? & ? & ? & x_p & _ & _ & _ & Hs & _).
        apply ret_ok_inv in Hp as [_ ->]. rewrite Hs, Hst1. cbn [grad_enabled events].
        split; [done|]. exists x_p. by rewrite <- (assoc_L app).
      - apply ret_ok_inv in Hp as [_ ->]. by rewrite Hst1. }
    destruct Hs4 as [Hg4 Hev4].
    apply bind_ok_inv in Hrun as (z_in & s5 & Hflat & Hrun).
    pose proof (flatten_rows_state _ _ _ _ _ Hflat) as ->.
    apply bind_ok_inv in Hrun as (preds & s6 & Hev & Hrun).
    pose proof (call_evaluator_state _ _ _ _ _ Hev) as ->.
    apply bind_ok_inv in Hrun as (mlp & s7 & Hce & Hrun).
    pose proof (call_cross_entropy_state _ _ _ _ _ Hce) as ->.
    apply bind_ok_inv in Hrun as (acc & s8 & Hacc & Hrun).
    apply call_accuracy_inv in Hacc as [-> Hna].
    apply ret_ok_inv in Hrun as [-> ->].
    split; [done|]. exists d, nce, x_c. split; [done|]. split; [done|].
    exists acc, mlp.
    split; [done|]. split; [done|]. split; [|done]. intros Hoff.
    rewrite call_cross_entropy_run in Hce. destruct y; [|discriminate].
    destruct (cross_entropy _ _); [|discriminate]. injection Hce as <-.
    by rewrite Hg4, Hoff.
  - apply ret_ok_inv in Hrun as [-> ->]. split; [by rewrite Hst1|].
    exists d, nce, x_c. by rewrite Hst1.
Qed.

(** X14. A validation step keeps the grad mode it was entered with, and
    entered with gradients disabled, as under a trainer, it records no
    graph: every value it returns is without [grad_fn].  It returns the
    contrastive loss under ['val_nce'] and, exactly when the probe is on,
    the probe's accuracy and loss under ['mlp_acc'] and ['mlp_loss']. *)
Theorem validation_step_outputs (self : CPCV2) (batch : pyobj) (st st' : state)
    (r : gmap string ttensor) :
  validation_step self batch st = (Ok r, st') →
  grad_enabled st' = grad_enabled st
  ∧ dom r = (if online_evaluator self
             then {["val_nce"; "mlp_acc"; "mlp_loss"]}
             else {["val_nce"]} : gset string)
  ∧ (grad_enabled st = false → ∀ key t, r !! key = Some t → tnode t = NoGrad).
Proof.
  intros Hrun.
  apply validation_step_inv in Hrun as (Hg & d & nce & x_c & _ & Hnn & Hr).
  split; [done|]. destruct (online_evaluator self).
  - destruct Hr as (acc & mlp & -> & Hna & Hnm & _). split.
    + rewrite !dom_insert_L, dom_singleton_L. set_solver.
    + intros Hoff key t.
      rewrite !lookup_insert. repeat case_decide; try (intros [= <-]; auto).
      rewrite lookup_singleton. case_decide; intros [= <-]; auto.
  - destruct Hr as [-> _]. split; [by rewrite dom_singleton_L|].
    intros Hoff key t. rewrite lookup_singleton.
    case_decide; intros [= <-]; auto.
Qed.

Lemma collect_no_key_error (key : string) (outputs : list (gmap string ttensor)) :
  Forall (fun o => is_Some (o !! key)) outputs →
  collect key outputs ≠ Raise KeyError.
Proof.
  induction 1 as [|o outputs [t Ht] _ IH]; [discriminate|].
  cbn [collect]. rewrite Ht. cbn [bind result_monad].
  destruct (item (tval t)) as [q|e] eqn:Hq.
  - destruct (collect key outputs) as [qs|e'] eqn:Hc; [discriminate|].
    intros [= ->]. by apply IH.
  - unfold item in Hq.
    destruct (data (tval t)) as [|? [|]]; try discriminate;
      injection Hq as <-; discriminate.
Qed.

Lemma metrics_mean_no_key_error (key : string)
    (outputs : list (gmap string ttensor)) :
  Forall (fun o => is_Some (o !! key)) outputs →
  metrics_mean outputs key ≠ Raise KeyError.
Proof.
  intros Hall. unfold metrics_mean.
  pose proof (collect_no_key_error _ _ Hall) as Hc.
  destruct (collect key outputs) as [[|q qs]|e]; cbn [bind result_monad];
    [discriminate | discriminate | congruence].
Qed.

(** X15. The keys agree between the step and the epoch: on outputs that
    were all returned by [validation_step] of the same model,
    [validation_epoch_end] never fails on a missing key. *)
Theorem validation_epoch_end_finds_keys (self : CPCV2)
    (outputs : list (gmap string ttensor)) :
  Forall (fun o => ∃ batch st st', validation_step self batch st = (Ok o, st'))
    outputs →
  validation_epoch_end self outputs ≠ Raise KeyError.
Proof.
  intros Hall.
  assert (Hkeys : ∀ key,
    key ∈ (if online_evaluator self
           then {["val_nce"; "mlp_acc"; "mlp_loss"]}
           else {["val_nce"]} : gset string) →
    Forall (fun o => is_Some (o !! key)) outputs).
  { intros key Hkey. eapply Forall_impl; [exact Hall|].
    intros o (batch & st & st' & Hrun). cbv beta.
    apply validation_step_inv in Hrun as (_ & d & nce & x_c & _ & _ & Hr).
    apply elem_of_dom. destruct (online_evaluator self).
    - destruct Hr as (acc & mlp & -> & _).
      rewrite !dom_insert_L, dom_singleton_L. set_solver.
    - destruct Hr as [-> _]. by rewrite dom_singleton_L. }
  unfold validation_epoch_end.
  pose proof (metrics_mean_no_key_error "val_nce" outputs) as Hnce.
  destruct (metrics_mean outputs "val_nce") as [v|e];
    [|cbn; intros [= ->]; apply Hnce; [|done];
      apply Hkeys; destruct (online_evaluator self); set_solver].
  cbn [bind result_monad]. destruct (online_evaluator self); [|discriminate].
  pose proof (metrics_mean_no_key_error "mlp_acc" outputs) as Hacc.
  pose proof (metrics_mean_no_key_error "mlp_loss" outputs) as Hloss.
  destruct (metrics_mean outputs "mlp_acc") as [va|e];
    [|cbn; intros [= ->]; apply Hacc; [|done]; apply Hkeys; set_solver].
  cbn [bind result_monad].
  destruct (metrics_mean outputs "mlp_loss") as [vl|e];
    [discriminate|cbn; intros [= ->]; apply Hloss; [|done]; apply Hkeys; set_solver].
Qed.

(** X16. How often a validation step encodes: once, and a second time
    exactly when the probe is on under ['stl10'], where the labeled images
    are encoded for it; under every other dataset the probe is fed the
    grid of the contrastive path. *)
Theorem validation_step_encoder_calls (self : CPCV2) (batch : pyobj)
    (st st' : state) (r : gmap string ttensor) :
  validation_step self batch st = (Ok r, st') →
  ∃ d, hp_dataset (hparams_ self) = Some d
    ∧ length (encoder_calls (events st'))
      = length (encoder_calls (events st))
        + (if online_evaluator self && String.eqb d "stl10" then 2 else 1).
Proof.
  intros Hrun.
  apply validation_step_inv in Hrun as (_ & d & nce & x_c & Hd & _ & Hr).
  exists d. split; [done|]. destruct (online_evaluator self); cbn [andb].
  - destruct Hr as (acc & mlp & _ & _ & _ & Hev).
    destruct (String.eqb d "stl10").
    + destruct Hev as [x_p ->]. by rewrite encoder_calls_app, length_app.
    + by rewrite Hev, encoder_calls_app, length_app.
  - destruct Hr as [_ ->]. by rewrite encoder_calls_app, length_app.
Qed.

(** X17. A batch that cannot be taken apart is refused before anything is
    computed: when the pair cannot be unpacked (or, under ['stl10'], when
    the batch has no second or first element, or its first element is no
    pair), both steps raise that exception without a call of the
    encoder. *)
Theorem steps_refuse_malformed_batch (self : CPCV2) (batch : pyobj) (d : string)
    (e : exn) (st : state) :
  hp_dataset (hparams_ self) = Some d →
  (if String.eqb d "stl10"
   then py_getitem batch 1 = Raise e
        ∨ (∃ lb, py_getitem batch 1 = Ok lb ∧ py_getitem batch 0 = Raise e)
        ∨ (∃ lb ub, py_getitem batch 1 = Ok lb ∧ py_getitem batch 0 = Ok ub
                    ∧ py_unpack2 ub = Raise e)
   else py_unpack2 batch = Raise e) →
  training_step self batch st = (Raise e, st)
  ∧ validation_step self batch st = (Raise e, st).
Proof.
  intros Hd Hbad.
  pose proof (dataset_is_stl10_run _ _ st Hd) as Hds.
  unfold training_step, validation_step. cbv zeta.
  rewrite !(bind_ok _ _ _ _ _ Hds). unfold split_batch.
  destruct (String.eqb d "stl10").
  - destruct Hbad as [H1|[(lb & H1 & H0)|(lb & ub & H1 & H0 & Hu)]].
    + rewrite !bind_run. unfold lift. by rewrite H1.
    + rewrite !bind_run. unfold lift. rewrite H1. cbv beta iota.
      by rewrite !bind_run, H0.
    + rewrite !bind_run. unfold lift. rewrite H1. cbv beta iota.
      rewrite !bind_run, H0. cbv beta iota. cbn [ret M_monad]. cbv beta iota.
      by rewrite !bind_run, Hu.
  - rewrite !bind_run. cbn [ret M_monad]. cbv beta iota.
    rewrite !bind_run. unfold lift. by rewrite Hbad.
Qed.

End ValidationFacts.

Lemma validation_step_outputs_witness :
  ∃ r st',
    @validation_step Sample.collaborators (Sample.model true (Some "cifar10"))
      (PyTuple [Sample.img 1 2 3 4; Sample.label]) (State false []) = (Ok r, st')
    ∧ grad_enabled st' = false
    ∧ dom r = ({["val_nce"; "mlp_acc"; "mlp_loss"]} : gset string)
    ∧ (false = false → ∀ key t, r !! key = Some t → tnode t = NoGrad).
Proof.
  assert (E : ∃ r st',
    @validation_step Sample.collaborators (Sample.model true (Some "cifar10"))
      (PyTuple [Sample.img 1 2 3 4; Sample.label]) (State false []) = (Ok r, st'))
    by (eexists _, _; vm_compute; reflexivity).
  destruct E as (r & st' & Hrun). exists r, st'. split; [exact Hrun|].
  exact (@validation_step_outputs Sample.collaborators
           (Sample.model true (Some "cifar10")) _ _ _ _ Hrun).
Defined.

Lemma validation_epoch_end_finds_keys_witness :
  ∃ o st',
    @validation_step Sample.collaborators (Sample.model true (Some "cifar10"))
      (PyTuple [Sample.img 1 2 3 4; Sample.label]) Sample.st0 = (Ok o, st')
    ∧ validation_epoch_end (Sample.model true (Some "cifar10")) [o; o]
      ≠ Raise KeyError.
Proof.
  assert (E : ∃ o st',
    @validation_step Sample.collaborators (Sample.model true (Some "cifar10"))
      (PyTuple [Sample.img 1 2 3 4; Sample.label]) Sample.st0 = (Ok o, st'))
    by (eexists _, _; vm_compute; reflexivity).
  destruct E as (o & st' & Hrun). exists o, st'. split; [exact Hrun|].
  apply (@validation_epoch_end_finds_keys Sample.collaborators).
  repeat constructor; by exists (PyTuple [Sample.img 1 2 3 4; Sample.label]), Sample.st0, st'.
Defined.

Lemma validation_step_encoder_calls_witness :
  ∃ r st',
    @validation_step Sample.collaborators (Sample.model true (Some "stl10"))
      (PyTuple [PyTuple [Sample.img 1 2 3 4; Sample.label];
                PyTuple [Sample.img 5 6 7 8; Sample.label]]) Sample.st0
    = (Ok r, st')
    ∧ ∃ d, hp_dataset (hparams_ (Sample.model true (Some "stl10"))) = Some d
        ∧ length (encoder_calls (events st'))
          = length (encoder_calls (events Sample.st0))
            + (if online_evaluator (Sample.model true (Some "stl10"))
                  && String.eqb d "stl10" then 2 else 1).
Proof.
  assert (E : ∃ r st',
    @validation_step Sample.collaborators (Sample.model true (Some "stl10"))
      (PyTuple [PyTuple [Sample.img 1 2 3 4; Sample.label];
                PyTuple [Sample.img 5 6 7 8; Sample.label]]) Sample.st0
    = (Ok r, st'))
    by (eexists _, _; vm_compute; reflexivity).
  destruct E as (r & st' & Hrun). exists r, st'. split; [exact Hrun|].
  exact (@validation_step_encoder_calls Sample.collaborators _ _ _ _ _ Hrun).
Defined.

Lemma steps_refuse_malformed_batch_witness :
  @training_step Sample.collaborators (Sample.model true (Some "cifar10"))
    (PyTuple [Sample.img 1 2 3 4]) Sample.st0 = (Raise ValueError, Sample.st0)
  ∧ @validation_step Sample.collaborators (Sample.model true (Some "cifar10"))
      (PyTuple [Sample.img 1 2 3 4]) Sample.st0 = (Raise ValueError, Sample.st0).
Proof.
  apply (@steps_refuse_malformed_batch Sample.collaborators
           (Sample.model true (Some "cifar10")) _ "cifar10");
    reflexivity.
Defined.
